(** * OpenSpaceNet: the pipeline assembler of [OpenSpaceNet.cpp]

    A shallow embedding of [dg::osn::OpenSpaceNet] (file
    [common/src/OpenSpaceNet.cpp]): the image initialisers, the window
    planner, the region-filter builder, the label filter, the wiring of the
    processing graph and the progress callbacks.

    The nodes, the transformations, the vector files and the model package
    belong to the DeepCore and OpenCV libraries.  OpenCV's integer rectangle
    is written out below; everything DeepCore computes is taken through the
    interface [External], so every theorem holds for any implementation of
    it. *)

From stdpp Require Import base numbers list option strings gmap.
From Stdlib Require Import Ascii QArith Qround.

Open Scope Z_scope.

(** ** OpenCV value types *)

Record Size := mkSize { sz_width : Z; sz_height : Z }.
Record Point := mkPoint { pt_x : Z; pt_y : Z }.
Record Rect := mkRect { r_x : Z; r_y : Z; r_width : Z; r_height : Z }.

(** [cv::Rect{ {0,0}, size }] *)
Definition Rect_ofSize (s : Size) : Rect := mkRect 0 0 (sz_width s) (sz_height s).

(** [cv::Rect_<int>::operator&]: the overlap of two rectangles, and the
    all-zero rectangle when they do not overlap. *)
Definition Rect_and (a b : Rect) : Rect :=
  let x1 := Z.max (r_x a) (r_x b) in
  let y1 := Z.max (r_y a) (r_y b) in
  let w := Z.min (r_x a + r_width a) (r_x b + r_width b) - x1 in
  let h := Z.min (r_y a + r_height a) (r_y b + r_height b) - y1 in
  if (w <=? 0) || (h <=? 0) then mkRect 0 0 0 0 else mkRect x1 y1 w h.

(** [cv::Rect_<int>::operator==] *)
Definition Rect_eqb (a b : Rect) : bool :=
  (r_x a =? r_x b) && (r_y a =? r_y b) &&
  (r_width a =? r_width b) && (r_height a =? r_height b).

(** [cv::Rect::contains] on an integer pixel *)
Definition Rect_contains (r : Rect) (p : Z * Z) : bool :=
  (r_x r <=? p.1) && (p.1 <? r_x r + r_width r) &&
  (r_y r <=? p.2) && (p.2 <? r_y r + r_height r).

(** ** Spatial references and transformation chains *)

Inductive SpatialReference :=
| SR_Local
| SR_Crs (name : string).

Definition WGS84 : SpatialReference := SR_Crs "WGS84".

Definition isLocal (sr : SpatialReference) : bool :=
  match sr with SR_Local => true | SR_Crs _ => false end.

(** A transformation is kept as the expression that built it; what it does
    to a coordinate is DeepCore's business ([External]). *)
Inductive Transformation :=
| T_pixelToProj (image : string)            (* image->pixelToProj() *)
| T_fromLatLon (sr : SpatialReference)      (* sr.fromLatLon() *)
| T_from (sr src : SpatialReference)        (* sr.from(src) *)
| T_inverse (t : Transformation).           (* t.inverse() *)

Abbreviation TransformationChain := (list Transformation).

(** [TransformationChain::inverse]: the inverses, in reverse order. *)
Definition chain_inverse (c : TransformationChain) : TransformationChain :=
  reverse (T_inverse <$> c).

(** [TransformationChain::append] *)
Definition chain_append (c : TransformationChain) (t : Transformation)
  : TransformationChain := c ++ [t].

Inductive GeometryType := POINT | LINESTRING | POLYGON.

Definition GeometryType_eqb (a b : GeometryType) : bool :=
  match a, b with
  | POINT, POINT | LINESTRING, LINESTRING | POLYGON, POLYGON => true
  | _, _ => false
  end.

(** ** What DeepCore provides *)

Class External := {
  (** single-precision numbers *)
  Float : Type;
  i2f : Z -> Float;                    (* (float) n *)
  fdiv : Float -> Float -> Float;
  fmul : Float -> Float -> Float;
  roundf : Float -> Float;
  f2i : Float -> Z;                    (* (int) x *)
  (** rectangles with real coordinates *)
  Rect2d : Type;
  Rect2d_ofRect : Rect -> Rect2d;
  transformToInt : TransformationChain -> Rect2d -> Rect;
  transformRect : TransformationChain -> Rect2d -> Rect2d;
  (** geometries of vector features *)
  Geometry : Type;
  transformGeometry : TransformationChain -> Geometry -> Geometry;
  rectPolygon : Rect -> Geometry;      (* Polygon(LinearRing(rect)) *)
  Pt : Type;
  geometryContains : Geometry -> Pt -> bool;
}.

(** [(int) roundf(ratio * c)] *)
Definition roundMul `{External} (ratio : Float) (c : Z) : Z :=
  f2i (roundf (fmul ratio (i2f c))).

(** ** Run configuration ([OpenSpaceNetArgs]) *)

(** Modelled from the spec: the enumeration is declared in
    [OpenSpaceNetArgs.h], which is not among the sources.  [process] and
    the constructor compare a source with [Source::LOCAL] by [>] and treat
    what is above as a map service, what is below as no source: the order
    of [Source_rank] is that one, with the four map services the switch of
    [initMapServiceImage] tells apart. *)
Inductive Source := UNKNOWN | LOCAL | DGCS | EVWHS | MAPS_API | TILE_JSON.

Definition Source_rank (s : Source) : Z :=
  match s with
  | UNKNOWN => 0 | LOCAL => 1 | DGCS => 2 | EVWHS => 3
  | MAPS_API => 4 | TILE_JSON => 5
  end.

Definition Source_gt (a b : Source) : bool := Source_rank b <? Source_rank a.

Definition Source_eqb (a b : Source) : bool := Source_rank a =? Source_rank b.

Record ModelMetadata := {
  md_name : string;
  md_category : string;
  md_modelSize : Size;
}.

(** The model package once loaded ([Model::create]). *)
Record ModelPackage := {
  mp_metadata : ModelMetadata;
  mp_isSegmentation : bool;          (* dynamic_pointer_cast<Segmentation> *)
  mp_defaultStep : Size -> Point;    (* model->defaultStep(size) *)
}.

(** The fields of [OpenSpaceNetArgs] that [OpenSpaceNet.cpp] reads (the
    structure is declared in [OpenSpaceNetArgs.h]); the polygon simplifier
    of a segmentation model ([method], [epsilon], [minArea]) is left out. *)
Record Args `{External} := {
  a_source : Source;
  a_image : string;
  a_bbox : option Rect2d;
  a_mapId : string;
  a_token : string;
  a_credentials : string;
  a_url : string;
  a_useTiles : bool;
  a_zoom : Z;
  a_maxConnections : Z;
  a_maxCacheSize : Z;
  a_modelPackage : ModelPackage;
  a_useCpu : bool;
  a_maxUtilization : Float;
  a_confidence : Float;
  a_windowSize : list Z;
  a_windowStep : list Z;
  a_resampledSize : option Z;
  a_nms : bool;
  a_overlap : Float;
  a_excludeLabels : list string;
  a_includeLabels : list string;
  a_filterDefinition : list (string * list string);
  a_dgcsCatalogID : option string;
  a_evwhsCatalogID : option string;
  a_wfsCredentials : string;
  a_producerInfo : bool;
  a_extraFields : list string;
  a_geometryType : GeometryType;
  a_outputPath : string;
  a_layerName : string;
  a_outputFormat : string;
  a_append : bool;
  a_quiet : bool;
}.

(** ** Files and services *)

Record GdalImage := {
  img_size : Size;
  img_pixelToProj : Transformation;
  img_sr : SpatialReference;
  img_haveAlpha : bool;              (* RasterBand::haveAlpha(rasterBands()) *)
}.

Record Feature `{External} := {
  f_type : GeometryType;
  f_geometry : Geometry;
}.

Record Layer `{External} := {
  l_sr : SpatialReference;
  l_features : list Feature;
}.

Record MapServiceClient `{External} := {
  ms_sr : SpatialReference;
  ms_imageFromArea : Rect2d -> GdalImage;
  ms_haveAlpha : bool;
}.

Class World `{External} := {
  openImage : string -> GdalImage;              (* GdalImage(path) *)
  openFeatureSet : string -> list Layer;        (* FileFeatureSet(path) *)
  (* the client of a source, made from the map id, the token, the
     credentials, the url and the use-tiles flag, once connected *)
  connectClient : Source -> string -> string -> string -> string -> bool
                  -> MapServiceClient;
}.

(** ** Errors, log, state *)

Inductive Error :=
| InputSourceNotSpecified
| BoundingBoxMustBeSpecified
| NoIntersection
| FilterLacksSpatialReference (file : string)
    (* "%d doesn't have a spatial reference, but the input image does" *)
| ImageLacksSpatialReference (file : string)
    (* "Input image doesn't have a spatial reference, but the %d does" *)
| FilterNotPolygon (file : string)
| UnknownFilterAction (action : string)
| ResampleSizeTooLarge
| WindowSizeTooLarge
| UnsupportedModelType
| NoWfsCredentials
| NoWfsToken
| SplitCredsOutOfRange
    (* [splitCreds[1]] read where the credentials hold no ':': past the end
       of the vector, undefined behaviour; the model ends the run there *)
| WindowStepCountMismatch
| NullMetadata.   (* [metadata_] read before [initDetector] has set it *)

(** The two messages of the region filter about spatial references. *)
Definition CrsMismatch (file : string) (e : Error) : Prop :=
  e = FilterLacksSpatialReference file \/ e = ImageLacksSpatialReference file.

(** What a run leaves behind besides its result: the lines of the log and
    the calls made on a map-service client. *)
Inductive Event `{External} :=
| LogInfo (msg : string)
| LogWarning (msg : string)
| LogBboxAdjusted (llIntersect : Rect2d)  (* info: Bounding box adjusted to *)
| ClientCreated (s : Source)              (* make_unique<...Client>(...) *)
| ClientConnect (s : Source)              (* client->connect() *)
| ClientSet (key value : string)
| ClientSetTileMatrixId (wmts : bool) (zoom : Z)
| LogModel (md : ModelMetadata).          (* the lines of printModel *)

Record OSN `{External} := mkOSN {
  args_ : Args;
  imageSize_ : Size;
  bbox_ : Rect;
  pixelToProj_ : option Transformation;
  imageSr_ : SpatialReference;
  sr_ : SpatialReference;
  pixelToLL_ : TransformationChain;
  haveAlpha_ : bool;
  metadata_ : option ModelMetadata;
  modelAspectRatio_ : Float;
  primaryWindowSize_ : Size;
  primaryWindowStep_ : Point;
  log_ : list Event;
}.

(** Modelled from the spec: the members are declared in [OpenSpaceNet.h],
    which is not among the sources; the constructor only moves the
    arguments in.  A default-constructed [SpatialReference] is the one the
    spec calls [LOCAL] (the output spatial reference remains [LOCAL] when
    nothing assigns it). *)
Definition OpenSpaceNet_new `{External} (args : Args) : OSN :=
  {| args_ := args;
     imageSize_ := mkSize 0 0;
     bbox_ := mkRect 0 0 0 0;
     pixelToProj_ := None;
     imageSr_ := SR_Local;
     sr_ := SR_Local;
     pixelToLL_ := [];
     haveAlpha_ := false;
     metadata_ := None;
     modelAspectRatio_ := i2f 0;
     primaryWindowSize_ := mkSize 0 0;
     primaryWindowStep_ := mkPoint 0 0;
     log_ := [] |}.

Section Monad.
Context `{External}.

Inductive Outcome (A : Type) :=
| Ok (a : A) (s : OSN)
| Throw (e : Error) (s : OSN).
Global Arguments Ok {A} a s.
Global Arguments Throw {A} e s.

Definition M (A : Type) : Type := OSN -> Outcome A.

Definition ret {A} (a : A) : M A := fun s => Ok a s.

Definition bind {A B} (m : M A) (k : A -> M B) : M B :=
  fun s => match m s with
           | Ok a s' => k a s'
           | Throw e s' => Throw e s'
           end.

Definition throw {A} (e : Error) : M A := fun s => Throw e s.

Definition get : M OSN := fun s => Ok s s.

Definition modify (f : OSN -> OSN) : M unit := fun s => Ok tt (f s).

(** [DG_CHECK(cond, message)] *)
Definition DG_CHECK (cond : bool) (e : Error) : M unit :=
  if cond then ret tt else throw e.

Definition emit (e : Event) : M unit :=
  modify (fun s =>
    mkOSN _ (args_ s) (imageSize_ s) (bbox_ s) (pixelToProj_ s) (imageSr_ s)
          (sr_ s) (pixelToLL_ s) (haveAlpha_ s) (metadata_ s)
          (modelAspectRatio_ s) (primaryWindowSize_ s) (primaryWindowStep_ s)
          (log_ s ++ [e])).

End Monad.

Notation "'do' x <- m ; k" := (bind m (fun x => k))
  (at level 10, x name, m at level 100, k at level 200).
Notation "'run' m ; k" := (bind m (fun _ => k))
  (at level 10, m at level 100, k at level 200).

(** ** Nodes and the graph *)

Inductive NodeKind :=
| GdalBlockSource | MapServiceBlockSource | BlockCache | SubsetWithBorder
| RemoveBandByColorInterp | SubsetRegionFilter | SlidingWindow
| PolyDetector | BoxDetector | PolyLabelFilter | BoxLabelFilter
| PolyNonMaxSuppression | BoxNonMaxSuppression | PredictionBoxToPoly
| PredictionToFeature | WfsFeatureFieldExtractor | FileFeatureSink.

Inductive LabelFilterType := EXCLUDE | INCLUDE.

Inductive RegionOp `{External} :=
| Add (polys : list Geometry)            (* regionFilter->add(...) *)
| Subtract (polys : list Geometry).      (* regionFilter->subtract(...) *)

(** A [MaskedRegionFilter] as the calls that built it:
    [create(rect, step, ANY)] and then the additions and subtractions in
    the order they were made. *)
Record RegionFilter `{External} := {
  rf_rect : Rect;
  rf_step : Point;
  rf_ops : list RegionOp;
}.

Inductive FieldValue :=
| FDateNow | FLoginUser | FString (s : string) | FVersion.

Inductive AttrValue `{External} :=
| AString (s : string)
| AStrings (l : list string)
| AInt (z : Z)
| AFloat (f : Float)
| ARect (r : Rect)
| ASize (s : Size)
| ASizeSteps (l : list (Size * Point))
| ALabelFilterType (t : LabelFilterType)
| ARegionFilter (f : RegionFilter)
| AModel (m : ModelPackage) (gpu : bool) (maxUtilization : Float)
| AGeometryType (t : GeometryType)
| ATransformation (t : option Transformation)
| ASpatialReference (sr : SpatialReference)
| AAlphaBand
| AFields (l : list (string * FieldValue))
| AFieldNames (l : list string)
| AMapServiceConfig (s : Source) (area : Rect2d)
| AWfsUrl (base user password token : string)
| AOpenMode (append : bool).

Record Node `{External} := mkNode {
  n_name : string;
  n_kind : NodeKind;
  n_attrs : gmap string AttrValue;
}.

(** [Kind::create(name)] *)
Definition create `{External} (k : NodeKind) (name : string) : Node :=
  mkNode _ name k ∅.

(** [node->attr(key) = v] *)
Definition set_attr `{External} (key : string) (v : AttrValue) (n : Node) : Node :=
  mkNode _ (n_name n) (n_kind n) (<[key := v]> (n_attrs n)).

(** A port is a node name and a port name.  [g_inputs] maps an input port
    to the output port assigned to it; [g_attrLinks] lists the
    [dst->connectAttrs(src)] calls as pairs [(dst, src)]. *)
Record Graph `{External} := mkGraph {
  g_nodes : gmap string Node;
  g_inputs : gmap (string * string) (string * string);
  g_attrLinks : list (string * string);
}.

Section GraphOps.
Context `{External}.

Definition Graph_empty : Graph := mkGraph _ ∅ ∅ [].

Definition add_node (n : Node) (g : Graph) : Graph :=
  mkGraph _ (<[n_name n := n]> (g_nodes g)) (g_inputs g) (g_attrLinks g).

(** [dst->input(inPort) = src->output(outPort)] *)
Definition connect (dst : Node) (inPort : string) (src : Node) (outPort : string)
    (g : Graph) : Graph :=
  mkGraph _ (g_nodes g)
          (<[(n_name dst, inPort) := (n_name src, outPort)]> (g_inputs g))
          (g_attrLinks g).

(** [dst->connectAttrs(src)] *)
Definition connectAttrs (dst src : Node) (g : Graph) : Graph :=
  mkGraph _ (g_nodes g) (g_inputs g) (g_attrLinks g ++ [(n_name dst, n_name src)]).

(** the nodes of a kind *)
Definition has_kind (k : NodeKind) (g : Graph) : Prop :=
  exists name n, g_nodes g !! name = Some n /\ n_kind n = k.

(** the kind of the node of a given name *)
Definition kind_of (g : Graph) (name : string) : option NodeKind :=
  n_kind <$> g_nodes g !! name.

(** the producer wired to an input port *)
Definition wired (g : Graph) (dst inPort src outPort : string) : Prop :=
  g_inputs g !! (dst, inPort) = Some (src, outPort).

End GraphOps.

(** ** State updates *)

Section Setters.
Context `{External}.

Definition set_image (image : GdalImage) (s : OSN) : OSN :=
  mkOSN _ (args_ s) (img_size image) (bbox_ s) (Some (img_pixelToProj image))
        (img_sr image) (sr_ s) (pixelToLL_ s) (haveAlpha_ s) (metadata_ s)
        (modelAspectRatio_ s) (primaryWindowSize_ s) (primaryWindowStep_ s)
        (log_ s).

Definition set_bbox (r : Rect) (s : OSN) : OSN :=
  mkOSN _ (args_ s) (imageSize_ s) r (pixelToProj_ s) (imageSr_ s)
        (sr_ s) (pixelToLL_ s) (haveAlpha_ s) (metadata_ s)
        (modelAspectRatio_ s) (primaryWindowSize_ s) (primaryWindowStep_ s)
        (log_ s).

Definition set_sr (sr : SpatialReference) (s : OSN) : OSN :=
  mkOSN _ (args_ s) (imageSize_ s) (bbox_ s) (pixelToProj_ s) (imageSr_ s)
        sr (pixelToLL_ s) (haveAlpha_ s) (metadata_ s)
        (modelAspectRatio_ s) (primaryWindowSize_ s) (primaryWindowStep_ s)
        (log_ s).

Definition set_pixelToLL (c : TransformationChain) (s : OSN) : OSN :=
  mkOSN _ (args_ s) (imageSize_ s) (bbox_ s) (pixelToProj_ s) (imageSr_ s)
        (sr_ s) c (haveAlpha_ s) (metadata_ s)
        (modelAspectRatio_ s) (primaryWindowSize_ s) (primaryWindowStep_ s)
        (log_ s).

Definition set_haveAlpha (b : bool) (s : OSN) : OSN :=
  mkOSN _ (args_ s) (imageSize_ s) (bbox_ s) (pixelToProj_ s) (imageSr_ s)
        (sr_ s) (pixelToLL_ s) b (metadata_ s)
        (modelAspectRatio_ s) (primaryWindowSize_ s) (primaryWindowStep_ s)
        (log_ s).

Definition set_model (md : ModelMetadata) (ratio : Float) (s : OSN) : OSN :=
  mkOSN _ (args_ s) (imageSize_ s) (bbox_ s) (pixelToProj_ s) (imageSr_ s)
        (sr_ s) (pixelToLL_ s) (haveAlpha_ s) (Some md)
        ratio (primaryWindowSize_ s) (primaryWindowStep_ s)
        (log_ s).

Definition set_primaryWindowSize (sz : Size) (s : OSN) : OSN :=
  mkOSN _ (args_ s) (imageSize_ s) (bbox_ s) (pixelToProj_ s) (imageSr_ s)
        (sr_ s) (pixelToLL_ s) (haveAlpha_ s) (metadata_ s)
        (modelAspectRatio_ s) sz (primaryWindowStep_ s)
        (log_ s).

Definition set_primaryWindowStep (st : Point) (s : OSN) : OSN :=
  mkOSN _ (args_ s) (imageSize_ s) (bbox_ s) (pixelToProj_ s) (imageSr_ s)
        (sr_ s) (pixelToLL_ s) (haveAlpha_ s) (metadata_ s)
        (modelAspectRatio_ s) (primaryWindowSize_ s) st
        (log_ s).

End Setters.

(** ** The image initialisers *)

Section Images.
Context `{World}.

(** [OpenSpaceNet::initLocalImage].  The result of [transformToInt] is
    compared and intersected as an integer rectangle. *)
Definition initLocalImage : M Node :=
  do s0 <- get;
  let image := openImage (a_image (args_ s0)) in
  run modify (set_image image);
  run modify (set_bbox (Rect_ofSize (img_size image)));
  do branch <-
    (if negb (isLocal (img_sr image)) then
       run modify (set_sr WGS84);
       ret ([T_fromLatLon (img_sr image); T_inverse (img_pixelToProj image)],
            false)
     else
       run emit (LogWarning "Image has geometric metadata which cannot be converted to WGS84.  Output will be in native space, and some output formats will fail.");
       do ignoreArgsBbox <-
         (match a_bbox (args_ s0) with
          | Some _ =>
              run emit (LogWarning "Supplying the --bbox option implicitly requests a conversion from WGS84 to pixel space however there is no conversion from WGS84 to pixel space.");
              run emit (LogWarning "Ignoring user-supplied bounding box");
              ret true
          | None => ret false
          end);
       ret ([T_inverse (img_pixelToProj image)], ignoreArgsBbox));
  let llToPixel := branch.1 in
  let ignoreArgsBbox := branch.2 in
  run modify (set_pixelToLL (chain_inverse llToPixel));
  run (match a_bbox (args_ s0) with
       | Some argsBbox =>
           if negb ignoreArgsBbox then
             let bbox := transformToInt llToPixel argsBbox in
             do s1 <- get;
             let intersect := Rect_and (bbox_ s1) bbox in
             run DG_CHECK (negb (r_width intersect =? 0) &&
                           negb (r_height intersect =? 0)) NoIntersection;
             run (if negb (Rect_eqb bbox intersect) then
                    emit (LogBboxAdjusted
                            (transformRect (pixelToLL_ s1) (Rect2d_ofRect intersect)))
                  else ret tt);
             modify (set_bbox intersect)
           else ret tt
       | None => ret tt
       end);
  run modify (set_haveAlpha (img_haveAlpha image));
  ret (set_attr "path" (AString (a_image (args_ s0)))
                (create GdalBlockSource "blockSource")).

(** [OpenSpaceNet::initMapServiceImage] *)
Definition initMapServiceImage : M Node :=
  do s0 <- get;
  let args := args_ s0 in
  match a_bbox args with
  | None => throw BoundingBoxMustBeSpecified
  | Some argsBbox =>
      do wmts <-
        (match a_source args with
         | MAPS_API =>
             run emit (LogInfo "Connecting to MapsAPI...");
             run emit (ClientCreated MAPS_API);
             ret false
         | EVWHS =>
             run emit (LogInfo "Connecting to EVWHS...");
             run emit (ClientCreated EVWHS);
             ret true
         | TILE_JSON =>
             run emit (LogInfo "Connecting to TileJSON...");
             run emit (ClientCreated TILE_JSON);
             ret false
         | _ =>
             run emit (LogInfo "Connecting to DGCS...");
             run emit (ClientCreated DGCS);
             ret true
         end);
      run emit (ClientConnect (a_source args));
      let client := connectClient (a_source args) (a_mapId args) (a_token args)
                                  (a_credentials args) (a_url args)
                                  (a_useTiles args) in
      run (if wmts : bool then
             run emit (ClientSet "imageFormat" "image/jpeg");
             run emit (ClientSet "layer" "DigitalGlobe:ImageryTileService");
             run emit (ClientSet "tileMatrixSet" "EPSG:3857");
             emit (ClientSetTileMatrixId true (a_zoom args))
           else
             emit (ClientSetTileMatrixId false (a_zoom args)));
      let llToProj := T_fromLatLon (ms_sr client) in
      let projBbox := transformRect [llToProj] argsBbox in
      let image := ms_imageFromArea client projBbox in
      run modify (set_image image);
      let projToPixel := T_inverse (img_pixelToProj image) in
      run modify (set_bbox (transformToInt [projToPixel] projBbox));
      run modify (set_pixelToLL (chain_inverse [llToProj; projToPixel]));
      run modify (set_sr WGS84);
      run modify (set_haveAlpha (ms_haveAlpha client));
      ret (set_attr "maxConnections" (AInt (a_maxConnections args))
             (set_attr "config" (AMapServiceConfig (a_source args) projBbox)
                (create MapServiceBlockSource "blockSource")))
  end.

(** The head of [OpenSpaceNet::process]: the choice of the block source. *)
Definition openBlockSource : M Node :=
  do s0 <- get;
  if Source_gt (a_source (args_ s0)) LOCAL then
    run emit (LogInfo "Opening map service image...");
    initMapServiceImage
  else if Source_eqb (a_source (args_ s0)) LOCAL then
    run emit (LogInfo "Opening local image...");
    initLocalImage
  else
    throw InputSourceNotSpecified.

End Images.

(** ** The detector and the window planner *)

Abbreviation SizeSteps := (list (Size * Point)).

Section Windows.
Context `{World}.

(** a range-for whose body may throw *)
Fixpoint forM_ {A} (l : list A) (body : A -> M unit) : M unit :=
  match l with
  | [] => ret tt
  | x :: l' => run body x; forM_ l' body
  end.

(** a range-for that updates local variables of type [B] *)
Fixpoint foldM {A B} (body : B -> A -> M B) (l : list A) (b : B) : M B :=
  match l with
  | [] => ret b
  | x :: l' => do b' <- body b x; foldM body l' b'
  end.

(** [(float) modelSize.height / modelSize.width] *)
Definition aspectRatio `{External} (model : ModelPackage) : Float :=
  fdiv (i2f (sz_height (md_modelSize (mp_metadata model))))
       (i2f (sz_width (md_modelSize (mp_metadata model)))).

(** [OpenSpaceNet::initDetector], with the check of [initSegmentation]
    inlined; the polygon simplifier it sets on the model does not show in
    the graph. *)
Definition initDetector : M Node :=
  do s0 <- get;
  let args := args_ s0 in
  let model := a_modelPackage args in
  let md := mp_metadata model in
  let modelSize := md_modelSize md in
  let ratio := aspectRatio model in
  run modify (set_model md ratio);
  let confidence := fdiv (a_confidence args) (i2f 100) in
  let primarySize :=
    match a_windowSize args, a_resampledSize args with
    | w0 :: _, _ => mkSize w0 (roundMul ratio w0)
    | [], Some r => mkSize r (roundMul ratio r)
    | [], None => modelSize
    end in
  run modify (set_primaryWindowSize primarySize);
  run modify (set_primaryWindowStep
                match a_windowStep args with
                | s0 :: _ => mkPoint s0 (roundMul ratio s0)
                | [] => mp_defaultStep model primarySize
                end);
  run DG_CHECK (match a_resampledSize args with
                | Some r => r <=? sz_width modelSize
                | None => true
                end) ResampleSizeTooLarge;
  run (match a_resampledSize args with
       | Some _ => ret tt
       | None => forM_ (a_windowSize args)
                   (fun c => DG_CHECK (c <=? sz_width modelSize) WindowSizeTooLarge)
       end);
  do detectorNode <-
    (if bool_decide (md_category md = "segmentation") then
       run DG_CHECK (mp_isSegmentation model) UnsupportedModelType;
       ret (create PolyDetector "detector")
     else
       ret (create BoxDetector "detector"));
  ret (set_attr "confidence" (AFloat confidence)
         (set_attr "model"
            (AModel model (negb (a_useCpu args))
                    (fdiv (a_maxUtilization args) (i2f 100)))
            detectorNode)).

(** [OpenSpaceNet::calcWindows] *)
Definition calcWindows : M SizeSteps :=
  do s <- get;
  let windowSize := a_windowSize (args_ s) in
  let windowStep := a_windowStep (args_ s) in
  let ratio := modelAspectRatio_ s in
  run DG_CHECK ((length windowSize <? 2)%nat || (length windowStep <? 2)%nat ||
                (length windowSize =? length windowStep)%nat)
               WindowStepCountMismatch;
  if (length windowSize =? length windowStep)%nat &&
     negb (length windowStep =? 0)%nat then
    ret ((fun c : Z * Z =>
            (mkSize c.1 (roundMul ratio c.1), mkPoint c.2 (roundMul ratio c.2)))
           <$> zip windowSize windowStep)
  else if (1 <? length windowSize)%nat then
    ret ((fun c => (mkSize c (roundMul ratio c), primaryWindowStep_ s))
           <$> windowSize)
  else if (1 <? length windowStep)%nat then
    ret ((fun c => (primaryWindowSize_ s, mkPoint c (roundMul ratio c)))
           <$> windowStep)
  else
    ret [(primaryWindowSize_ s, primaryWindowStep_ s)].

(** [OpenSpaceNet::initSlidingWindow] *)
Definition initSlidingWindow : M Node :=
  do s <- get;
  do resampledSize <-
    (match a_resampledSize (args_ s) with
     | Some r => ret (mkSize r (roundMul (modelAspectRatio_ s) r))
     | None => match metadata_ s with
               | Some md => ret (md_modelSize md)
               | None => throw NullMetadata
               end
     end);
  do windowSizes <- calcWindows;
  ret (set_attr "bufferSize" (AInt (a_maxCacheSize (args_ s) `quot` 2))
         (set_attr "aoi" (ARect (bbox_ s))
            (set_attr "resampledSize" (ASize resampledSize)
               (set_attr "windowSizes" (ASizeSteps windowSizes)
                  (create SlidingWindow "slidingWindow"))))).

End Windows.

(** ** The region-filter builder *)

Section RegionFilterBuilder.
Context `{World}.

(** the rectangle [cv::Rect(0, 0, bbox_.width, bbox_.height)] *)
Definition filterExtent (s : OSN) : Rect :=
  mkRect 0 0 (r_width (bbox_ s)) (r_height (bbox_ s)).

(** The body of the loop over the layers of one filter file, up to the
    transformation into pixel space ([compact] does not change what the
    chain computes). *)
Definition layerTransform (filterFile : string) (layer : Layer)
  : M TransformationChain :=
  do s <- get;
  let pixelToProj := pixelToLL_ s in
  do pixelToProj' <-
    (if negb (Bool.eqb (isLocal (l_sr layer)) (isLocal (sr_ s))) then
       run DG_CHECK (isLocal (l_sr layer)) (FilterLacksSpatialReference filterFile);
       run DG_CHECK (isLocal (sr_ s)) (ImageLacksSpatialReference filterFile);
       ret pixelToProj
     else if negb (isLocal (sr_ s)) then
       ret (chain_append pixelToProj (T_from (l_sr layer) WGS84))
     else ret pixelToProj);
  ret (chain_inverse pixelToProj').

(** the loop over the features of a layer *)
Definition addFeature (filterFile : string) (transform : TransformationChain)
    (filterPolys : list Geometry) (feature : Feature) : M (list Geometry) :=
  if negb (GeometryType_eqb (f_type feature) POLYGON) then
    throw (FilterNotPolygon filterFile)
  else
    ret (filterPolys ++ [transformGeometry transform (f_geometry feature)]).

Definition addLayer (filterFile : string) (filterPolys : list Geometry)
    (layer : Layer) : M (list Geometry) :=
  do transform <- layerTransform filterFile layer;
  foldM (addFeature filterFile transform) (l_features layer) filterPolys.

Definition addFile (filterPolys : list Geometry) (filterFile : string)
  : M (list Geometry) :=
  foldM (addLayer filterFile) (openFeatureSet filterFile) filterPolys.

Definition rf_push (op : RegionOp) (f : RegionFilter) : RegionFilter :=
  {| rf_rect := rf_rect f; rf_step := rf_step f; rf_ops := rf_ops f ++ [op] |}.

(** The body of the loop over [args_.filterDefinition]; the local
    variables are the filter and [firstAction]. *)
Definition applyAction (st : RegionFilter * bool)
    (filterAction : string * list string) : M (RegionFilter * bool) :=
  let regionFilter := st.1 in
  let firstAction := st.2 in
  let action := filterAction.1 in
  do filterPolys <- foldM addFile filterAction.2 [];
  if bool_decide (action = "include") then
    ret (rf_push (Add filterPolys) regionFilter, false)
  else if bool_decide (action = "exclude") then
    do s <- get;
    do regionFilter' <-
      (if firstAction then
         run emit (LogInfo "User excluded regions first...automatically including the bounding box...");
         ret (rf_push (Add [rectPolygon (filterExtent s)]) regionFilter)
       else ret regionFilter);
    ret (rf_push (Subtract filterPolys) regionFilter', false)
  else
    throw (UnknownFilterAction action).

(** The filter that [OpenSpaceNet::initSubsetRegionFilter] builds. *)
Definition buildRegionFilter : M RegionFilter :=
  do s <- get;
  let regionFilter :=
    {| rf_rect := filterExtent s;
       rf_step := primaryWindowStep_ s;
       rf_ops := [] |} in
  do r <- foldM applyAction (a_filterDefinition (args_ s)) (regionFilter, true);
  ret r.1.

(** [OpenSpaceNet::initSubsetRegionFilter] *)
Definition initSubsetRegionFilter : M (option Node) :=
  do s <- get;
  match a_filterDefinition (args_ s) with
  | [] => ret None
  | _ :: _ =>
      run emit (LogInfo "Initializing the subset filter...");
      do regionFilter <- buildRegionFilter;
      ret (Some (set_attr "regionFilter" (ARegionFilter regionFilter)
                   (create SubsetRegionFilter "regionFilter")))
  end.

(** some polygon of the list contains the point *)
Definition anyContains (polys : list Geometry) (p : Pt) : bool :=
  existsb (fun g => geometryContains g p) polys.

Definition applyOp (p : Pt) (inside : bool) (op : RegionOp) : bool :=
  match op with
  | Add polys => inside || anyContains polys p
  | Subtract polys => inside && negb (anyContains polys p)
  end.

(** Modelled from the spec: [MaskedRegionFilter] is DeepCore's.  The region
    a filter stands for: it starts empty, an addition unites it with the
    polygons and a subtraction removes them, in the order of the calls. *)
Definition RegionFilter_contains (f : RegionFilter) (p : Pt) : bool :=
  fold_left (applyOp p) (rf_ops f) false.

End RegionFilterBuilder.

(** ** The remaining nodes *)

Section Nodes.
Context `{World}.

(** [OpenSpaceNet::initLabelFilter] *)
Definition initLabelFilter (s : OSN) (isSegmentation : bool) : option Node :=
  let labelFilter :=
    if isSegmentation then create PolyLabelFilter "labelFilter"
    else create BoxLabelFilter "labelFilter" in
  match a_excludeLabels (args_ s), a_includeLabels (args_ s) with
  | _ :: _, _ =>
      Some (set_attr "labelFilterType" (ALabelFilterType EXCLUDE)
              (set_attr "labels" (AStrings (a_excludeLabels (args_ s))) labelFilter))
  | [], _ :: _ =>
      Some (set_attr "labelFilterType" (ALabelFilterType INCLUDE)
              (set_attr "labels" (AStrings (a_includeLabels (args_ s))) labelFilter))
  | [], [] => None
  end.

(** The non-max-suppression node of [process]. *)
Definition initNms (s : OSN) (isSegmentation : bool) : option Node :=
  if a_nms (args_ s) then
    let nmsNode :=
      if isSegmentation then create PolyNonMaxSuppression "nms"
      else create BoxNonMaxSuppression "nms" in
    Some (set_attr "overlapThreshold"
            (AFloat (fdiv (a_overlap (args_ s)) (i2f 100))) nmsNode)
  else None.

(** [fields.emplace(key, v)]: an existing key keeps its value. *)
Definition emplace (key : string) (v : FieldValue)
    (fields : list (string * FieldValue)) : list (string * FieldValue) :=
  if existsb (fun kv => bool_decide (kv.1 = key)) fields then fields
  else fields ++ [(key, v)].

(** [extraFields[i]] for [i = 0, 2, 4, ...] *)
Fixpoint extraFieldNames (l : list string) : list string :=
  match l with
  | [] => []
  | [k] => [k]
  | k :: _ :: l' => k :: extraFieldNames l'
  end.

(** The loop [for (i = 0; i < extraFields.size(); i += 2)] over the names
    [extraFields[i]] and the values [extraFields[i + 1]]; a last name
    without a value is left out here (the source reads past the end). *)
Fixpoint extraFieldPairs (l : list string) : list (string * string) :=
  match l with
  | k :: v :: l' => (k, v) :: extraFieldPairs l'
  | _ => []
  end.

(** [OpenSpaceNet::initPredictionToFeature] *)
Definition initPredictionToFeature (s : OSN) : Node :=
  let args := args_ s in
  let fields := emplace "date" FDateNow [] in
  let fields :=
    if a_producerInfo args then
      emplace "app_ver" FVersion
        (emplace "app" (FString "OpenSpaceNet")
           (emplace "username" FLoginUser fields))
    else fields in
  let fields :=
    fold_left (fun fs kv => emplace kv.1 (FString kv.2) fs)
              (extraFieldPairs (a_extraFields args)) fields in
  set_attr "extraFields" (AFields fields)
    (set_attr "topNCategories" (AInt 5)
       (set_attr "topNName" (AString "top_five")
          (set_attr "pixelToProj" (ATransformation (pixelToProj_ s))
             (set_attr "geometryType" (AGeometryType (a_geometryType args))
                (create PredictionToFeature "predToFeature"))))).

(** the first piece of [s] and the pieces after it *)
Fixpoint boost_split_pieces (sep : ascii) (s : string) : string * list string :=
  match s with
  | EmptyString => (EmptyString, [])
  | String c s' =>
      let pieces := boost_split_pieces sep s' in
      if Ascii.eqb c sep then (EmptyString, pieces.1 :: pieces.2)
      else (String c pieces.1, pieces.2)
  end.

(** [boost::split(result, s, is_any_of(sep))] for one separator: the
    pieces of [s] between the separators, empty pieces included; a string
    without the separator is one piece. *)
Definition boost_split (sep : ascii) (s : string) : list string :=
  let pieces := boost_split_pieces sep s in
  pieces.1 :: pieces.2.

(** [OpenSpaceNet::initWfs]; [splitCreds[0]] and [splitCreds[1]] are read
    after the token is checked, and a read past the end of [splitCreds]
    ends the run. *)
Definition initWfs : M (option Node) :=
  do s <- get;
  let args := args_ s in
  if bool_decide (is_Some (a_dgcsCatalogID args)) ||
     bool_decide (is_Some (a_evwhsCatalogID args)) then
    do baseUrl <-
      (if bool_decide (is_Some (a_dgcsCatalogID args)) then
         run emit (LogInfo "Connecting to DGCS web feature service...");
         ret "https://services.digitalglobe.com/catalogservice/wfsaccess"
       else
         run emit (LogInfo "Connecting to EVWHS web feature service...");
         ret "https://evwhs.digitalglobe.com/catalogservice/wfsaccess");
    do wfsCreds <-
      (if bool_decide (a_wfsCredentials args = "") then
         run DG_CHECK (negb (bool_decide (a_credentials args = ""))) NoWfsCredentials;
         ret (a_credentials args)
       else ret (a_wfsCredentials args));
    run DG_CHECK (negb (bool_decide (a_token args = ""))) NoWfsToken;
    let splitCreds := boost_split ":"%char wfsCreds in
    match splitCreds !! 0%nat, splitCreds !! 1%nat with
    | Some user, Some password =>
        ret (Some (set_attr "url" (AWfsUrl baseUrl user password (a_token args))
                     (set_attr "defaultFields" (AFields [("legacyId", FString "uncataloged")])
                        (set_attr "fieldNames" (AFieldNames ["legacyId"])
                           (set_attr "inputSpatialReference" (ASpatialReference (imageSr_ s))
                              (create WfsFeatureFieldExtractor "fieldExtractor"))))))
    | _, _ => throw SplitCredsOutOfRange
    end
  else ret None.

(** [OpenSpaceNet::initFeatureSink]; of the field definitions the names
    are kept. *)
Definition initFeatureSink (s : OSN) : Node :=
  let args := args_ s in
  let definitions := ["top_cat"; "top_score"; "date"; "top_five"] in
  let definitions :=
    if a_producerInfo args then definitions ++ ["username"; "app"; "app_ver"]
    else definitions in
  let definitions :=
    if bool_decide (is_Some (a_dgcsCatalogID args)) ||
       bool_decide (is_Some (a_evwhsCatalogID args))
    then definitions ++ ["catalog_id"] else definitions in
  let definitions := definitions ++ extraFieldNames (a_extraFields args) in
  set_attr "fieldDefinitions" (AFieldNames definitions)
    (set_attr "openMode" (AOpenMode (a_append args))
       (set_attr "outputFormat" (AString (a_outputFormat args))
          (set_attr "layerName" (AString (a_layerName args))
             (set_attr "path" (AString (a_outputPath args))
                (set_attr "geometryType" (AGeometryType (a_geometryType args))
                   (set_attr "outputSpatialReference" (ASpatialReference (sr_ s))
                      (set_attr "spatialReference" (ASpatialReference (imageSr_ s))
                         (create FileFeatureSink "featureSink")))))))).

End Nodes.

(** ** The graph of [process] *)

Section Process.
Context `{World}.

Definition add_opt (n : option Node) (g : Graph) : Graph :=
  match n with Some n => add_node n g | None => g end.

(** The port assignments of [OpenSpaceNet::process], in the order of the
    source; the box-to-polygon node is created on the way. *)
Definition wire (isSegmentation : bool)
    (blockSource blockCache subsetWithBorder : Node) (subsetFilter : option Node)
    (slidingWindow : Node) (removeAlpha : option Node) (model : Node)
    (labelFilter nmsNode : option Node) (predictionToFeature : Node)
    (wfsExtractor : option Node) (featureSink : Node) (g : Graph) : Graph :=
  let g :=
    match removeAlpha with
    | Some removeAlpha =>
        connect blockCache "blocks" removeAlpha "blocks"
          (connect removeAlpha "blocks" blockSource "blocks" g)
    | None => connect blockCache "blocks" blockSource "blocks" g
    end in
  let g := connect subsetWithBorder "subsets" blockCache "subsets" g in
  let g :=
    match subsetFilter with
    | Some subsetFilter =>
        connect slidingWindow "subsets" subsetFilter "subsets"
          (connect subsetFilter "subsets" subsetWithBorder "subsets" g)
    | None => connect slidingWindow "subsets" subsetWithBorder "subsets" g
    end in
  let g := connect model "subsets" slidingWindow "subsets" g in
  let g :=
    match labelFilter with
    | Some labelFilter =>
        let g := connect labelFilter "predictions" model "predictions" g in
        match nmsNode with
        | Some nmsNode => connect nmsNode "predictions" labelFilter "predictions" g
        | None => g
        end
    | None =>
        match nmsNode with
        | Some nmsNode => connect nmsNode "predictions" model "predictions" g
        | None => g
        end
    end in
  (* [toPoly] is created, and used below, only if [!isSegmentation] *)
  let toPoly := create PredictionBoxToPoly "predictionToPoly" in
  let g :=
    if negb isSegmentation then
      connect predictionToFeature "predictions" toPoly "predictions"
        (add_node toPoly g)
    else g in
  let g :=
    match nmsNode, labelFilter with
    | Some nmsNode, _ =>
        if isSegmentation
        then connect predictionToFeature "predictions" nmsNode "predictions" g
        else connect toPoly "predictions" nmsNode "predictions" g
    | None, Some labelFilter =>
        if isSegmentation
        then connect predictionToFeature "predictions" labelFilter "predictions" g
        else connect toPoly "predictions" labelFilter "predictions" g
    | None, None =>
        if isSegmentation
        then connect predictionToFeature "predictions" model "predictions" g
        else connect toPoly "predictions" model "predictions" g
    end in
  match wfsExtractor with
  | Some wfsExtractor =>
      connect featureSink "features" wfsExtractor "features"
        (connect wfsExtractor "features" predictionToFeature "features" g)
  | None => connect featureSink "features" predictionToFeature "features" g
  end.

(** [OpenSpaceNet::printModel] *)
Definition printModel : M unit :=
  do s <- get;
  match metadata_ s with
  | Some md => emit (LogModel md)
  | None => throw NullMetadata
  end.

(** The statements of [OpenSpaceNet::process] that create, configure and
    connect nodes without calling an initialiser that may throw, in the
    order of the source.  [args] is [args_], [md] is [metadata_], [s3] is
    the object when the label filter, the suppression node and the feature
    conversion are made, [s4] the object when the feature sink is made. *)
Definition assemble (args : Args) (md : ModelMetadata) (s3 s4 : OSN)
    (blockSource model : Node) (subsetFilter : option Node)
    (slidingWindow : Node) (wfsExtractor : option Node) : Graph :=
  let blockCache :=
    set_attr "bufferSize" (AInt (a_maxCacheSize args `quot` 2))
             (create BlockCache "blockCache") in
  let g := connectAttrs blockCache blockSource Graph_empty in
  let subsetWithBorder :=
    match a_resampledSize args with
    | Some _ => set_attr "paddedSize" (ASize (md_modelSize md))
                         (create SubsetWithBorder "border")
    | None => create SubsetWithBorder "border"
    end in
  let g := connectAttrs subsetWithBorder blockSource g in
  let g := connectAttrs slidingWindow blockSource g in
  let removeAlpha :=
    if haveAlpha_ s3
    then Some (set_attr "bandToRemove" AAlphaBand
                        (create RemoveBandByColorInterp "removeAlpha"))
    else None in
  let g :=
    match removeAlpha with
    | Some removeAlpha =>
        connectAttrs slidingWindow removeAlpha
          (connectAttrs subsetWithBorder removeAlpha
             (connectAttrs blockCache removeAlpha
                (connectAttrs removeAlpha blockSource g)))
    | None => g
    end in
  let isSegmentation := bool_decide (md_category md = "segmentation") in
  let labelFilter := initLabelFilter s3 isSegmentation in
  let nmsNode := initNms s3 isSegmentation in
  let predictionToFeature := initPredictionToFeature s3 in
  let featureSink := initFeatureSink s4 in
  let g :=
    add_node featureSink (add_opt wfsExtractor (add_node predictionToFeature
      (add_opt nmsNode (add_opt labelFilter (add_opt removeAlpha
        (add_node slidingWindow (add_opt subsetFilter (add_node subsetWithBorder
          (add_node model (add_node blockCache (add_node blockSource g)))))))))))
  in
  wire isSegmentation blockSource blockCache subsetWithBorder subsetFilter
       slidingWindow removeAlpha model labelFilter nmsNode
       predictionToFeature wfsExtractor featureSink g.

(** [OpenSpaceNet::process] up to the start of the run: the initialisers
    in the order of the source, and the graph they are assembled into. *)
Definition process : M Graph :=
  do blockSource <- openBlockSource;
  do s1 <- get;
  let args := args_ s1 in
  run emit (if 0 <? a_maxCacheSize args
            then LogInfo "Maximum raster cache size is set"
            else LogInfo "Maximum raster cache size is not limited");
  run emit (LogInfo "Reading model...");
  do model <- initDetector;
  run printModel;
  do s2 <- get;
  do md <- (match metadata_ s2 with
            | Some md => ret md
            | None => throw NullMetadata
            end);
  do subsetFilter <- initSubsetRegionFilter;
  do slidingWindow <- initSlidingWindow;
  do s3 <- get;
  do wfsExtractor <- initWfs;
  do s4 <- get;
  ret (assemble args md s3 s4 blockSource model subsetFilter slidingWindow
                wfsExtractor).

End Process.

(** ** The progress callbacks of [process] *)

Inductive ProgressUpdate :=
| UpdateMaximum (category : string) (v : Z)   (* pdHelper.updateMaximum *)
| UpdateCurrent (category : string) (v : Z).  (* pdHelper.updateCurrent *)

(** What the callbacks read and write: whether the display is running
    ([pd_->isRunning()]), the updates sent to it, and the number of
    [featureSink->cancel()] calls. *)
Record Monitor := mkMonitor {
  pd_running : bool;
  pd_updates : list ProgressUpdate;
  sink_cancels : nat;
}.

Inductive MonitorEvent :=
| MetricTotal (v : Z)       (* slidingWindow->metric("total") changed *)
| MetricForwarded (v : Z)   (* slidingWindow->metric("forwarded") changed *)
| MetricProcessed (v : Z)   (* model->metric("processed") changed *)
| DisplayStop.              (* the user stops the display *)

Definition cancel (m : Monitor) : Monitor :=
  mkMonitor (pd_running m) (pd_updates m) (S (sink_cancels m)).

Definition update (u : ProgressUpdate) (m : Monitor) : Monitor :=
  mkMonitor (pd_running m) (pd_updates m ++ [u]) (sink_cancels m).

(** the lambda connected to the metric "total" *)
Definition subsetsRequested (v : Z) (m : Monitor) : Monitor :=
  if negb (pd_running m) then cancel m
  else update (UpdateMaximum "Detecting" v) (update (UpdateMaximum "Reading" v) m).

(** the lambda connected to the metric "forwarded" *)
Definition subsetsRead (v : Z) (m : Monitor) : Monitor :=
  if negb (pd_running m) then cancel m
  else update (UpdateCurrent "Reading" v) m.

(** the lambda connected to the metric "processed" *)
Definition subsetsProcessed (v : Z) (m : Monitor) : Monitor :=
  if negb (pd_running m) then cancel m
  else update (UpdateCurrent "Detecting" v) m.

Definition isMetric (e : MonitorEvent) : bool :=
  match e with DisplayStop => false | _ => true end.

(** One event of a run.  The callbacks are connected only in the
    interactive mode, [!args_.quiet && pd_]. *)
Definition monitorStep (interactive : bool) (m : Monitor) (e : MonitorEvent)
  : Monitor :=
  match e with
  | MetricTotal v => if interactive then subsetsRequested v m else m
  | MetricForwarded v => if interactive then subsetsRead v m else m
  | MetricProcessed v => if interactive then subsetsProcessed v m else m
  | DisplayStop => mkMonitor false (pd_updates m) (sink_cancels m)
  end.

(** the state after [pd_->start()] *)
Definition monitorStart : Monitor := mkMonitor true [] 0.

Definition monitorRun (interactive : bool) (m : Monitor)
    (events : list MonitorEvent) : Monitor :=
  fold_left (monitorStep interactive) events m.

(** some metric callback of the run finds the display stopped *)
Definition observedStopped (events : list MonitorEvent) : Prop :=
  exists before e after,
    events = before ++ e :: after /\ isMetric e = true /\
    pd_running (monitorRun true monitorStart before) = false.

(** ** A concrete world

    Exact rational arithmetic in place of single precision, transformations
    that are translations, and rectangles as the only polygons.  It is the
    instance at which the theorems below are evaluated. *)

Module Concrete.

Definition roundHalfAway (q : Q) : Z :=
  if Qle_bool 0 q then Qfloor (q + (1 # 2))%Q else Qceiling (q - (1 # 2))%Q.

Definition truncate (q : Q) : Z :=
  if Qle_bool 0 q then Qfloor q else Qceiling q.

Fixpoint offset (t : Transformation) : Z * Z :=
  match t with
  | T_pixelToProj _ => (1000, 2000)
  | T_fromLatLon _ => (0, 0)
  | T_from _ _ => (0, 0)
  | T_inverse t' => (- (offset t').1, - (offset t').2)
  end.

Definition shift (c : TransformationChain) (r : Rect) : Rect :=
  fold_left (fun r t => mkRect (r_x r + (offset t).1) (r_y r + (offset t).2)
                               (r_width r) (r_height r)) c r.

#[export] Instance external : External := {|
  Float := Q;
  i2f := inject_Z;
  fdiv := Qdiv;
  fmul := Qmult;
  roundf := fun q => inject_Z (roundHalfAway q);
  f2i := truncate;
  Rect2d := Rect;
  Rect2d_ofRect := fun r => r;
  transformToInt := shift;
  transformRect := shift;
  Geometry := Rect;
  transformGeometry := shift;
  rectPolygon := fun r => r;
  Pt := Z * Z;
  geometryContains := Rect_contains;
|}.

Definition anchoredImage : GdalImage :=
  {| img_size := mkSize 100 100;
     img_pixelToProj := T_pixelToProj "anchored.tif";
     img_sr := SR_Crs "EPSG:32633";
     img_haveAlpha := false |}.

Definition localImage : GdalImage :=
  {| img_size := mkSize 100 100;
     img_pixelToProj := T_pixelToProj "local.tif";
     img_sr := SR_Local;
     img_haveAlpha := true |}.

(** a polygon layer covering the pixels [30..49] x [30..49] of an image *)
Definition polygonLayer (sr : SpatialReference) : Layer :=
  {| l_sr := sr;
     l_features := [ {| f_type := POLYGON;
                        f_geometry := mkRect 1030 2030 20 20 |} ] |}.

Definition pointLayer : Layer :=
  {| l_sr := WGS84;
     l_features := [ {| f_type := POINT; f_geometry := mkRect 1005 2005 0 0 |} ] |}.

Definition client : MapServiceClient :=
  {| ms_sr := SR_Crs "EPSG:3857";
     ms_imageFromArea := fun _ => anchoredImage;
     ms_haveAlpha := false |}.

#[export] Instance world : World := {|
  openImage := fun path =>
    if bool_decide (path = "local.tif") then localImage else anchoredImage;
  openFeatureSet := fun path =>
    if bool_decide (path = "local.shp") then [polygonLayer SR_Local]
    else if bool_decide (path = "points.shp") then [pointLayer]
    else if bool_decide (path = "big.shp") then
      [ {| l_sr := WGS84;
           l_features := [ {| f_type := POLYGON;
                              f_geometry := mkRect 1000 2000 60 60 |} ] |} ]
    else [polygonLayer (SR_Crs "EPSG:4326")];
  connectClient := fun _ _ _ _ _ _ => client;
|}.

Definition boxModel : ModelPackage :=
  {| mp_metadata := {| md_name := "boxes"; md_category := "detection";
                       md_modelSize := mkSize 50 75 |};
     mp_isSegmentation := false;
     mp_defaultStep := fun sz => mkPoint (sz_width sz) (sz_height sz) |}.

Definition polyModel : ModelPackage :=
  {| mp_metadata := {| md_name := "outlines"; md_category := "segmentation";
                       md_modelSize := mkSize 64 64 |};
     mp_isSegmentation := true;
     mp_defaultStep := fun sz => mkPoint (sz_width sz) (sz_height sz) |}.

(** the arguments of a run, the ones the examples vary first *)
Definition args (source : Source) (image : string) (bbox : option Rect)
    (model : ModelPackage) (windowSize windowStep : list Z) (nms : bool)
    (excludeLabels includeLabels : list string)
    (filterDefinition : list (string * list string)) : Args :=
  {| a_source := source; a_image := image; a_bbox := bbox;
     a_mapId := "map"; a_token := "token"; a_credentials := "user:password";
     a_url := ""; a_useTiles := false; a_zoom := 18; a_maxConnections := 4;
     a_maxCacheSize := 1024; a_modelPackage := model; a_useCpu := false;
     a_maxUtilization := 95%Q; a_confidence := 95%Q;
     a_windowSize := windowSize; a_windowStep := windowStep;
     a_resampledSize := None; a_nms := nms; a_overlap := 30%Q;
     a_excludeLabels := excludeLabels; a_includeLabels := includeLabels;
     a_filterDefinition := filterDefinition;
     a_dgcsCatalogID := None; a_evwhsCatalogID := None;
     a_wfsCredentials := ""; a_producerInfo := false; a_extraFields := [];
     a_geometryType := POLYGON; a_outputPath := "out.shp";
     a_layerName := "out"; a_outputFormat := "shp"; a_append := false;
     a_quiet := false |}.

(** a segmentation run with NMS and no label list *)
Definition segmentationArgs : Args :=
  args LOCAL "anchored.tif" None polyModel [] [] true [] [] [].

(** a detection run without NMS, with label lists, window lists, a region
    filter and a bounding box that reaches beyond the image *)
Definition detectionArgs : Args :=
  args LOCAL "anchored.tif" (Some (mkRect 1090 2090 30 30)) boxModel
       [20; 30] [10; 15] false ["car"] ["boat"] [("exclude", ["a.shp"])].

(** a bounding box inside the image, and a region filter that excludes *)
Definition clippedArgs : Args :=
  args LOCAL "anchored.tif" (Some (mkRect 1020 2020 40 40)) boxModel
       [] [] false [] [] [("exclude", ["a.shp"])].

(** a bounding box at the origin of the image, smaller than the image,
    and a region filter that excludes *)
Definition originArgs : Args :=
  args LOCAL "anchored.tif" (Some (mkRect 1000 2000 40 40)) boxModel
       [] [] false [] [] [("exclude", ["a.shp"])].

(** a bounding box beside the image *)
Definition outsideArgs : Args :=
  args LOCAL "anchored.tif" (Some (mkRect 1200 2200 10 10)) boxModel
       [] [] false [] [] [].

(** an image without coordinate reference system, and a bounding box *)
Definition localArgs : Args :=
  args LOCAL "local.tif" (Some (mkRect 0 0 10 10)) boxModel
       [] [] false [] [] [].

(** a map service and no bounding box *)
Definition remoteArgs : Args :=
  args DGCS "" None boxModel [] [] false [] [] [].


(** an included region and an excluded one *)
Definition includeExcludeArgs : Args :=
  args LOCAL "anchored.tif" None boxModel [] [] false [] []
       [("include", ["big.shp"]); ("exclude", ["a.shp"])].

(** the arguments [a] with a resample size, a DGCS catalog id, a token,
    WFS credentials, producer information and extra fields *)
Definition withOptions (a : Args) (resampledSize : option Z)
    (dgcsCatalogID : option string) (token wfsCredentials : string)
    (producerInfo : bool) (extraFields : list string) : Args :=
  {| a_source := a_source a; a_image := a_image a; a_bbox := a_bbox a;
     a_mapId := a_mapId a; a_token := token;
     a_credentials := a_credentials a; a_url := a_url a;
     a_useTiles := a_useTiles a; a_zoom := a_zoom a;
     a_maxConnections := a_maxConnections a;
     a_maxCacheSize := a_maxCacheSize a; a_modelPackage := a_modelPackage a;
     a_useCpu := a_useCpu a; a_maxUtilization := a_maxUtilization a;
     a_confidence := a_confidence a; a_windowSize := a_windowSize a;
     a_windowStep := a_windowStep a; a_resampledSize := resampledSize;
     a_nms := a_nms a; a_overlap := a_overlap a;
     a_excludeLabels := a_excludeLabels a;
     a_includeLabels := a_includeLabels a;
     a_filterDefinition := a_filterDefinition a;
     a_dgcsCatalogID := dgcsCatalogID;
     a_evwhsCatalogID := a_evwhsCatalogID a;
     a_wfsCredentials := wfsCredentials;
     a_producerInfo := producerInfo; a_extraFields := extraFields;
     a_geometryType := a_geometryType a; a_outputPath := a_outputPath a;
     a_layerName := a_layerName a; a_outputFormat := a_outputFormat a;
     a_append := a_append a; a_quiet := a_quiet a |}.

(** several window sizes and no window step *)
Definition broadcastArgs : Args :=
  args LOCAL "anchored.tif" None boxModel [20; 30] [] false [] [] [].

(** a map service and a bounding box *)
Definition serviceArgs : Args :=
  args DGCS "" (Some (mkRect 1010 2010 30 30)) boxModel [] [] true [] [] [].

(** an image with an alpha band, NMS, a resample size, a catalog id,
    producer information and extra fields, one named as the date and one
    named twice *)
Definition catalogArgs : Args :=
  withOptions (args LOCAL "local.tif" None boxModel [] [] true [] [] [])
              (Some 40) (Some "1030010012345600") "token" "" true
              ["date"; "today"; "note"; "first"; "note"; "second"].

(** a resample size above the model's width *)
Definition wideArgs : Args :=
  withOptions segmentationArgs (Some 80) None "token" "" false [].

(** a catalog id and no token *)
Definition tokenlessArgs : Args :=
  withOptions segmentationArgs None (Some "1030010012345600") "" "" false [].

(** a catalog id, a token and WFS credentials without ':' *)
Definition colonlessArgs : Args :=
  withOptions segmentationArgs None (Some "1030010012345600") "token"
              "userpassword" false [].


(** an action that is neither "include" nor "exclude" *)
Definition unknownActionArgs : Args :=
  args LOCAL "anchored.tif" None boxModel [] [] false [] []
       [("mask", ["a.shp"])].

(** no source *)
Definition noSourceArgs : Args :=
  args UNKNOWN "" None boxModel [] [] false [] [] [].

(** the error a computation ends with, if any *)
Definition error_of {A} (o : Outcome A) : option Error :=
  match o with Ok _ _ => None | Throw e _ => Some e end.

(** the value a computation returns, if any *)
Definition value_of {A} (o : Outcome A) : option A :=
  match o with Ok a _ => Some a | Throw _ _ => None end.

Definition state_of {A} (o : Outcome A) : OSN :=
  match o with Ok _ s => s | Throw _ s => s end.

(** the object once the image and the detector are initialised *)
Definition afterInit (a : Args) : OSN :=
  state_of (bind openBlockSource (fun _ => initDetector) (OpenSpaceNet_new a)).

End Concrete.

(** ** Reasoning about the monad *)

Section Logic.
Context `{External}.

(** what holds of the result whenever the computation returns *)
Definition returns {A} (m : M A) (s : OSN) (Q : A -> OSN -> Prop) : Prop :=
  match m s with
  | Ok a s' => Q a s'
  | Throw _ _ => True
  end.

Definition isOk {A} (o : Outcome A) : bool :=
  match o with Ok _ _ => true | Throw _ _ => false end.

(** what holds of the state however the computation ends *)
Definition ends {A} (m : M A) (s : OSN) (Q : OSN -> Prop) : Prop :=
  match m s with
  | Ok _ s' => Q s'
  | Throw _ s' => Q s'
  end.

(** the fields a step of [process] may only read once the image and the
    model are known: everything but the log *)
Definition same_but_log (s s' : OSN) : Prop :=
  args_ s' = args_ s /\ imageSize_ s' = imageSize_ s /\ bbox_ s' = bbox_ s /\
  pixelToProj_ s' = pixelToProj_ s /\ imageSr_ s' = imageSr_ s /\
  sr_ s' = sr_ s /\ pixelToLL_ s' = pixelToLL_ s /\
  haveAlpha_ s' = haveAlpha_ s /\ metadata_ s' = metadata_ s /\
  modelAspectRatio_ s' = modelAspectRatio_ s /\
  primaryWindowSize_ s' = primaryWindowSize_ s /\
  primaryWindowStep_ s' = primaryWindowStep_ s.

(** only the arguments are known to be kept *)
Definition same_args (s s' : OSN) : Prop := args_ s' = args_ s.

(** [m] relates the state it ends in to the state it starts from by [R],
    whether it returns or throws *)
Definition preserves {A} (R : OSN -> OSN -> Prop) (m : M A) : Prop :=
  forall s, ends m s (R s).

(** [Q] holds of whatever value [m] returns *)
Definition yields {A} (Q : A -> Prop) (m : M A) : Prop :=
  forall s, returns m s (fun a _ => Q a).

(** a node of a given name and kind *)
Definition is_node (name : string) (k : NodeKind) (n : Node) : Prop :=
  n_name n = name /\ n_kind n = k.

(** the object with another list of labels to include *)
Definition Args_with_includeLabels (l : list string) (a : Args) : Args :=
  {| a_source := a_source a; a_image := a_image a; a_bbox := a_bbox a;
     a_mapId := a_mapId a; a_token := a_token a;
     a_credentials := a_credentials a; a_url := a_url a;
     a_useTiles := a_useTiles a; a_zoom := a_zoom a;
     a_maxConnections := a_maxConnections a;
     a_maxCacheSize := a_maxCacheSize a; a_modelPackage := a_modelPackage a;
     a_useCpu := a_useCpu a; a_maxUtilization := a_maxUtilization a;
     a_confidence := a_confidence a; a_windowSize := a_windowSize a;
     a_windowStep := a_windowStep a; a_resampledSize := a_resampledSize a;
     a_nms := a_nms a; a_overlap := a_overlap a;
     a_excludeLabels := a_excludeLabels a; a_includeLabels := l;
     a_filterDefinition := a_filterDefinition a;
     a_dgcsCatalogID := a_dgcsCatalogID a;
     a_evwhsCatalogID := a_evwhsCatalogID a;
     a_wfsCredentials := a_wfsCredentials a;
     a_producerInfo := a_producerInfo a; a_extraFields := a_extraFields a;
     a_geometryType := a_geometryType a; a_outputPath := a_outputPath a;
     a_layerName := a_layerName a; a_outputFormat := a_outputFormat a;
     a_append := a_append a; a_quiet := a_quiet a |}.

Definition with_includeLabels (l : list string) (s : OSN) : OSN :=
  mkOSN _ (Args_with_includeLabels l (args_ s)) (imageSize_ s) (bbox_ s)
        (pixelToProj_ s) (imageSr_ s) (sr_ s) (pixelToLL_ s) (haveAlpha_ s)
        (metadata_ s) (modelAspectRatio_ s) (primaryWindowSize_ s)
        (primaryWindowStep_ s) (log_ s).

Definition Outcome_map {A} (f : OSN -> OSN) (o : Outcome A) : Outcome A :=
  match o with
  | Ok a s => Ok a (f s)
  | Throw e s => Throw e (f s)
  end.

(** [m] does the same whatever the list of labels to include *)
Definition ignores_includeLabels {A} (m : M A) : Prop :=
  forall l s, m (with_includeLabels l s) = Outcome_map (with_includeLabels l) (m s).

(** [m] on an object and [m'] on the object with the list [l] end alike,
    with values related by [Q], when the list of labels to exclude is not
    empty *)
Definition alike (l : list string) {A} (Q : A -> A -> Prop) (m m' : M A) : Prop :=
  forall s, a_excludeLabels (args_ s) <> [] ->
    match m s, m' (with_includeLabels l s) with
    | Ok a s1, Ok a' s1' =>
        Q a a' /\ s1' = with_includeLabels l s1 /\ a_excludeLabels (args_ s1) <> []
    | Throw e _, Throw e' _ => e' = e
    | _, _ => False
    end.

(** nothing changes at all *)
Definition unchanged (s s' : OSN) : Prop := s' = s.

(** the relations that steps may be chained along *)
Class StateRel (R : OSN -> OSN -> Prop) := {
  rel_refl : forall s, R s s;
  rel_trans : forall s1 s2 s3, R s1 s2 -> R s2 s3 -> R s1 s3;
}.

(** the relations that hold whatever is written to the log *)
Class LogRel (R : OSN -> OSN -> Prop) := {
  rel_log : forall s l,
    R s (mkOSN _ (args_ s) (imageSize_ s) (bbox_ s) (pixelToProj_ s)
               (imageSr_ s) (sr_ s) (pixelToLL_ s) (haveAlpha_ s) (metadata_ s)
               (modelAspectRatio_ s) (primaryWindowSize_ s)
               (primaryWindowStep_ s) l);
}.

End Logic.

(** ** Notions that the further properties are stated with *)

Section Notions.
Context `{World}.

(** [m] reads of the object only the output spatial reference and the
    pixel-to-geographic chain, and leaves the object as it is *)
Definition reads_only_frame {A} (m : M A) : Prop :=
  forall s s1, sr_ s1 = sr_ s -> pixelToLL_ s1 = pixelToLL_ s ->
    m s1 = match m s with
           | Ok r _ => Ok r s1
           | Throw e _ => Throw e s1
           end.

(** the object after [emit e] *)
Definition logged (e : Event) (s : OSN) : OSN :=
  match emit e s with Ok _ s' => s' | Throw _ s' => s' end.

(** a layer the builder accepts: of the image's anchoring, and of polygons
    only *)
Definition layer_fits (s : OSN) (layer : Layer) : Prop :=
  isLocal (l_sr layer) = isLocal (sr_ s) /\
  Forall (fun f => f_type f = POLYGON) (l_features layer).

(** an entry of the filter definition the builder accepts *)
Definition entry_fits (s : OSN) (entry : string * list string) : Prop :=
  (entry.1 = "include" \/ entry.1 = "exclude") /\
  Forall (fun file => Forall (layer_fits s) (openFeatureSet file)) entry.2.

(** the errors that reading the files of an entry can end with *)
Definition file_error (files : list string) (e : Error) : Prop :=
  exists file, file ∈ files /\ (CrsMismatch file e \/ e = FilterNotPolygon file).

(** the operation an entry stands for, once its files are read *)
Definition entry_op (s : OSN) (entry : string * list string)
    (op : RegionOp) : Prop :=
  exists polys,
    foldM addFile entry.2 [] s = Ok polys s /\
    ((entry.1 = "include" /\ op = Add polys) \/
     (entry.1 = "exclude" /\ op = Subtract polys)).

(** the names [process] gives its nodes, from the source to the sink *)
Definition stageOrder : list string :=
  ["blockSource"; "removeAlpha"; "blockCache"; "border"; "regionFilter";
   "slidingWindow"; "detector"; "labelFilter"; "nms"; "predictionToPoly";
   "predToFeature"; "fieldExtractor"; "featureSink"].

(** the output port of a node, by its name *)
Definition outputPort (name : string) : string :=
  if bool_decide (name ∈ ["blockSource"; "removeAlpha"]) then "blocks"
  else if bool_decide (name ∈ ["blockCache"; "border"; "regionFilter";
                               "slidingWindow"]) then "subsets"
  else if bool_decide (name ∈ ["detector"; "labelFilter"; "nms";
                               "predictionToPoly"]) then "predictions"
  else "features".

(** the stages that a graph has, in the order of [stageOrder] *)
Definition stages (g : Graph) : list string :=
  filter (fun name => is_Some (g_nodes g !! name)) stageOrder.

(** each stage of a list fed by the one before it, through the port of
    that one *)
Fixpoint chainEdges (l : list string)
  : list ((string * string) * (string * string)) :=
  match l with
  | a :: (b :: _) as rest =>
      ((b, outputPort a), (a, outputPort a)) :: chainEdges rest
  | _ => []
  end.

(** the value of an attribute of the node of a given name *)
Definition attr_of (g : Graph) (name key : string) : option AttrValue :=
  g_nodes g !! name ≫= fun n => n_attrs n !! key.

(** the fields that [initPredictionToFeature] adds before the user's *)
Definition builtinFields (producerInfo : bool) : list (string * FieldValue) :=
  ("date", FDateNow) ::
  (if producerInfo
   then [("username", FLoginUser); ("app", FString "OpenSpaceNet");
         ("app_ver", FVersion)]
   else []).

(** the pairs of [extraFields] as string fields *)
Definition userFields (extraFields : list string) : list (string * FieldValue) :=
  (fun kv => (kv.1, FString kv.2)) <$> extraFieldPairs extraFields.

(** the progress updates that a metric callback sends to a running
    display *)
Definition updatesOf (e : MonitorEvent) : list ProgressUpdate :=
  match e with
  | MetricTotal v => [UpdateMaximum "Reading" v; UpdateMaximum "Detecting" v]
  | MetricForwarded v => [UpdateCurrent "Reading" v]
  | MetricProcessed v => [UpdateCurrent "Detecting" v]
  | DisplayStop => []
  end.

(** [OpenSpaceNet::setProgressDisplay]: the categories the display is
    given, each with its description *)
Definition setProgressDisplay : list (string * string) :=
  [("Reading", "Reading the image");
   ("Detecting", "Detecting the object(s)")].

(** the category a progress update is for *)
Definition updateCategory (u : ProgressUpdate) : string :=
  match u with
  | UpdateMaximum category _ => category
  | UpdateCurrent category _ => category
  end.

(** a file named by some entry of the filter definition *)
Definition in_definition (a : Args) (file : string) : Prop :=
  exists action files, (action, files) ∈ a_filterDefinition a /\ file ∈ files.

(** what makes reading a layer of a filter file end with an error *)
Definition layer_cause (file : string) (layer : Layer) (e : Error) : Prop :=
  (e = FilterLacksSpatialReference file /\ isLocal (l_sr layer) = false) \/
  (e = ImageLacksSpatialReference file /\ isLocal (l_sr layer) = true) \/
  (e = FilterNotPolygon file /\
   exists feature, feature ∈ l_features layer /\ f_type feature <> POLYGON).

(** what in the arguments, the image and the filter files an error of
    [process] tells of *)
Definition cause (a : Args) (e : Error) : Prop :=
  let model := a_modelPackage a in
  let width := sz_width (md_modelSize (mp_metadata model)) in
  let image := openImage (a_image a) in
  let catalog := is_Some (a_dgcsCatalogID a) \/ is_Some (a_evwhsCatalogID a) in
  match e with
  | InputSourceNotSpecified => a_source a = UNKNOWN
  | BoundingBoxMustBeSpecified =>
      Source_gt (a_source a) LOCAL = true /\ a_bbox a = None
  | NoIntersection =>
      a_source a = LOCAL /\ isLocal (img_sr image) = false /\
      exists argsBbox,
        a_bbox a = Some argsBbox /\
        let bbox := transformToInt [T_fromLatLon (img_sr image);
                                    T_inverse (img_pixelToProj image)] argsBbox in
        let intersect := Rect_and (Rect_ofSize (img_size image)) bbox in
        r_width intersect = 0 \/ r_height intersect = 0
  | ResampleSizeTooLarge => exists r, a_resampledSize a = Some r /\ width < r
  | WindowSizeTooLarge =>
      a_resampledSize a = None /\ Exists (fun c => width < c) (a_windowSize a)
  | UnsupportedModelType =>
      md_category (mp_metadata model) = "segmentation" /\
      mp_isSegmentation model = false
  | WindowStepCountMismatch =>
      (1 < length (a_windowSize a))%nat /\ (1 < length (a_windowStep a))%nat /\
      length (a_windowSize a) <> length (a_windowStep a)
  | UnknownFilterAction action =>
      action <> "include" /\ action <> "exclude" /\
      exists files, (action, files) ∈ a_filterDefinition a
  | FilterLacksSpatialReference file =>
      in_definition a file /\
      exists layer, layer ∈ openFeatureSet file /\ isLocal (l_sr layer) = false
  | ImageLacksSpatialReference file =>
      in_definition a file /\
      exists layer, layer ∈ openFeatureSet file /\ isLocal (l_sr layer) = true
  | FilterNotPolygon file =>
      in_definition a file /\
      exists layer feature,
        layer ∈ openFeatureSet file /\ feature ∈ l_features layer /\
        f_type feature <> POLYGON
  | NoWfsCredentials =>
      catalog /\ a_wfsCredentials a = "" /\ a_credentials a = ""
  | NoWfsToken => catalog /\ a_token a = ""
  | SplitCredsOutOfRange =>
      catalog /\ a_token a <> "" /\
      (length (boost_split ":"%char
                 (if bool_decide (a_wfsCredentials a = "")
                  then a_credentials a else a_wfsCredentials a)) < 2)%nat
  | NullMetadata => False
  end.

End Notions.

Ltac monad_unfold :=
  unfold bind, ret, get, modify, throw, DG_CHECK, emit in *.

(** * Theorems *)

Section WindowPlanner.
Context `{World}.

Lemma calcWindows_throw (s : OSN) :
  (1 < length (a_windowSize (args_ s)))%nat ->
  (1 < length (a_windowStep (args_ s)))%nat ->
  length (a_windowSize (args_ s)) <> length (a_windowStep (args_ s)) ->
  calcWindows s = Throw WindowStepCountMismatch s.
Proof.
  intros Hw Hs Hne. unfold calcWindows. monad_unfold.
  destruct (length (a_windowSize (args_ s)) <? 2)%nat eqn:E1.
  { apply Nat.ltb_lt in E1. lia. }
  destruct (length (a_windowStep (args_ s)) <? 2)%nat eqn:E2.
  { apply Nat.ltb_lt in E2. lia. }
  destruct (length (a_windowSize (args_ s)) =? length (a_windowStep (args_ s)))%nat eqn:E3.
  { apply Nat.eqb_eq in E3. lia. }
  reflexivity.
Qed.

Lemma calcWindows_ok (s : OSN) :
  ~ ((1 < length (a_windowSize (args_ s)))%nat /\
     (1 < length (a_windowStep (args_ s)))%nat /\
     length (a_windowSize (args_ s)) <> length (a_windowStep (args_ s))) ->
  exists plan, calcWindows s = Ok plan s.
Proof.
  intros Hno. unfold calcWindows. monad_unfold.
  destruct ((length (a_windowSize (args_ s)) <? 2)%nat
            || (length (a_windowStep (args_ s)) <? 2)%nat
            || (length (a_windowSize (args_ s)) =? length (a_windowStep (args_ s)))%nat)
    eqn:E.
  - cbn.
    repeat match goal with
           | |- context [if ?c then _ else _] => destruct c
           end; eauto.
  - exfalso. apply Hno.
    apply orb_false_iff in E as [E E3]. apply orb_false_iff in E as [E1 E2].
    apply Nat.ltb_ge in E1, E2. apply Nat.eqb_neq in E3. lia.
Qed.

(** C6.  The window planner fails with the count-mismatch error exactly when
    the window-size list and the window-step list both have more than one
    entry and their lengths differ; in every other case it returns a plan. *)
Theorem calcWindows_mismatch_iff (s : OSN) :
  let mismatch :=
    (1 < length (a_windowSize (args_ s)))%nat /\
    (1 < length (a_windowStep (args_ s)))%nat /\
    length (a_windowSize (args_ s)) <> length (a_windowStep (args_ s)) in
  (mismatch -> calcWindows s = Throw WindowStepCountMismatch s) /\
  (~ mismatch -> exists plan, calcWindows s = Ok plan s) /\
  ((exists s', calcWindows s = Throw WindowStepCountMismatch s') <-> mismatch).
Proof.
  cbv zeta. split; [|split].
  - intros (Hw & Hs & Hne). by apply calcWindows_throw.
  - apply calcWindows_ok.
  - split.
    + intros [s' Hthrow].
      destruct (decide ((1 < length (a_windowSize (args_ s)))%nat /\
                        (1 < length (a_windowStep (args_ s)))%nat /\
                        length (a_windowSize (args_ s))
                        <> length (a_windowStep (args_ s)))) as [Hm | Hm]; [done |].
      apply calcWindows_ok in Hm as [plan Hok]. congruence.
    + intros (Hw & Hs & Hne). exists s. by apply calcWindows_throw.
Qed.

End WindowPlanner.

Section Detector.
Context `{World}.

Lemma forM_DG_CHECK {A} (cond : A -> bool) (e : Error) (l : list A) (s : OSN) :
  forM_ l (fun c => DG_CHECK (cond c) e) s =
  if forallb cond l then Ok tt s else Throw e s.
Proof.
  induction l as [|c l IH]; [done |].
  cbn [forM_ forallb]. unfold bind at 1. unfold DG_CHECK at 1.
  destruct (cond c); cbn; [apply IH | done].
Qed.

Lemma forM_DG_CHECK_state {A} (cond : A -> bool) (e : Error) (l : list A)
    (s s' : OSN) :
  forM_ l (fun c => DG_CHECK (cond c) e) s = Ok tt s' -> s' = s.
Proof. rewrite forM_DG_CHECK. destruct (forallb cond l); congruence. Qed.

Lemma initDetector_inv (s0 s : OSN) (det : Node) :
  initDetector s0 = Ok det s ->
  let model := a_modelPackage (args_ s0) in
  args_ s = args_ s0 /\
  metadata_ s = Some (mp_metadata model) /\
  modelAspectRatio_ s = aspectRatio model /\
  n_name det = "detector" /\
  n_kind det = (if bool_decide (md_category (mp_metadata model) = "segmentation")
                then PolyDetector else BoxDetector) /\
  haveAlpha_ s = haveAlpha_ s0 /\ bbox_ s = bbox_ s0 /\ sr_ s = sr_ s0 /\
  pixelToLL_ s = pixelToLL_ s0 /\ log_ s = log_ s0.
Proof.
  unfold initDetector.
  unfold bind, get, modify, ret, throw, DG_CHECK at 1 3. cbn.
  destruct (match a_resampledSize (args_ s0) with
            | Some r => r <=? sz_width (md_modelSize (mp_metadata (a_modelPackage (args_ s0))))
            | None => true
            end); [| done].
  cbn.
  set (s1 := set_primaryWindowStep _ _).
  assert (Hloop : forall (m : M unit) (k : unit -> M Node),
             (forall s', m s1 = Ok tt s' -> s' = s1) ->
             match m s1 with Ok a s' => k a s' | Throw e s' => Throw e s' end
             = Ok det s ->
             k tt s1 = Ok det s).
  { intros m k Hm Hk. destruct (m s1) as [[] s'|] eqn:E; [| done].
    by rewrite (Hm s' eq_refl) in Hk. }
  intros Hrun. apply Hloop in Hrun; clear Hloop.
  2:{ intros s'. destruct (a_resampledSize (args_ s0)); cbn; [congruence |].
      apply forM_DG_CHECK_state. }
  revert Hrun.
  destruct (bool_decide (md_category (mp_metadata (a_modelPackage (args_ s0)))
                         = "segmentation")); cbn.
  - destruct (mp_isSegmentation (a_modelPackage (args_ s0))); cbn; [| done].
    intros [= <- <-]. by repeat split.
  - intros [= <- <-]. by repeat split.
Qed.

Lemma fmap_zip_pairs {A B C} (f : A -> B -> C) (l : list A) (k : list B) :
  (fun c : A * B => f c.1 c.2) <$> zip l k = zip_with f l k.
Proof.
  revert k. induction l as [|x l IH]; intros [|y k]; cbn; try done.
  f_equal. apply IH.
Qed.

(** C5.  After the detector is initialised, equal-length non-empty
    window-size and window-step lists are paired by position: the plan has
    one entry per index, the entry at index [i] is made of the [i]-th size
    and the [i]-th step, and the heights are [round(ratio * width)] and
    [round(ratio * step)], where [ratio] is the model's height over its
    width. *)
Theorem calcWindows_pairs (s0 s : OSN) (det : Node) :
  initDetector s0 = Ok det s ->
  length (a_windowSize (args_ s0)) = length (a_windowStep (args_ s0)) ->
  a_windowSize (args_ s0) <> [] ->
  let ratio := aspectRatio (a_modelPackage (args_ s0)) in
  exists plan,
    calcWindows s = Ok plan s /\
    length plan = length (a_windowSize (args_ s0)) /\
    plan = zip_with (fun width step =>
                       (mkSize width (roundMul ratio width),
                        mkPoint step (roundMul ratio step)))
                    (a_windowSize (args_ s0)) (a_windowStep (args_ s0)) /\
    forall i width step,
      a_windowSize (args_ s0) !! i = Some width ->
      a_windowStep (args_ s0) !! i = Some step ->
      plan !! i = Some (mkSize width (roundMul ratio width),
                        mkPoint step (roundMul ratio step)).
Proof.
  intros Hinit Hlen Hne ratio.
  apply initDetector_inv in Hinit as (Hargs & _ & Hratio & _).
  unfold calcWindows. monad_unfold. rewrite Hargs, Hratio. fold ratio.
  destruct (length (a_windowSize (args_ s0)) =? length (a_windowStep (args_ s0)))%nat
    eqn:Eeq; [| apply Nat.eqb_neq in Eeq; done].
  rewrite !orb_true_r. cbn.
  destruct (length (a_windowStep (args_ s0)) =? 0)%nat eqn:E0.
  { apply Nat.eqb_eq in E0. destruct (a_windowSize (args_ s0)); [done |].
    cbn in Hlen. lia. }
  cbn.
  set (f := fun width step : Z => (mkSize width (roundMul ratio width),
                                    mkPoint step (roundMul ratio step))).
  exists (zip_with f (a_windowSize (args_ s0)) (a_windowStep (args_ s0))).
  split; [| split; [| split]].
  - f_equal. apply (fmap_zip_pairs f).
  - rewrite length_zip_with. lia.
  - done.
  - intros i width step Hw Hs. by rewrite lookup_zip_with, Hw, Hs.
Qed.

End Detector.

(** [Rect_and] is the intersection: a pixel is in it exactly when it is in
    both rectangles. *)
Lemma Rect_and_contains (a b : Rect) (p : Z * Z) :
  Rect_contains (Rect_and a b) p = Rect_contains a p && Rect_contains b p.
Proof.
  unfold Rect_and, Rect_contains. destruct p as [x y]. cbn.
  destruct (Z.min (r_x a + r_width a) (r_x b + r_width b)
            - Z.max (r_x a) (r_x b) <=? 0) eqn:Ew;
    destruct (Z.min (r_y a + r_height a) (r_y b + r_height b)
              - Z.max (r_y a) (r_y b) <=? 0) eqn:Eh; cbn;
    apply eq_true_iff_eq;
    rewrite ?andb_true_iff, ?Z.leb_le, ?Z.ltb_lt;
    rewrite ?Z.leb_le, ?Z.leb_gt in Ew, Eh; lia.
Qed.

Section ImageTheorems.
Context `{World}.

(** C3.  For a local image with a coordinate reference system, the
    user's box is transformed to integer pixels and intersected with the
    rectangle of the whole image.  An intersection of zero width or zero
    height ends the run with the no-intersection error; otherwise the run
    goes on with the intersection as its bounding box, and when the
    intersection is not the transformed box, the intersection taken back
    through the inverse chain is logged, and nothing else. *)
Theorem initLocalImage_bbox (s : OSN) (argsBbox : Rect2d) :
  let image := openImage (a_image (args_ s)) in
  let llToPixel :=
    [T_fromLatLon (img_sr image); T_inverse (img_pixelToProj image)] in
  let bbox := transformToInt llToPixel argsBbox in
  let intersect := Rect_and (Rect_ofSize (img_size image)) bbox in
  isLocal (img_sr image) = false ->
  a_bbox (args_ s) = Some argsBbox ->
  if (r_width intersect =? 0) || (r_height intersect =? 0) then
    exists s', initLocalImage s = Throw NoIntersection s' /\ log_ s' = log_ s
  else
    exists node s',
      initLocalImage s = Ok node s' /\
      bbox_ s' = intersect /\
      sr_ s' = WGS84 /\
      pixelToLL_ s' = chain_inverse llToPixel /\
      log_ s' = log_ s ++
                if Rect_eqb bbox intersect then []
                else [LogBboxAdjusted
                        (transformRect (chain_inverse llToPixel)
                                       (Rect2d_ofRect intersect))].
Proof.
  intros image llToPixel bbox intersect Hsr Hbbox.
  unfold initLocalImage. monad_unfold. cbn.
  fold image. rewrite Hsr, Hbbox. cbn. fold llToPixel bbox intersect.
  destruct (r_width intersect =? 0); cbn; [eauto |].
  destruct (r_height intersect =? 0); cbn; [eauto |].
  destruct (Rect_eqb bbox intersect); cbn.
  - do 2 eexists. split; [reflexivity |]. cbn. by rewrite app_nil_r.
  - do 2 eexists. split; [reflexivity |]. done.
Qed.

(** C4.  For a local image whose spatial reference is [LOCAL] the
    initialiser always returns: the output spatial reference is left as it
    was, the bounding box is the rectangle of the whole image, and a
    bounding box given by the user only adds two warnings to the log. *)
Theorem initLocalImage_local (s : OSN) :
  let image := openImage (a_image (args_ s)) in
  isLocal (img_sr image) = true ->
  exists node s',
    initLocalImage s = Ok node s' /\
    sr_ s' = sr_ s /\
    bbox_ s' = Rect_ofSize (img_size image) /\
    log_ s' =
      log_ s ++
      LogWarning "Image has geometric metadata which cannot be converted to WGS84.  Output will be in native space, and some output formats will fail."
      :: match a_bbox (args_ s) with
         | Some _ =>
             [LogWarning "Supplying the --bbox option implicitly requests a conversion from WGS84 to pixel space however there is no conversion from WGS84 to pixel space.";
              LogWarning "Ignoring user-supplied bounding box"]
         | None => []
         end.
Proof.
  intros image Hsr.
  unfold initLocalImage. monad_unfold. cbn.
  fold image. rewrite Hsr. cbn.
  destruct (a_bbox (args_ s)) as [argsBbox|]; cbn.
  - do 2 eexists. split; [reflexivity |]. cbn.
    repeat split. by rewrite <- !app_assoc.
  - do 2 eexists. split; [reflexivity |]. done.
Qed.

Lemma initLocalImage_no_bbox (s : OSN) :
  a_bbox (args_ s) = None ->
  exists node s', initLocalImage s = Ok node s'.
Proof.
  intros Hbbox. unfold initLocalImage. monad_unfold. cbn. rewrite Hbbox.
  destruct (isLocal (img_sr (openImage (a_image (args_ s))))); cbn; eauto.
Qed.

(** C9.  Without a bounding box, a run on a map service (MapsAPI, EVWHS,
    TileJSON or DGCS) ends with the error "Bounding box must be specified";
    by then the log holds one more line, the opening message, so no client
    has been created or connected.  A run on a local image opens its block
    source without a bounding box. *)
Theorem bbox_required_for_map_service (s : OSN) :
  a_bbox (args_ s) = None ->
  (a_source (args_ s) ∈ [MAPS_API; EVWHS; TILE_JSON; DGCS] ->
   exists s',
     process s = Throw BoundingBoxMustBeSpecified s' /\
     log_ s' = log_ s ++ [LogInfo "Opening map service image..."] /\
     forall src, (ClientConnect src ∈ log_ s' -> ClientConnect src ∈ log_ s) /\
                 (ClientCreated src ∈ log_ s' -> ClientCreated src ∈ log_ s)) /\
  (a_source (args_ s) = LOCAL ->
   exists node s', openBlockSource s = Ok node s').
Proof.
  intros Hbbox. split.
  - intros Hsrc.
    assert (Hgt : Source_gt (a_source (args_ s)) LOCAL = true).
    { set_unfold. destruct Hsrc as [-> | [-> | [-> | [-> | []]]]]; done. }
    unfold process, openBlockSource. unfold bind at 1 2. unfold get at 1.
    rewrite Hgt. unfold bind at 1. unfold emit at 1, modify at 1.
    unfold initMapServiceImage. unfold bind at 1, get at 1. cbn.
    rewrite Hbbox. unfold throw.
    eexists. split; [reflexivity |]. cbn. split; [done |].
    intros src. rewrite !elem_of_app, !list_elem_of_singleton.
    split; intros [? | ?]; done.
  - intros Hsrc. unfold openBlockSource. unfold bind at 1, get at 1.
    rewrite Hsrc. simpl (Source_gt _ _). simpl (Source_eqb _ _). cbv iota.
    unfold bind at 1. unfold emit at 1, modify at 1.
    apply initLocalImage_no_bbox. done.
Qed.

End ImageTheorems.

(** ** What the steps of [process] leave unchanged *)

Section Preservation.
Context `{World}.

#[global] Instance same_args_rel : StateRel same_args.
Proof. split; unfold same_args; intros; cbn; congruence. Qed.

#[global] Instance same_args_log : LogRel same_args.
Proof. split. by unfold same_args. Qed.

#[global] Instance same_but_log_rel : StateRel same_but_log.
Proof.
  split; unfold same_but_log.
  - done.
  - intros s1 s2 s3 H12 H23.
    destruct H12 as (?&?&?&?&?&?&?&?&?&?&?&?), H23 as (?&?&?&?&?&?&?&?&?&?&?&?).
    repeat split; congruence.
Qed.

#[global] Instance same_but_log_log : LogRel same_but_log.
Proof. split. intros s l. by unfold same_but_log. Qed.

#[global] Instance unchanged_rel : StateRel unchanged.
Proof. split; unfold unchanged; intros; congruence. Qed.

Section Rules.
Context (R : OSN -> OSN -> Prop) `{!StateRel R}.

Lemma pres_ret {A} (a : A) : preserves R (ret a).
Proof. intros s. unfold ends. cbn. apply rel_refl. Qed.

Lemma pres_throw {A} (e : Error) : preserves R (throw (A := A) e).
Proof. intros s. unfold ends. cbn. apply rel_refl. Qed.

Lemma pres_get : preserves R get.
Proof. intros s. unfold ends. cbn. apply rel_refl. Qed.

Lemma pres_emit `{!LogRel R} (e : Event) : preserves R (emit e).
Proof. intros s. unfold ends. cbn. apply rel_log. Qed.

Lemma pres_DG_CHECK (c : bool) (e : Error) : preserves R (DG_CHECK c e).
Proof. intros s. unfold ends, DG_CHECK. destruct c; cbn; apply rel_refl. Qed.

Lemma pres_modify (f : OSN -> OSN) :
  (forall s, R s (f s)) -> preserves R (modify f).
Proof. intros Hf s. unfold ends. cbn. apply Hf. Qed.

Lemma pres_bind {A B} (m : M A) (k : A -> M B) :
  preserves R m -> (forall a, preserves R (k a)) -> preserves R (bind m k).
Proof.
  intros Hm Hk s. specialize (Hm s). unfold ends, bind in *.
  destruct (m s) as [a s1 | e s1]; [| done].
  specialize (Hk a s1). unfold ends in Hk.
  destruct (k a s1); eapply rel_trans; eauto.
Qed.

Lemma pres_foldM {A B} (body : B -> A -> M B) (l : list A) (b : B) :
  (forall b x, preserves R (body b x)) -> preserves R (foldM body l b).
Proof.
  intros Hbody. revert b. induction l as [|x l IH]; intros b; cbn [foldM].
  - apply pres_ret.
  - apply pres_bind; [apply Hbody | intros b'; apply IH].
Qed.

Lemma pres_forM {A} (body : A -> M unit) (l : list A) :
  (forall x, preserves R (body x)) -> preserves R (forM_ l body).
Proof.
  intros Hbody. induction l as [|x l IH]; cbn [forM_].
  - apply pres_ret.
  - apply pres_bind; [apply Hbody | intros _; apply IH].
Qed.

End Rules.

End Preservation.

(** one rule of the above, by the head of the computation *)
Ltac pres_step :=
  lazymatch goal with
  | |- StateRel _ => exact _
  | |- LogRel _ => exact _
  | |- preserves _ (bind _ _) => apply pres_bind; [| | intros ?; cbv beta]
  | |- preserves _ (ret _) => apply pres_ret
  | |- preserves _ (throw _) => apply pres_throw
  | |- preserves _ get => apply pres_get
  | |- preserves _ (emit _) => apply pres_emit
  | |- preserves _ (DG_CHECK _ _) => apply pres_DG_CHECK
  | |- preserves _ (foldM _ _ _) => apply pres_foldM; [| intros ? ?; cbv beta]
  | |- preserves _ (forM_ _ _) => apply pres_forM; [| intros ?; cbv beta]
  | |- preserves _ (if ?c then _ else _) => destruct c
  | |- preserves _ (match ?x with _ => _ end) => destruct x
  | |- preserves _ (let _ := _ in _) => cbv zeta
  end.

Ltac pres := repeat pres_step.

Section Steps.
Context `{World}.

Lemma printModel_keeps : preserves same_but_log printModel.
Proof. unfold printModel. pres. Qed.

Lemma calcWindows_keeps : preserves same_but_log calcWindows.
Proof. unfold calcWindows. pres. Qed.

Lemma initSlidingWindow_keeps : preserves same_but_log initSlidingWindow.
Proof. unfold initSlidingWindow. pres. apply calcWindows_keeps. Qed.

Lemma layerTransform_keeps file layer :
  preserves same_but_log (layerTransform file layer).
Proof. unfold layerTransform. pres. Qed.

Lemma layerTransform_unchanged file layer :
  preserves unchanged (layerTransform file layer).
Proof. unfold layerTransform. pres. Qed.

Lemma addFile_unchanged polys file : preserves unchanged (addFile polys file).
Proof.
  unfold addFile, addLayer, addFeature. pres. apply layerTransform_unchanged.
Qed.

Lemma addFiles_unchanged files polys :
  preserves unchanged (foldM addFile files polys).
Proof. pres. apply addFile_unchanged. Qed.

Lemma addFeature_keeps file transform polys feature :
  preserves same_but_log (addFeature file transform polys feature).
Proof. unfold addFeature. pres. Qed.

Lemma addLayer_keeps file polys layer :
  preserves same_but_log (addLayer file polys layer).
Proof.
  unfold addLayer. pres; [apply layerTransform_keeps | apply addFeature_keeps].
Qed.

Lemma addFile_keeps polys file : preserves same_but_log (addFile polys file).
Proof. unfold addFile. pres. apply addLayer_keeps. Qed.

Lemma applyAction_keeps st filterAction :
  preserves same_but_log (applyAction st filterAction).
Proof. unfold applyAction. pres; apply addFile_keeps. Qed.

Lemma buildRegionFilter_keeps : preserves same_but_log buildRegionFilter.
Proof. unfold buildRegionFilter. pres. apply applyAction_keeps. Qed.

Lemma initSubsetRegionFilter_keeps :
  preserves same_but_log initSubsetRegionFilter.
Proof. unfold initSubsetRegionFilter. pres. apply buildRegionFilter_keeps. Qed.

Lemma initWfs_keeps : preserves same_but_log initWfs.
Proof. unfold initWfs. pres. Qed.

Lemma initLocalImage_args : preserves same_args initLocalImage.
Proof. unfold initLocalImage. pres; by apply pres_modify. Qed.

Lemma initMapServiceImage_args : preserves same_args initMapServiceImage.
Proof. unfold initMapServiceImage. pres; by apply pres_modify. Qed.

Lemma openBlockSource_args : preserves same_args openBlockSource.
Proof.
  unfold openBlockSource. pres;
    [apply initMapServiceImage_args | apply initLocalImage_args].
Qed.

End Steps.

(** ** The nodes the initialisers return *)

Section Yields.
Context `{World}.

Lemma yields_ret {A} (Q : A -> Prop) (a : A) : Q a -> yields Q (ret a).
Proof. intros Ha s. exact Ha. Qed.

Lemma yields_throw {A} (Q : A -> Prop) (e : Error) : yields Q (throw e).
Proof. intros s. exact I. Qed.

Lemma yields_bind {A B} (Q : B -> Prop) (m : M A) (k : A -> M B) :
  (forall a, yields Q (k a)) -> yields Q (bind m k).
Proof.
  intros Hk s. unfold returns, bind. destruct (m s) as [a s1 | e s1]; [| done].
  apply Hk.
Qed.

Lemma bind_Ok_inv {A B} (m : M A) (k : A -> M B) (s s' : OSN) (b : B) :
  bind m k s = Ok b s' -> exists a s1, m s = Ok a s1 /\ k a s1 = Ok b s'.
Proof. unfold bind. destruct (m s) as [a s1 | e s1]; [eauto | done]. Qed.

Lemma preserves_Ok {A} (R : OSN -> OSN -> Prop) (m : M A) (s s' : OSN) (a : A) :
  preserves R m -> m s = Ok a s' -> R s s'.
Proof. intros Hm Hrun. specialize (Hm s). unfold ends in Hm. by rewrite Hrun in Hm. Qed.

Lemma yields_Ok {A} (Q : A -> Prop) (m : M A) (s s' : OSN) (a : A) :
  yields Q m -> m s = Ok a s' -> Q a.
Proof. intros Hm Hrun. specialize (Hm s). unfold returns in Hm. by rewrite Hrun in Hm. Qed.

End Yields.

Ltac yields_step :=
  lazymatch goal with
  | |- yields _ (bind _ _) => apply yields_bind; intros ?; cbv beta
  | |- yields _ (ret _) => apply yields_ret
  | |- yields _ (throw _) => apply yields_throw
  | |- yields _ (if ?c then _ else _) => destruct c
  | |- yields _ (match ?x with _ => _ end) => destruct x
  | |- yields _ (let _ := _ in _) => cbv zeta
  end.

Section NodeShapes.
Context `{World}.

Lemma openBlockSource_node :
  yields (fun n => is_node "blockSource" GdalBlockSource n \/
                   is_node "blockSource" MapServiceBlockSource n)
         openBlockSource.
Proof.
  unfold openBlockSource, initLocalImage, initMapServiceImage.
  repeat yields_step; [right | left]; done.
Qed.

Lemma initSubsetRegionFilter_node :
  yields (fun o => forall n, o = Some n -> is_node "regionFilter" SubsetRegionFilter n)
         initSubsetRegionFilter.
Proof.
  unfold initSubsetRegionFilter. repeat yields_step; by intros n [= <-].
Qed.

Lemma initSlidingWindow_node :
  yields (is_node "slidingWindow" SlidingWindow) initSlidingWindow.
Proof. unfold initSlidingWindow. repeat yields_step; done. Qed.

Lemma initWfs_node :
  yields (fun o => forall n, o = Some n ->
                             is_node "fieldExtractor" WfsFeatureFieldExtractor n)
         initWfs.
Proof. unfold initWfs. repeat yields_step; by intros n [= <-]. Qed.

(** What a run of [process] that returns has gone through. *)
Lemma process_inv (s s' : OSN) (g : Graph) :
  process s = Ok g s' ->
  exists blockSource model subsetFilter slidingWindow wfsExtractor s3 s4,
    g = assemble (args_ s) (mp_metadata (a_modelPackage (args_ s))) s3 s4
                 blockSource model subsetFilter slidingWindow wfsExtractor /\
    args_ s3 = args_ s /\
    (is_node "blockSource" GdalBlockSource blockSource \/
     is_node "blockSource" MapServiceBlockSource blockSource) /\
    is_node "detector"
            (if bool_decide (md_category (mp_metadata (a_modelPackage (args_ s)))
                             = "segmentation")
             then PolyDetector else BoxDetector) model /\
    (forall n, subsetFilter = Some n -> is_node "regionFilter" SubsetRegionFilter n) /\
    is_node "slidingWindow" SlidingWindow slidingWindow /\
    (forall n, wfsExtractor = Some n ->
               is_node "fieldExtractor" WfsFeatureFieldExtractor n).
Proof.
  unfold process. intros Hrun.
  apply bind_Ok_inv in Hrun as (blockSource & sA & HA & Hrun).
  apply bind_Ok_inv in Hrun as (s1 & ? & [= <- <-] & Hrun). cbv zeta in Hrun.
  apply bind_Ok_inv in Hrun as ([] & sB1 & [= <-] & Hrun).
  apply bind_Ok_inv in Hrun as ([] & sB & [= <-] & Hrun).
  apply bind_Ok_inv in Hrun as (model & sC & HC & Hrun).
  apply bind_Ok_inv in Hrun as ([] & sD & HD & Hrun).
  apply bind_Ok_inv in Hrun as (s2 & ? & [= <- <-] & Hrun).
  apply bind_Ok_inv in Hrun as (md & ? & Hmd & Hrun).
  apply bind_Ok_inv in Hrun as (subsetFilter & sE & HE & Hrun).
  apply bind_Ok_inv in Hrun as (slidingWindow & sF & HF & Hrun).
  apply bind_Ok_inv in Hrun as (s3 & ? & [= <- <-] & Hrun).
  apply bind_Ok_inv in Hrun as (wfsExtractor & sG & HG & Hrun).
  apply bind_Ok_inv in Hrun as (s4 & ? & [= <- <-] & Hrun).
  injection Hrun as <- <-.
  pose proof (preserves_Ok _ _ _ _ _ openBlockSource_args HA) as HargsA.
  unfold same_args in HargsA.
  pose proof (initDetector_inv _ _ _ HC) as (HargsC & HmdC & _ & HnameC & HkindC & _).
  cbn in HargsC, HmdC, HkindC.
  pose proof (preserves_Ok _ _ _ _ _ printModel_keeps HD) as (HargsD & HD').
  destruct HD' as (_&_&_&_&_&_&_& HmdD &_).
  rewrite HmdD, HmdC in Hmd. unfold ret in Hmd. injection Hmd as <- <-.
  pose proof (preserves_Ok _ _ _ _ _ initSubsetRegionFilter_keeps HE) as (HargsE & _).
  pose proof (preserves_Ok _ _ _ _ _ initSlidingWindow_keeps HF) as (HargsF & _).
  exists blockSource, model, subsetFilter, slidingWindow, wfsExtractor, sF, sG.
  rewrite HargsA in *.
  split; [reflexivity |].
  split; [congruence |].
  split; [exact (yields_Ok _ _ _ _ _ openBlockSource_node HA) |].
  split; [split; [exact HnameC | exact HkindC] |].
  split; [exact (yields_Ok _ _ _ _ _ initSubsetRegionFilter_node HE) |].
  split; [exact (yields_Ok _ _ _ _ _ initSlidingWindow_node HF) |].
  exact (yields_Ok _ _ _ _ _ initWfs_node HG).
Qed.

End NodeShapes.

(** ** The assembled graph *)

Ltac destruct_node n Hn :=
  let name := fresh "name" in
  let kind := fresh "kind" in
  let attrs := fresh "attrs" in
  destruct n as [name kind attrs];
  destruct Hn as [Hname Hkind]; cbn in Hname, Hkind; subst name kind.

(** no node of the nested insertions has the kind *)
Ltac no_kind :=
  let name := fresh "name" in
  let n := fresh "n" in
  let Hlook := fresh "Hlook" in
  let Hkind := fresh "Hkind" in
  intros (name & n & Hlook & Hkind); cbn in Hlook;
  repeat (apply lookup_insert_Some in Hlook as [[<- <-] | [_ Hlook]];
          [cbn in Hkind; done |]);
  rewrite lookup_empty in Hlook; discriminate Hlook.

Section Wiring.
Context `{World}.

(** C1.  Whenever [process] has assembled a graph: for a segmentation
    model with NMS enabled and no label list, the node "nms" is a polygon
    NMS node whose input "predictions" is the detector's output
    "predictions", and the graph has no box-to-polygon node; for a detection
    model with NMS disabled and a label list, the detector feeds the label
    filter, the label filter feeds the box-to-polygon node, that node feeds
    the feature conversion, and the graph has no NMS node. *)
Theorem process_prediction_wiring (s s' : OSN) (g : Graph) :
  process s = Ok g s' ->
  let args := args_ s in
  let category := md_category (mp_metadata (a_modelPackage args)) in
  (category = "segmentation" -> a_nms args = true ->
   a_excludeLabels args = [] -> a_includeLabels args = [] ->
     kind_of g "detector" = Some PolyDetector /\
     kind_of g "nms" = Some PolyNonMaxSuppression /\
     wired g "nms" "predictions" "detector" "predictions" /\
     wired g "predToFeature" "predictions" "nms" "predictions" /\
     kind_of g "labelFilter" = None /\
     ~ has_kind PredictionBoxToPoly g) /\
  (category = "detection" -> a_nms args = false ->
   a_excludeLabels args <> [] \/ a_includeLabels args <> [] ->
     kind_of g "detector" = Some BoxDetector /\
     kind_of g "labelFilter" = Some BoxLabelFilter /\
     kind_of g "predictionToPoly" = Some PredictionBoxToPoly /\
     kind_of g "predToFeature" = Some PredictionToFeature /\
     wired g "labelFilter" "predictions" "detector" "predictions" /\
     wired g "predictionToPoly" "predictions" "labelFilter" "predictions" /\
     wired g "predToFeature" "predictions" "predictionToPoly" "predictions" /\
     ~ has_kind PolyNonMaxSuppression g /\
     ~ has_kind BoxNonMaxSuppression g).
Proof.
  intros Hrun args category.
  apply process_inv in Hrun
    as (blockSource & model & subsetFilter & slidingWindow & wfsExtractor
        & s3 & s4 & -> & Hargs & HblockSource & Hmodel & HsubsetFilter
        & HslidingWindow & HwfsExtractor).
  fold args category in Hmodel |- *.
  unfold assemble, initLabelFilter, initNms. rewrite Hargs. fold args category.
  destruct_node slidingWindow HslidingWindow.
  assert (HbsName : n_name blockSource = "blockSource")
    by (destruct HblockSource as [[? ?] | [? ?]]; done).
  assert (HbsKind : n_kind blockSource <> PredictionBoxToPoly /\
                    n_kind blockSource <> PolyNonMaxSuppression /\
                    n_kind blockSource <> BoxNonMaxSuppression)
    by (destruct HblockSource as [[? ->] | [? ->]]; done).
  clear HblockSource. destruct blockSource as [bsName bsKind bsAttrs].
  cbn in HbsName, HbsKind. subst bsName.
  destruct HbsKind as (Hbs1 & Hbs2 & Hbs3).
  split.
  - intros Hcat Hnms Hexcl Hincl.
    assert (Hseg : bool_decide (category = "segmentation") = true)
      by (by apply bool_decide_eq_true_2).
    rewrite Hseg in Hmodel |- *. rewrite Hnms, Hexcl, Hincl.
    destruct_node model Hmodel.
    destruct subsetFilter as [subsetFilter|];
      [specialize (HsubsetFilter _ eq_refl);
       destruct_node subsetFilter HsubsetFilter | clear HsubsetFilter];
    (destruct wfsExtractor as [wfsExtractor|];
      [specialize (HwfsExtractor _ eq_refl);
       destruct_node wfsExtractor HwfsExtractor | clear HwfsExtractor]);
    destruct (haveAlpha_ s3); destruct (a_resampledSize args);
    (repeat split; [vm_compute; reflexivity .. | no_kind]).
  - intros Hcat Hnms Hlabels.
    assert (Hseg : bool_decide (category = "segmentation") = false)
      by (apply bool_decide_eq_false_2; by rewrite Hcat).
    rewrite Hseg in Hmodel |- *. rewrite Hnms.
    destruct_node model Hmodel.
    assert (Hlf : exists attrs,
               match a_excludeLabels args, a_includeLabels args with
               | _ :: _, _ =>
                   Some (set_attr "labelFilterType" (ALabelFilterType EXCLUDE)
                           (set_attr "labels" (AStrings (a_excludeLabels args))
                              (create BoxLabelFilter "labelFilter")))
               | [], _ :: _ =>
                   Some (set_attr "labelFilterType" (ALabelFilterType INCLUDE)
                           (set_attr "labels" (AStrings (a_includeLabels args))
                              (create BoxLabelFilter "labelFilter")))
               | [], [] => None
               end = Some (mkNode _ "labelFilter" BoxLabelFilter attrs)).
    { destruct (a_excludeLabels args), (a_includeLabels args);
        [destruct Hlabels; done | eexists; reflexivity ..]. }
    destruct Hlf as [lfAttrs Hlf]. rewrite Hlf.
    destruct subsetFilter as [subsetFilter|];
      [specialize (HsubsetFilter _ eq_refl);
       destruct_node subsetFilter HsubsetFilter | clear HsubsetFilter];
    (destruct wfsExtractor as [wfsExtractor|];
      [specialize (HwfsExtractor _ eq_refl);
       destruct_node wfsExtractor HwfsExtractor | clear HwfsExtractor]);
    destruct (haveAlpha_ s3); destruct (a_resampledSize args);
    (repeat split; [vm_compute; reflexivity .. | no_kind | no_kind]).
Qed.

End Wiring.

(** ** The region filter *)

Section RegionFilterTheorems.
Context `{World}.


(** the check of one layer, in both directions *)
Lemma layerTransform_mismatch (s : OSN) (file : string) (layer : Layer) :
  isLocal (l_sr layer) <> isLocal (sr_ s) ->
  layerTransform file layer s =
  Throw (if isLocal (l_sr layer)
         then ImageLacksSpatialReference file
         else FilterLacksSpatialReference file) s.
Proof.
  intros Hne. unfold layerTransform. monad_unfold.
  destruct (isLocal (l_sr layer)), (isLocal (sr_ s)); done.
Qed.

Lemma layerTransform_Ok (s s' : OSN) (file : string) (layer : Layer) t :
  layerTransform file layer s = Ok t s' ->
  isLocal (l_sr layer) = isLocal (sr_ s).
Proof.
  intros Hrun.
  destruct (decide (isLocal (l_sr layer) = isLocal (sr_ s))) as [|Hne]; [done |].
  rewrite layerTransform_mismatch in Hrun by done. done.
Qed.


Lemma applyAction_Ok_files (st st' : RegionFilter * bool)
    (filterAction : string * list string) (s s' : OSN) :
  applyAction st filterAction s = Ok st' s' ->
  exists polys, foldM addFile filterAction.2 [] s = Ok polys s.
Proof.
  unfold applyAction. intros Hrun.
  apply bind_Ok_inv in Hrun as (polys & s1 & Hfiles & _).
  pose proof (preserves_Ok _ _ _ _ _ (addFiles_unchanged _ _) Hfiles) as ->.
  eauto.
Qed.




Lemma applyAction_include (rf : RegionFilter) (first : bool)
    (files : list string) (polys : list Geometry) (s s1 : OSN) :
  foldM addFile files [] s = Ok polys s1 ->
  applyAction (rf, first) ("include", files) s
  = Ok (rf_push (Add polys) rf, false) s.
Proof.
  intros Hfiles.
  pose proof (preserves_Ok _ _ _ _ _ (addFiles_unchanged _ _) Hfiles) as ->.
  unfold applyAction. cbn [fst snd]. unfold bind at 1. rewrite Hfiles.
  rewrite bool_decide_eq_true_2 by done. done.
Qed.

Lemma applyAction_exclude (rf : RegionFilter) (first : bool)
    (files : list string) (polys : list Geometry) (s s1 : OSN) :
  foldM addFile files [] s = Ok polys s1 ->
  exists s', same_but_log s s' /\
    applyAction (rf, first) ("exclude", files) s
    = Ok (rf_push (Subtract polys)
            (if first then rf_push (Add [rectPolygon (filterExtent s)]) rf
             else rf), false) s'.
Proof.
  intros Hfiles.
  pose proof (preserves_Ok _ _ _ _ _ (addFiles_unchanged _ _) Hfiles) as ->.
  unfold applyAction. cbn [fst snd]. unfold bind at 1. rewrite Hfiles.
  rewrite bool_decide_eq_false_2 by done.
  rewrite bool_decide_eq_true_2 by done.
  unfold bind at 1, get at 1. destruct first.
  - eexists. split; [| reflexivity]. by unfold same_but_log.
  - eexists. split; [| reflexivity]. apply rel_refl.
Qed.

(** the additions and subtractions already made stay in place *)
Lemma applyAction_ops (st st' : RegionFilter * bool)
    (filterAction : string * list string) (s s' : OSN) :
  applyAction st filterAction s = Ok st' s' ->
  exists ops, rf_ops st'.1 = rf_ops st.1 ++ ops.
Proof.
  unfold applyAction. intros Hrun.
  apply bind_Ok_inv in Hrun as (polys & s1 & _ & Hrun).
  destruct (bool_decide (filterAction.1 = "include")).
  { injection Hrun as <- <-. cbn. eauto. }
  destruct (bool_decide (filterAction.1 = "exclude")); [| done].
  apply bind_Ok_inv in Hrun as (s2 & ? & [= <- <-] & Hrun).
  apply bind_Ok_inv in Hrun as (rf' & s3 & Hrf & Hrun).
  injection Hrun as <- <-. cbn.
  destruct st.2.
  - apply bind_Ok_inv in Hrf as ([] & s4 & _ & Hrf). injection Hrf as <- <-.
    cbn. rewrite <- app_assoc. eauto.
  - injection Hrf as <- <-. eauto.
Qed.

Lemma applyActions_ops (defs : list (string * list string))
    (st st' : RegionFilter * bool) (s s' : OSN) :
  foldM applyAction defs st s = Ok st' s' ->
  exists ops, rf_ops st'.1 = rf_ops st.1 ++ ops.
Proof.
  revert st s. induction defs as [|entry defs IH]; intros st s Hrun.
  - injection Hrun as <- <-. exists []. by rewrite app_nil_r.
  - cbn [foldM] in Hrun. apply bind_Ok_inv in Hrun as (st1 & s1 & Hentry & Hrun).
    apply applyAction_ops in Hentry as [ops1 Hops1].
    apply IH in Hrun as [ops2 Hops2].
    exists (ops1 ++ ops2). by rewrite Hops2, Hops1, app_assoc.
Qed.

(** the operations for a definition that starts with "exclude", and for
    an inclusion followed by an exclusion; the rectangle that the builder
    adds by itself is [filterExtent] *)
Lemma exclude_first_ops (s : OSN) :
  let extent := rectPolygon (filterExtent s) in
  (bbox_ s = Rect_ofSize (imageSize_ s) ->
   filterExtent s = Rect_ofSize (imageSize_ s)) /\
  (forall filesA polyA s1,
     a_filterDefinition (args_ s) = [("exclude", filesA)] ->
     foldM addFile filesA [] s = Ok polyA s1 ->
     exists rf s',
       buildRegionFilter s = Ok rf s' /\
       rf_ops rf = [Add [extent]; Subtract polyA] /\
       forall p, RegionFilter_contains rf p
                 = geometryContains extent p && negb (anyContains polyA p)) /\
  (forall filesB filesA polyB polyA s1 s2,
     a_filterDefinition (args_ s) = [("include", filesB); ("exclude", filesA)] ->
     foldM addFile filesB [] s = Ok polyB s1 ->
     foldM addFile filesA [] s = Ok polyA s2 ->
     exists rf s',
       buildRegionFilter s = Ok rf s' /\
       rf_ops rf = [Add polyB; Subtract polyA] /\
       forall p, RegionFilter_contains rf p
                 = anyContains polyB p && negb (anyContains polyA p)) /\
  (forall filesA rest rf s',
     a_filterDefinition (args_ s) = ("exclude", filesA) :: rest ->
     buildRegionFilter s = Ok rf s' ->
     exists polyA ops,
       foldM addFile filesA [] s = Ok polyA s /\
       rf_ops rf = Add [extent] :: Subtract polyA :: ops).
Proof.
  intros extent. split; [| split; [| split]].
  - unfold filterExtent, Rect_ofSize. by intros ->.
  - intros filesA polyA s1 Hdefs HA.
    destruct (applyAction_exclude
                {| rf_rect := filterExtent s; rf_step := primaryWindowStep_ s;
                   rf_ops := [] |} true _ _ _ _ HA) as (s' & _ & Hact).
    unfold buildRegionFilter. unfold bind at 1, get at 1. rewrite Hdefs.
    cbn [foldM]. unfold bind at 1 2. rewrite Hact.
    do 2 eexists. split; [reflexivity |]. split; [reflexivity |].
    intros p. unfold RegionFilter_contains. cbn. by rewrite orb_false_r.
  - intros filesB filesA polyB polyA s1 s2 Hdefs HB HA.
    destruct (applyAction_exclude
                (rf_push (Add polyB)
                   {| rf_rect := filterExtent s; rf_step := primaryWindowStep_ s;
                      rf_ops := [] |}) false _ _ _ _ HA) as (s' & _ & Hact).
    unfold buildRegionFilter. unfold bind at 1, get at 1. rewrite Hdefs.
    cbn [foldM]. unfold bind at 1 2.
    rewrite (applyAction_include _ _ _ _ _ _ HB).
    unfold bind at 1. rewrite Hact.
    do 2 eexists. split; [reflexivity |]. split; [reflexivity |].
    intros p. unfold RegionFilter_contains. done.
  - intros filesA rest rf s' Hdefs Hrun.
    unfold buildRegionFilter in Hrun.
    apply bind_Ok_inv in Hrun as (s0 & ? & [= <- <-] & Hrun). cbv zeta in Hrun.
    rewrite Hdefs in Hrun.
    apply bind_Ok_inv in Hrun as (st & s1 & Hrun & [= <- <-]).
    cbn [foldM] in Hrun.
    apply bind_Ok_inv in Hrun as (st1 & s2 & Hfirst & Hrest).
    destruct (applyAction_Ok_files _ _ _ _ _ Hfirst) as [polyA HA].
    cbn [snd] in HA.
    destruct (applyAction_exclude
                {| rf_rect := filterExtent s; rf_step := primaryWindowStep_ s;
                   rf_ops := [] |} true _ _ _ _ HA) as (s3 & _ & Hact).
    rewrite Hact in Hfirst. injection Hfirst as <- <-.
    apply applyActions_ops in Hrest as [ops Hops].
    exists polyA, ops. split; [done |]. by rewrite Hops.
Qed.

(** C2.  When the first action is "exclude" and the run's bounding box
    starts at the origin of the image, as it does when it is the whole
    image, the builder first adds the bounding box and then subtracts the
    polygons: the list [("exclude", A)] yields the bounding box minus [A].
    The list [("include", B); ("exclude", A)] yields [B] minus [A] whatever
    the bounding box, and no rectangle is added. *)
Theorem exclude_first_adds_extent (s : OSN) :
  let extent := rectPolygon (bbox_ s) in
  (bbox_ s = Rect_ofSize (imageSize_ s) ->
   r_x (bbox_ s) = 0 /\ r_y (bbox_ s) = 0 /\
   extent = rectPolygon (Rect_ofSize (imageSize_ s))) /\
  (forall filesA polyA s1,
     r_x (bbox_ s) = 0 -> r_y (bbox_ s) = 0 ->
     a_filterDefinition (args_ s) = [("exclude", filesA)] ->
     foldM addFile filesA [] s = Ok polyA s1 ->
     exists rf s',
       buildRegionFilter s = Ok rf s' /\
       rf_ops rf = [Add [extent]; Subtract polyA] /\
       forall p, RegionFilter_contains rf p
                 = geometryContains extent p && negb (anyContains polyA p)) /\
  (forall filesB filesA polyB polyA s1 s2,
     a_filterDefinition (args_ s) = [("include", filesB); ("exclude", filesA)] ->
     foldM addFile filesB [] s = Ok polyB s1 ->
     foldM addFile filesA [] s = Ok polyA s2 ->
     exists rf s',
       buildRegionFilter s = Ok rf s' /\
       rf_ops rf = [Add polyB; Subtract polyA] /\
       forall p, RegionFilter_contains rf p
                 = anyContains polyB p && negb (anyContains polyA p)) /\
  (forall filesA rest rf s',
     r_x (bbox_ s) = 0 -> r_y (bbox_ s) = 0 ->
     a_filterDefinition (args_ s) = ("exclude", filesA) :: rest ->
     buildRegionFilter s = Ok rf s' ->
     exists polyA ops,
       foldM addFile filesA [] s = Ok polyA s /\
       rf_ops rf = Add [extent] :: Subtract polyA :: ops).
Proof.
  intros extent.
  assert (Hextent : r_x (bbox_ s) = 0 -> r_y (bbox_ s) = 0 ->
                    filterExtent s = bbox_ s).
  { unfold filterExtent. destruct (bbox_ s) as [x y w h]. cbn.
    by intros -> ->. }
  destruct (exclude_first_ops s) as (_ & Hexclude & Hboth & Hfirst).
  split; [| split; [| split]].
  - intros Hwhole. unfold extent. rewrite Hwhole. done.
  - intros filesA polyA s1 Hx Hy Hdefs HA.
    destruct (Hexclude filesA polyA s1 Hdefs HA) as (rf & s' & Hrun & Hops & Hin).
    rewrite (Hextent Hx Hy) in Hops, Hin. eauto.
  - exact Hboth.
  - intros filesA rest rf s' Hx Hy Hdefs Hrun.
    destruct (Hfirst filesA rest rf s' Hdefs Hrun) as (polyA & ops & HA & Hops).
    rewrite (Hextent Hx Hy) in Hops. eauto.
Qed.

End RegionFilterTheorems.

(** ** The progress callbacks *)

Lemma callback_after_stop (m : Monitor) (e : MonitorEvent) :
  pd_running m = false ->
  let m' := monitorStep true m e in
  pd_running m' = false /\ pd_updates m' = pd_updates m /\
  sink_cancels m' = if isMetric e then S (sink_cancels m) else sink_cancels m.
Proof.
  intros Hstopped.
  destruct e; cbn; unfold subsetsRequested, subsetsRead, subsetsProcessed;
    rewrite ?Hstopped; cbn; done.
Qed.

(** C8.  In the interactive mode, once the display has stopped, every
    metric callback (total, forwarded or processed) sends one cancellation
    request to the feature sink and no progress update: over any further
    events the display stays stopped, the updates sent to it stay as they
    were, and the sink receives as many requests as callbacks have fired;
    one callback, one request. *)
Theorem callbacks_after_stop (m : Monitor) (events : list MonitorEvent) :
  pd_running m = false ->
  let m' := monitorRun true m events in
  pd_running m' = false /\
  pd_updates m' = pd_updates m /\
  sink_cancels m' = (sink_cancels m + length (filter isMetric events))%nat /\
  forall e, isMetric e = true ->
            sink_cancels (monitorStep true m e) = S (sink_cancels m).
Proof.
  intros Hstopped. cbv zeta.
  assert (Hrun : pd_running (monitorRun true m events) = false /\
                 pd_updates (monitorRun true m events) = pd_updates m /\
                 sink_cancels (monitorRun true m events)
                 = (sink_cancels m + length (filter isMetric events))%nat).
  { revert m Hstopped. unfold monitorRun.
    induction events as [|e events IH]; intros m Hstopped; cbn [fold_left].
    - repeat split; try done; cbn; lia.
    - destruct (callback_after_stop m e Hstopped) as (Hrun & Hupd & Hcancel).
      destruct (IH _ Hrun) as (IH1 & IH2 & IH3).
      rewrite IH1, IH2, IH3, Hupd, Hcancel.
      repeat split; try done. destruct (isMetric e) eqn:He.
      + rewrite filter_cons_True by (by rewrite He). cbn. lia.
      + rewrite filter_cons_False by (rewrite He; exact id). done. }
  destruct Hrun as (H1 & H2 & H3). repeat split; [done .. |].
  intros e He. destruct (callback_after_stop m e Hstopped) as (_ & _ & ->).
  by rewrite He.
Qed.

(** ** The label filter *)

Section IgnoreRules.
Context `{World}.

Lemma ign_ret {A} (a : A) : ignores_includeLabels (ret a).
Proof. done. Qed.

Lemma ign_throw {A} (e : Error) : ignores_includeLabels (throw (A := A) e).
Proof. done. Qed.

Lemma ign_emit (e : Event) : ignores_includeLabels (emit e).
Proof. done. Qed.

Lemma ign_DG_CHECK (c : bool) (e : Error) : ignores_includeLabels (DG_CHECK c e).
Proof. intros l s. unfold DG_CHECK. by destruct c. Qed.

Lemma ign_modify (f : OSN -> OSN) :
  (forall l s, f (with_includeLabels l s) = with_includeLabels l (f s)) ->
  ignores_includeLabels (modify f).
Proof. intros Hf l s. unfold modify. cbn. by rewrite Hf. Qed.

Lemma ign_bind {A B} (m : M A) (k : A -> M B) :
  ignores_includeLabels m -> (forall a, ignores_includeLabels (k a)) ->
  ignores_includeLabels (bind m k).
Proof.
  intros Hm Hk l s. unfold bind. rewrite Hm.
  destruct (m s) as [a s1 | e s1]; cbn; [apply Hk | done].
Qed.

Lemma ign_get_bind {B} (body : OSN -> M B) :
  (forall l s0, body (with_includeLabels l s0) = body s0) ->
  (forall s0, ignores_includeLabels (body s0)) ->
  ignores_includeLabels (bind get body).
Proof.
  intros Hsame Hbody l s. unfold bind, get. rewrite Hsame. apply Hbody.
Qed.

Lemma ign_foldM {A B} (body : B -> A -> M B) (l : list A) (b : B) :
  (forall b x, ignores_includeLabels (body b x)) ->
  ignores_includeLabels (foldM body l b).
Proof.
  intros Hbody. revert b. induction l as [|x l IH]; intros b; cbn [foldM].
  - apply ign_ret.
  - apply ign_bind; [apply Hbody | intros b'; apply IH].
Qed.

Lemma ign_forM {A} (body : A -> M unit) (l : list A) :
  (forall x, ignores_includeLabels (body x)) ->
  ignores_includeLabels (forM_ l body).
Proof.
  intros Hbody. induction l as [|x l IH]; cbn [forM_].
  - apply ign_ret.
  - apply ign_bind; [apply Hbody | intros _; apply IH].
Qed.

End IgnoreRules.

Ltac ign_step :=
  lazymatch goal with
  | |- ignores_includeLabels (bind get _) =>
      apply ign_get_bind; [intros ? ?; reflexivity | intros ?; cbv beta]
  | |- ignores_includeLabels (bind _ _) => apply ign_bind; [| intros ?; cbv beta]
  | |- ignores_includeLabels (ret _) => apply ign_ret
  | |- ignores_includeLabels (throw _) => apply ign_throw
  | |- ignores_includeLabels (emit _) => apply ign_emit
  | |- ignores_includeLabels (DG_CHECK _ _) => apply ign_DG_CHECK
  | |- ignores_includeLabels (modify _) => apply ign_modify; intros ? ?; reflexivity
  | |- ignores_includeLabels (foldM _ _ _) => apply ign_foldM; intros ? ?; cbv beta
  | |- ignores_includeLabels (forM_ _ _) => apply ign_forM; intros ?; cbv beta
  | |- ignores_includeLabels (if ?c then _ else _) => destruct c
  | |- ignores_includeLabels (match ?x with _ => _ end) => destruct x
  | |- ignores_includeLabels (let _ := _ in _) => cbv zeta
  end.

Ltac ign := repeat ign_step.

Section IgnoreSteps.
Context `{World}.

Lemma openBlockSource_ign : ignores_includeLabels openBlockSource.
Proof. unfold openBlockSource, initLocalImage, initMapServiceImage. ign. Qed.

Lemma initDetector_ign : ignores_includeLabels initDetector.
Proof. unfold initDetector. ign. Qed.

Lemma printModel_ign : ignores_includeLabels printModel.
Proof. unfold printModel. ign. Qed.

Lemma initSubsetRegionFilter_ign : ignores_includeLabels initSubsetRegionFilter.
Proof.
  unfold initSubsetRegionFilter, buildRegionFilter, applyAction, addFile,
    addLayer, addFeature, layerTransform.
  ign.
Qed.

Lemma initSlidingWindow_ign : ignores_includeLabels initSlidingWindow.
Proof. unfold initSlidingWindow, calcWindows. ign. Qed.

Lemma initWfs_ign : ignores_includeLabels initWfs.
Proof. unfold initWfs. ign. Qed.

End IgnoreSteps.

Section Alike.
Context `{World}.

Lemma preserves_weaken {A} (R R' : OSN -> OSN -> Prop) (m : M A) :
  (forall s s', R s s' -> R' s s') -> preserves R m -> preserves R' m.
Proof.
  intros HR Hm s. specialize (Hm s). unfold ends in *.
  destruct (m s); by apply HR.
Qed.

Lemma same_but_log_args (s s' : OSN) : same_but_log s s' -> same_args s s'.
Proof. by intros [? _]. Qed.

Lemma initDetector_args : preserves same_args initDetector.
Proof. unfold initDetector. pres; by apply pres_modify. Qed.

Lemma alike_ign {A} (l : list string) (m : M A) :
  ignores_includeLabels m -> preserves same_args m -> alike l eq m m.
Proof.
  intros Hign Hargs s Hexcl. rewrite Hign.
  specialize (Hargs s). unfold ends, same_args in Hargs.
  destruct (m s) as [a s1 | e s1]; cbn; [| done].
  by rewrite Hargs.
Qed.

Lemma alike_bind {A B} (l : list string) (Q : A -> A -> Prop)
    (Q' : B -> B -> Prop) (m m' : M A) (k k' : A -> M B) :
  alike l Q m m' ->
  (forall a a', Q a a' -> alike l Q' (k a) (k' a')) ->
  alike l Q' (bind m k) (bind m' k').
Proof.
  intros Hm Hk s Hexcl. specialize (Hm s Hexcl). unfold bind.
  destruct (m s) as [a s1 | e s1], (m' (with_includeLabels l s)) as [a' s1' | e' s1'];
    try done.
  destruct Hm as (HQ & -> & Hexcl1). by apply Hk.
Qed.

Lemma alike_get (l : list string) :
  alike l (fun s0 s0' => s0' = with_includeLabels l s0 /\
                         a_excludeLabels (args_ s0) <> []) get get.
Proof. intros s Hexcl. cbn. done. Qed.

Lemma alike_ret {A} (l : list string) (Q : A -> A -> Prop) (a a' : A) :
  Q a a' -> alike l Q (ret a) (ret a').
Proof. intros HQ s Hexcl. cbn. done. Qed.

Lemma initLabelFilter_with_includeLabels (l : list string) (s : OSN) (b : bool) :
  a_excludeLabels (args_ s) <> [] ->
  initLabelFilter (with_includeLabels l s) b = initLabelFilter s b.
Proof.
  intros Hexcl. unfold initLabelFilter. cbn.
  by destruct (a_excludeLabels (args_ s)).
Qed.

Lemma assemble_with_includeLabels (l : list string) (s1 s3 s4 : OSN)
    (md : ModelMetadata) (blockSource model : Node)
    (subsetFilter : option Node) (slidingWindow : Node)
    (wfsExtractor : option Node) :
  a_excludeLabels (args_ s3) <> [] ->
  assemble (args_ (with_includeLabels l s1)) md (with_includeLabels l s3)
           (with_includeLabels l s4) blockSource model subsetFilter
           slidingWindow wfsExtractor
  = assemble (args_ s1) md s3 s4 blockSource model subsetFilter
             slidingWindow wfsExtractor.
Proof.
  intros Hexcl. unfold assemble.
  by rewrite initLabelFilter_with_includeLabels.
Qed.

Lemma process_alike (l : list string) : alike l eq process process.
Proof.
  unfold process.
  eapply alike_bind; [apply alike_ign, openBlockSource_args;
                      apply openBlockSource_ign |].
  intros blockSource ? <-.
  eapply alike_bind; [apply alike_get |]. intros s1 ? [-> Hs1]. cbv zeta.
  eapply alike_bind.
  { apply (alike_ign l (emit _)); [apply ign_emit | apply pres_emit; exact _]. }
  intros _ _ _.
  eapply alike_bind.
  { apply (alike_ign l (emit _)); [apply ign_emit | apply pres_emit; exact _]. }
  intros _ _ _.
  eapply alike_bind; [apply alike_ign, initDetector_args; apply initDetector_ign |].
  intros model ? <-.
  eapply alike_bind.
  { apply alike_ign; [apply printModel_ign |].
    eapply preserves_weaken, printModel_keeps. apply same_but_log_args. }
  intros _ _ _.
  eapply alike_bind; [apply alike_get |]. intros s2 ? [-> Hs2].
  eapply alike_bind.
  { apply (alike_ign l (match metadata_ s2 with
                        | Some md => ret md
                        | None => throw NullMetadata
                        end)).
    - destruct (metadata_ s2); [apply ign_ret | apply ign_throw].
    - destruct (metadata_ s2); [apply pres_ret | apply pres_throw]; exact _. }
  intros md ? <-.
  eapply alike_bind.
  { apply alike_ign; [apply initSubsetRegionFilter_ign |].
    eapply preserves_weaken, initSubsetRegionFilter_keeps. apply same_but_log_args. }
  intros subsetFilter ? <-.
  eapply alike_bind.
  { apply alike_ign; [apply initSlidingWindow_ign |].
    eapply preserves_weaken, initSlidingWindow_keeps. apply same_but_log_args. }
  intros slidingWindow ? <-.
  eapply alike_bind; [apply alike_get |]. intros s3 ? [-> Hs3].
  eapply alike_bind.
  { apply alike_ign; [apply initWfs_ign |].
    eapply preserves_weaken, initWfs_keeps. apply same_but_log_args. }
  intros wfsExtractor ? <-.
  eapply alike_bind; [apply alike_get |]. intros s4 ? [-> Hs4].
  apply alike_ret. symmetry. by apply assemble_with_includeLabels.
Qed.

End Alike.

Section LabelFilter.
Context `{World}.

Lemma wire_nodes (isSegmentation : bool)
    (blockSource blockCache subsetWithBorder : Node) (subsetFilter : option Node)
    (slidingWindow : Node) (removeAlpha : option Node) (model : Node)
    (labelFilter nmsNode : option Node) (predictionToFeature : Node)
    (wfsExtractor : option Node) (featureSink : Node) (g : Graph) :
  g_nodes (wire isSegmentation blockSource blockCache subsetWithBorder
                subsetFilter slidingWindow removeAlpha model labelFilter
                nmsNode predictionToFeature wfsExtractor featureSink g)
  = if isSegmentation then g_nodes g
    else <["predictionToPoly" := create PredictionBoxToPoly "predictionToPoly"]>
           (g_nodes g).
Proof.
  unfold wire.
  by destruct isSegmentation, subsetFilter, removeAlpha, labelFilter, nmsNode,
     wfsExtractor.
Qed.

Lemma lookup_add_node_ne (n : Node) (g : Graph) (name : string) :
  n_name n <> name -> g_nodes (add_node n g) !! name = g_nodes g !! name.
Proof. intros Hne. cbn. by rewrite lookup_insert_ne. Qed.

Lemma lookup_add_opt_ne (o : option Node) (g : Graph) (name : string) :
  (forall n, o = Some n -> n_name n <> name) ->
  g_nodes (add_opt o g) !! name = g_nodes g !! name.
Proof.
  intros Hne. destruct o as [n|]; [| done].
  apply lookup_add_node_ne. by apply Hne.
Qed.

Lemma lookup_add_opt_eq (o : option Node) (g : Graph) (name : string) :
  (forall n, o = Some n -> n_name n = name) ->
  g_nodes g !! name = None ->
  g_nodes (add_opt o g) !! name = o.
Proof.
  intros Hname Hnone. destruct o as [n|]; [| done].
  cbn. rewrite (Hname n eq_refl). apply lookup_insert_eq.
Qed.

(** the label-filter node of an assembled graph is the one
    [initLabelFilter] has made *)
Lemma process_labelFilter (s s' : OSN) (g : Graph) :
  process s = Ok g s' ->
  g_nodes g !! "labelFilter" =
  initLabelFilter s (bool_decide (md_category (mp_metadata (a_modelPackage (args_ s)))
                                  = "segmentation")).
Proof.
  intros Hrun.
  apply process_inv in Hrun
    as (blockSource & model & subsetFilter & slidingWindow & wfsExtractor
        & s3 & s4 & -> & Hargs & HblockSource & Hmodel & HsubsetFilter
        & HslidingWindow & HwfsExtractor).
  set (isSegmentation := bool_decide _).
  assert (Hlf : initLabelFilter s3 isSegmentation = initLabelFilter s isSegmentation)
    by (unfold initLabelFilter; by rewrite Hargs).
  unfold assemble. fold isSegmentation. rewrite wire_nodes.
  assert (Hnodes : forall g0 : gmap string Node,
             g0 !! "labelFilter" = initLabelFilter s isSegmentation ->
             (if isSegmentation then g0
              else <["predictionToPoly" := create PredictionBoxToPoly "predictionToPoly"]> g0)
             !! "labelFilter" = initLabelFilter s isSegmentation).
  { intros g0 Hg0. destruct isSegmentation; [done |]. by rewrite lookup_insert_ne. }
  apply Hnodes. clear Hnodes.
  rewrite lookup_add_node_ne by done.
  rewrite lookup_add_opt_ne
    by (intros n Hn; destruct (HwfsExtractor n Hn) as [-> _]; done).
  rewrite lookup_add_node_ne by done.
  rewrite lookup_add_opt_ne
    by (unfold initNms; intros n Hn; destruct (a_nms (args_ s3)); [| done];
        injection Hn as <-; by destruct isSegmentation).
  rewrite <- Hlf. apply lookup_add_opt_eq.
  { unfold initLabelFilter. intros n Hn.
    destruct (a_excludeLabels (args_ s3)), (a_includeLabels (args_ s3));
      try done; injection Hn as <-; by destruct isSegmentation. }
  rewrite lookup_add_opt_ne
    by (intros n Hn; destruct (haveAlpha_ s3); [| done]; by injection Hn as <-).
  rewrite lookup_add_node_ne by (destruct HslidingWindow as [-> _]; done).
  rewrite lookup_add_opt_ne
    by (intros n Hn; destruct (HsubsetFilter n Hn) as [-> _]; done).
  rewrite lookup_add_node_ne by (by destruct (a_resampledSize (args_ s))).
  rewrite lookup_add_node_ne by (destruct Hmodel as [-> _]; done).
  rewrite lookup_add_node_ne by done.
  rewrite lookup_add_node_ne
    by (destruct HblockSource as [[-> _] | [-> _]]; done).
  by destruct (haveAlpha_ s3).
Qed.

(** C10.  When both label lists are non-empty the label filter is made
    from the list to exclude alone, in EXCLUDE mode, and the list to
    include changes neither the graph that [process] assembles nor the
    error it ends with; a label-filter node is made, and is in the graph,
    exactly when one of the two lists is non-empty. *)
Theorem label_filter_exclude_wins (s : OSN) :
  let excl := a_excludeLabels (args_ s) in
  let incl := a_includeLabels (args_ s) in
  (forall isSegmentation,
     excl <> [] -> incl <> [] ->
     initLabelFilter s isSegmentation =
     Some (mkNode _ "labelFilter"
                  (if isSegmentation then PolyLabelFilter else BoxLabelFilter)
                  (<["labelFilterType" := ALabelFilterType EXCLUDE]>
                     (<["labels" := AStrings excl]> ∅)))) /\
  (excl <> [] ->
   forall l,
     match process s, process (with_includeLabels l s) with
     | Ok g _, Ok g' _ => g' = g
     | Throw e _, Throw e' _ => e' = e
     | _, _ => False
     end) /\
  (forall isSegmentation,
     is_Some (initLabelFilter s isSegmentation) <-> excl <> [] \/ incl <> []) /\
  (forall g s',
     process s = Ok g s' ->
     (is_Some (g_nodes g !! "labelFilter") <-> excl <> [] \/ incl <> [])).
Proof.
  intros excl incl.
  assert (Hiff : forall isSegmentation,
             is_Some (initLabelFilter s isSegmentation)
             <-> excl <> [] \/ incl <> []).
  { intros b. unfold initLabelFilter. fold excl incl.
    destruct excl, incl; split; intros Hx;
      try (by eauto); try (by destruct Hx as [? ?]); try (by destruct Hx). }
  split; [| split; [| split]].
  - intros b Hexcl Hincl. unfold initLabelFilter. fold excl incl.
    destruct excl; [done |]. by destruct b.
  - intros Hexcl l. pose proof (process_alike l s Hexcl) as Halike.
    destruct (process s), (process (with_includeLabels l s)); try done.
    by destruct Halike as [-> _].
  - exact Hiff.
  - intros g s' Hrun. rewrite (process_labelFilter _ _ _ Hrun). apply Hiff.
Qed.

End LabelFilter.

(** * Further properties *)

(** ** The images *)

(** a rectangle [b] of positive size lying in [a] *)
Lemma Rect_and_inside (a b : Rect) :
  0 < r_width b -> 0 < r_height b ->
  r_x a <= r_x b -> r_y a <= r_y b ->
  r_x b + r_width b <= r_x a + r_width a ->
  r_y b + r_height b <= r_y a + r_height a ->
  Rect_and a b = b.
Proof.
  intros Hw Hh Hx Hy Hx' Hy'. unfold Rect_and.
  destruct a as [ax ay aw ah], b as [bx b_y bw bh]. cbn in *.
  replace (Z.max ax bx) with bx by lia.
  replace (Z.max ay b_y) with b_y by lia.
  replace (Z.min (ax + aw) (bx + bw)) with (bx + bw) by lia.
  replace (Z.min (ay + ah) (b_y + bh)) with (b_y + bh) by lia.
  destruct (Z.leb_spec (bx + bw - bx) 0); [lia |].
  destruct (Z.leb_spec (b_y + bh - b_y) 0); [lia |].
  cbn. f_equal; lia.
Qed.

(** the sides of an intersection are never negative, and both are zero
    when one is *)
Lemma Rect_and_size (a b : Rect) :
  (0 < r_width (Rect_and a b) /\ 0 < r_height (Rect_and a b)) \/
  Rect_and a b = mkRect 0 0 0 0.
Proof.
  unfold Rect_and.
  destruct (Z.leb_spec (Z.min (r_x a + r_width a) (r_x b + r_width b)
                        - Z.max (r_x a) (r_x b)) 0); cbn; [by right |].
  destruct (Z.leb_spec (Z.min (r_y a + r_height a) (r_y b + r_height b)
                        - Z.max (r_y a) (r_y b)) 0); cbn; [by right |].
  left. lia.
Qed.

Section ImageProperties.
Context `{World}.

(** X1.  A user's box that, in pixels, lies within the image and is not
    empty is used as it is, and nothing is logged about it. *)
Theorem initLocalImage_bbox_unchanged (s : OSN) (argsBbox : Rect2d) :
  let image := openImage (a_image (args_ s)) in
  let bbox :=
    transformToInt [T_fromLatLon (img_sr image);
                    T_inverse (img_pixelToProj image)] argsBbox in
  isLocal (img_sr image) = false ->
  a_bbox (args_ s) = Some argsBbox ->
  0 < r_width bbox -> 0 < r_height bbox ->
  0 <= r_x bbox -> 0 <= r_y bbox ->
  r_x bbox + r_width bbox <= sz_width (img_size image) ->
  r_y bbox + r_height bbox <= sz_height (img_size image) ->
  exists node s',
    initLocalImage s = Ok node s' /\ bbox_ s' = bbox /\ log_ s' = log_ s.
Proof.
  intros image bbox Hsr Hbbox Hw Hh Hx Hy Hx' Hy'.
  assert (Hand : Rect_and (Rect_ofSize (img_size image)) bbox = bbox)
    by (apply Rect_and_inside; cbn; lia).
  assert (Heqb : Rect_eqb bbox bbox = true)
    by (unfold Rect_eqb; by rewrite !Z.eqb_refl).
  unfold initLocalImage. monad_unfold. cbn.
  fold image. rewrite Hsr, Hbbox. cbn. fold bbox. rewrite Hand.
  destruct (r_width bbox =? 0) eqn:E1; [apply Z.eqb_eq in E1; lia |].
  destruct (r_height bbox =? 0) eqn:E2; [apply Z.eqb_eq in E2; lia |].
  cbn. rewrite Heqb. cbn. eauto.
Qed.

(** X2.  Whatever the image and the arguments, the bounding box that
    [initLocalImage] leaves lies within the image; when it comes from a
    user's box it has a positive width and a positive height. *)
Theorem initLocalImage_bbox_within (s s' : OSN) (node : Node) :
  initLocalImage s = Ok node s' ->
  let image := openImage (a_image (args_ s)) in
  imageSize_ s' = img_size image /\
  (forall p, Rect_contains (bbox_ s') p = true ->
             Rect_contains (Rect_ofSize (imageSize_ s')) p = true) /\
  (isLocal (img_sr image) = false -> is_Some (a_bbox (args_ s)) ->
   0 < r_width (bbox_ s') /\ 0 < r_height (bbox_ s')) /\
  (isLocal (img_sr image) = true \/ a_bbox (args_ s) = None ->
   bbox_ s' = Rect_ofSize (img_size image)).
Proof.
  intros Hrun image. revert Hrun.
  unfold initLocalImage. monad_unfold. cbn. fold image.
  destruct (isLocal (img_sr image)) eqn:Hsr; cbn.
  - destruct (a_bbox (args_ s)) as [argsBbox|]; cbn;
      intros [= <- <-]; cbn; repeat split; try done.
  - destruct (a_bbox (args_ s)) as [argsBbox|]; cbn.
    + set (bbox := transformToInt _ argsBbox).
      destruct (Rect_and_size (Rect_ofSize (img_size image)) bbox)
        as [[Hw Hh] | Hzero].
      * destruct (r_width _ =? 0) eqn:E1; [apply Z.eqb_eq in E1; lia |].
        destruct (r_height _ =? 0) eqn:E2; [apply Z.eqb_eq in E2; lia |].
        cbn. destruct (Rect_eqb _ _); cbn; intros [= <- <-]; cbn;
          (split; [done |]; split;
           [intros p Hp; rewrite Rect_and_contains in Hp;
            by apply andb_true_iff in Hp as [? _] |];
           split; [done |]; by intros [? | ?]).
      * rewrite Hzero. cbn. done.
    + intros [= <- <-]. cbn. repeat split; try done.
      all: by intros _ [? ?].
Qed.

(** X3.  With a bounding box, [initMapServiceImage] returns: the output
    spatial reference is WGS84, the bounding box is the user's box taken to
    the service's projection and then to pixels, without any clipping, and
    the pixel-to-geographic chain is the inverse of that path.  The client
    is created, then connected once, then given its tile matrix; the image
    format, the layer and the tile matrix set are given only to the clients
    of EVWHS and DGCS. *)
Theorem initMapServiceImage_bbox (s : OSN) (argsBbox : Rect2d) :
  a_bbox (args_ s) = Some argsBbox ->
  let args := args_ s in
  let client := connectClient (a_source args) (a_mapId args) (a_token args)
                              (a_credentials args) (a_url args) (a_useTiles args) in
  let llToProj := T_fromLatLon (ms_sr client) in
  let projBbox := transformRect [llToProj] argsBbox in
  let image := ms_imageFromArea client projBbox in
  let projToPixel := T_inverse (img_pixelToProj image) in
  let wmts := match a_source args with
              | MAPS_API | TILE_JSON => false
              | _ => true
              end in
  exists node s',
    initMapServiceImage s = Ok node s' /\
    is_node "blockSource" MapServiceBlockSource node /\
    sr_ s' = WGS84 /\
    imageSize_ s' = img_size image /\
    bbox_ s' = transformToInt [projToPixel] projBbox /\
    pixelToLL_ s' = [T_inverse projToPixel; T_inverse llToProj] /\
    haveAlpha_ s' = ms_haveAlpha client /\
    exists connecting created,
      log_ s' =
        log_ s ++ [LogInfo connecting; ClientCreated created;
                   ClientConnect (a_source args)]
               ++ (if wmts
                   then [ClientSet "imageFormat" "image/jpeg";
                         ClientSet "layer" "DigitalGlobe:ImageryTileService";
                         ClientSet "tileMatrixSet" "EPSG:3857"]
                   else [])
               ++ [ClientSetTileMatrixId wmts (a_zoom args)] /\
      created = match a_source args with
                | MAPS_API => MAPS_API
                | EVWHS => EVWHS
                | TILE_JSON => TILE_JSON
                | _ => DGCS
                end.
Proof.
  intros Hbbox. cbv zeta.
  unfold initMapServiceImage. unfold bind at 1, get at 1. rewrite Hbbox.
  destruct (a_source (args_ s)); monad_unfold; cbn;
    do 2 eexists; (split; [reflexivity |]); cbn;
    (repeat split; try done);
    do 2 eexists; (split; [| reflexivity]);
    rewrite <- ?app_assoc; reflexivity.
Qed.

End ImageProperties.

(** ** The detector and the window plan *)

Section DetectorChecks.
Context `{World}.

(** [initDetector] step by step: the object it leaves and the three checks
    in the order they are made *)
Lemma initDetector_run (s0 : OSN) :
  let args := args_ s0 in
  let model := a_modelPackage args in
  let md := mp_metadata model in
  let ratio := aspectRatio model in
  let primarySize :=
    match a_windowSize args, a_resampledSize args with
    | w0 :: _, _ => mkSize w0 (roundMul ratio w0)
    | [], Some r => mkSize r (roundMul ratio r)
    | [], None => md_modelSize md
    end in
  let primaryStep :=
    match a_windowStep args with
    | s0 :: _ => mkPoint s0 (roundMul ratio s0)
    | [] => mp_defaultStep model primarySize
    end in
  let s1 := set_primaryWindowStep primaryStep
              (set_primaryWindowSize primarySize (set_model md ratio s0)) in
  initDetector s0 =
  if negb match a_resampledSize args with
          | Some r => r <=? sz_width (md_modelSize md)
          | None => true
          end
  then Throw ResampleSizeTooLarge s1
  else if match a_resampledSize args with
          | Some _ => false
          | None => negb (forallb (fun c => c <=? sz_width (md_modelSize md))
                                  (a_windowSize args))
          end
  then Throw WindowSizeTooLarge s1
  else if bool_decide (md_category md = "segmentation")
          && negb (mp_isSegmentation model)
  then Throw UnsupportedModelType s1
  else Ok (set_attr "confidence" (AFloat (fdiv (a_confidence args) (i2f 100)))
             (set_attr "model"
                (AModel model (negb (a_useCpu args))
                        (fdiv (a_maxUtilization args) (i2f 100)))
                (create (if bool_decide (md_category md = "segmentation")
                         then PolyDetector else BoxDetector) "detector")))
          s1.
Proof.
  cbv zeta. unfold initDetector.
  unfold bind, get, modify, ret, throw, DG_CHECK at 1 3. cbn.
  destruct (a_resampledSize (args_ s0)) as [r|]; cbn.
  - destruct (r <=? _); cbn; [| done].
    destruct (bool_decide _); cbn; [| done].
    by destruct (mp_isSegmentation _).
  - rewrite forM_DG_CHECK.
    destruct (forallb _ _); cbn; [| done].
    destruct (bool_decide _); cbn; [| done].
    by destruct (mp_isSegmentation _).
Qed.

(** X4.  [initDetector] returns exactly when its three checks pass: a
    resample size, if any, is at most the model's width; without a resample
    size every window size is at most the model's width; a model of
    category "segmentation" is a segmentation model.  The checks are made
    in that order, and window sizes are not checked when a resample size is
    given. *)
Theorem initDetector_checks (s0 : OSN) :
  let args := args_ s0 in
  let model := a_modelPackage args in
  let width := sz_width (md_modelSize (mp_metadata model)) in
  let resampleFits :=
    forall r, a_resampledSize args = Some r -> r <= width in
  let windowsFit :=
    a_resampledSize args = None ->
    Forall (fun c => c <= width) (a_windowSize args) in
  let modelFits :=
    md_category (mp_metadata model) = "segmentation" ->
    mp_isSegmentation model = true in
  (~ resampleFits -> exists s, initDetector s0 = Throw ResampleSizeTooLarge s) /\
  (resampleFits -> ~ windowsFit ->
   exists s, initDetector s0 = Throw WindowSizeTooLarge s) /\
  (resampleFits -> windowsFit -> ~ modelFits ->
   exists s, initDetector s0 = Throw UnsupportedModelType s) /\
  ((exists det s, initDetector s0 = Ok det s)
   <-> resampleFits /\ windowsFit /\ modelFits).
Proof.
  cbv zeta. rewrite initDetector_run. cbv zeta.
  set (width := sz_width (md_modelSize (mp_metadata (a_modelPackage (args_ s0))))).
  set (rb := match a_resampledSize (args_ s0) with
             | Some r => r <=? width | None => true end).
  set (wb := match a_resampledSize (args_ s0) with
             | Some _ => false
             | None => negb (forallb (fun c => c <=? width) (a_windowSize (args_ s0)))
             end).
  set (seg := bool_decide _).
  set (mb := seg && negb (mp_isSegmentation (a_modelPackage (args_ s0)))).
  assert (Hr : (forall r, a_resampledSize (args_ s0) = Some r -> r <= width)
               <-> rb = true).
  { unfold rb. destruct (a_resampledSize (args_ s0)) as [r|].
    - rewrite Z.leb_le. split; [eauto | by intros ? ? [= <-]].
    - done. }
  assert (Hw : (a_resampledSize (args_ s0) = None ->
                Forall (fun c => c <= width) (a_windowSize (args_ s0)))
               <-> wb = false).
  { unfold wb. destruct (a_resampledSize (args_ s0)) as [r|]; [done |].
    rewrite negb_false_iff, forallb_forall, Forall_forall.
    split.
    - intros Hall c Hc. apply Z.leb_le, Hall; [done | by apply list_elem_of_In].
    - intros Hall _ c Hc. apply Z.leb_le, Hall. by apply list_elem_of_In. }
  assert (Hm : (md_category (mp_metadata (a_modelPackage (args_ s0))) = "segmentation"
                -> mp_isSegmentation (a_modelPackage (args_ s0)) = true)
               <-> mb = false).
  { unfold mb, seg. destruct (mp_isSegmentation _); cbn.
    - by rewrite andb_false_r.
    - rewrite andb_true_r. split.
      + intros Hx. apply bool_decide_eq_false_2. intros Hc. by specialize (Hx Hc).
      + intros Hx Hc. apply bool_decide_eq_false_1 in Hx. done. }
  rewrite Hr, Hw, Hm. clear Hr Hw Hm.
  set (s1 := set_primaryWindowStep _ _). clearbody s1.
  set (det := set_attr "confidence" _ _). clearbody det.
  destruct rb, wb, mb; cbn; repeat split; intros; destruct_and?;
    repeat match goal with
           | Hex : exists _, _ |- _ => destruct Hex
           end;
    try done; eauto.
Qed.

End DetectorChecks.

Section WindowPlan.
Context `{World}.

Lemma initDetector_Ok_state (s0 s : OSN) (det : Node) :
  initDetector s0 = Ok det s ->
  let args := args_ s0 in
  let model := a_modelPackage args in
  let ratio := aspectRatio model in
  let primarySize :=
    match a_windowSize args, a_resampledSize args with
    | w0 :: _, _ => mkSize w0 (roundMul ratio w0)
    | [], Some r => mkSize r (roundMul ratio r)
    | [], None => md_modelSize (mp_metadata model)
    end in
  args_ s = args /\
  modelAspectRatio_ s = ratio /\
  primaryWindowSize_ s = primarySize /\
  primaryWindowStep_ s =
    match a_windowStep args with
    | s0 :: _ => mkPoint s0 (roundMul ratio s0)
    | [] => mp_defaultStep model primarySize
    end /\
  (a_resampledSize args = None ->
   Forall (fun c => c <= sz_width (md_modelSize (mp_metadata model)))
          (a_windowSize args)) /\
  (forall r, a_resampledSize args = Some r ->
             r <= sz_width (md_modelSize (mp_metadata model))).
Proof.
  intros Hrun. rewrite initDetector_run in Hrun. cbv zeta in Hrun.
  destruct (negb _) eqn:Hr in Hrun; [discriminate Hrun |].
  destruct (match a_resampledSize (args_ s0) with
            | Some _ => false
            | None => _
            end) eqn:Hw in Hrun; [discriminate Hrun |].
  destruct (_ && _) in Hrun; [discriminate Hrun |].
  injection Hrun as _ <-. cbv zeta.
  split; [done |]. split; [done |]. split; [done |]. split; [done |].
  split.
  - intros Hnone. rewrite Hnone in Hw.
    apply negb_false_iff in Hw. rewrite forallb_forall in Hw.
    apply Forall_forall. intros c Hc.
    apply Z.leb_le, Hw. by apply list_elem_of_In.
  - intros r Hsome. rewrite Hsome in Hr.
    apply negb_false_iff in Hr. by apply Z.leb_le.
Qed.

(** X5.  With several window sizes and at most one window step, every
    size is paired with the one step: the step given, or else the model's
    default step for the first size.  With several steps and at most one
    size, every step is paired with the one size: the size given, or else
    the resample size, or else the model's size. *)
Theorem calcWindows_broadcast (s0 s : OSN) (det : Node) :
  initDetector s0 = Ok det s ->
  let args := args_ s0 in
  let model := a_modelPackage args in
  let ratio := aspectRatio model in
  let size c := mkSize c (roundMul ratio c) in
  let step c := mkPoint c (roundMul ratio c) in
  (forall w0 w1 sizes,
     a_windowSize args = w0 :: w1 :: sizes ->
     (a_windowStep args = [] ->
      calcWindows s
      = Ok ((fun c => (size c, mp_defaultStep model (size w0)))
              <$> a_windowSize args) s) /\
     (forall st, a_windowStep args = [st] ->
      calcWindows s
      = Ok ((fun c => (size c, step st)) <$> a_windowSize args) s)) /\
  (forall st0 st1 steps,
     a_windowStep args = st0 :: st1 :: steps ->
     (forall w, a_windowSize args = [w] ->
      calcWindows s
      = Ok ((fun c => (size w, step c)) <$> a_windowStep args) s) /\
     (a_windowSize args = [] ->
      calcWindows s
      = Ok ((fun c => (match a_resampledSize args with
                       | Some r => size r
                       | None => md_modelSize (mp_metadata model)
                       end, step c)) <$> a_windowStep args) s)).
Proof.
  intros Hinit. cbv zeta.
  apply initDetector_Ok_state in Hinit as (Hargs & Hratio & Hsize & Hstep & _).
  unfold calcWindows, bind, get, DG_CHECK, ret. cbn beta iota.
  rewrite Hargs, Hratio, Hsize, Hstep.
  split.
  - intros w0 w1 sizes Hsizes. rewrite Hsizes. split.
    + intros ->. reflexivity.
    + intros st ->. reflexivity.
  - intros st0 st1 steps Hsteps. rewrite Hsteps. split.
    + intros w ->. reflexivity.
    + intros ->. reflexivity.
Qed.

(** X6.  With at most one window size and at most one window step the
    plan is the single pair of the primary size and the primary step; with
    neither given (and no resample size) it is the model's size with the
    model's default step for it. *)
Theorem calcWindows_single (s0 s : OSN) (det : Node) :
  initDetector s0 = Ok det s ->
  (length (a_windowSize (args_ s0)) <= 1)%nat ->
  (length (a_windowStep (args_ s0)) <= 1)%nat ->
  let model := a_modelPackage (args_ s0) in
  calcWindows s = Ok [(primaryWindowSize_ s, primaryWindowStep_ s)] s /\
  (a_windowSize (args_ s0) = [] -> a_windowStep (args_ s0) = [] ->
   a_resampledSize (args_ s0) = None ->
   calcWindows s
   = Ok [(md_modelSize (mp_metadata model),
          mp_defaultStep model (md_modelSize (mp_metadata model)))] s).
Proof.
  intros Hinit Hw Hs. cbv zeta.
  apply initDetector_Ok_state in Hinit as (Hargs & Hratio & Hsize & Hstep & _).
  assert (Hrun : calcWindows s = Ok [(primaryWindowSize_ s, primaryWindowStep_ s)] s).
  { unfold calcWindows, bind, get, DG_CHECK, ret. cbn beta iota.
    rewrite Hargs, Hratio.
    destruct (a_windowSize (args_ s0)) as [|w [|]]; [| | cbn in Hw; lia];
      destruct (a_windowStep (args_ s0)) as [|st [|]]; try (cbn in Hs; lia);
      cbn; rewrite ?Hsize, ?Hstep; reflexivity. }
  split; [exact Hrun |].
  intros Hw0 Hs0 Hr0. rewrite Hrun, Hsize, Hstep, Hw0, Hs0, Hr0. reflexivity.
Qed.

(** X7.  A plan is never empty: it has as many entries as the longer of
    the two lists, and one entry when both lists are empty. *)
Theorem calcWindows_length (s s' : OSN) (plan : SizeSteps) :
  calcWindows s = Ok plan s' ->
  length plan
  = Nat.max 1 (Nat.max (length (a_windowSize (args_ s)))
                       (length (a_windowStep (args_ s)))).
Proof.
  unfold calcWindows, bind, get, DG_CHECK, ret, throw. cbv beta iota.
  destruct (Nat.ltb_spec (length (a_windowSize (args_ s))) 2) as [Hw2 | Hw2];
  destruct (Nat.ltb_spec (length (a_windowStep (args_ s))) 2) as [Hs2 | Hs2];
  destruct (Nat.eqb_spec (length (a_windowSize (args_ s)))
                         (length (a_windowStep (args_ s)))) as [Heq | Heq];
  destruct (Nat.eqb_spec (length (a_windowStep (args_ s))) 0) as [Hs0 | Hs0];
  destruct (Nat.ltb_spec 1 (length (a_windowSize (args_ s)))) as [Hw1 | Hw1];
  destruct (Nat.ltb_spec 1 (length (a_windowStep (args_ s)))) as [Hs1 | Hs1];
  cbv beta iota delta [orb andb negb]; try lia; try discriminate;
  intros Hplan; injection Hplan as <- _;
  rewrite ?length_fmap, ?length_zip_with; cbn [length]; lia.
Qed.

(** X8.  When no resample size is requested, no window of the plan is
    wider than the model. *)
Theorem calcWindows_widths (s0 s s' : OSN) (det : Node) (plan : SizeSteps) :
  initDetector s0 = Ok det s ->
  a_resampledSize (args_ s0) = None ->
  calcWindows s = Ok plan s' ->
  Forall (fun spec =>
            sz_width spec.1
            <= sz_width (md_modelSize (mp_metadata (a_modelPackage (args_ s0)))))
         plan.
Proof.
  intros Hinit Hr.
  apply initDetector_Ok_state in Hinit
    as (Hargs & Hratio & Hsize & Hstep & Hfit & _).
  specialize (Hfit Hr). rewrite Hr in Hsize.
  assert (Hprimary : sz_width (primaryWindowSize_ s)
                     <= sz_width (md_modelSize (mp_metadata (a_modelPackage (args_ s0))))).
  { rewrite Hsize. destruct (a_windowSize (args_ s0)) as [|w0 ws]; [done |].
    by apply Forall_cons in Hfit as [? _]. }
  unfold calcWindows. unfold bind at 1, get at 1. unfold bind, DG_CHECK.
  rewrite Hargs.
  destruct (_ || _ || _); cbn; [| done].
  repeat match goal with
         | |- (if ?c then _ else _) _ = _ -> _ => destruct c
         end; (unfold ret; intros Hplan; injection Hplan as <- _).
  - apply Forall_fmap, Forall_forall. intros [w st] Hin. cbn.
    apply elem_of_zip_l in Hin. rewrite Forall_forall in Hfit. by apply Hfit.
  - apply Forall_fmap. eapply Forall_impl; [exact Hfit |]. done.
  - apply Forall_fmap, Forall_forall. by intros st _.
  - by apply Forall_singleton.
Qed.

End WindowPlan.

(** ** The region filter, entry by entry *)

Section RegionFilterLoop.
Context `{World}.

Lemma frame_ret {A} (a : A) : reads_only_frame (ret a).
Proof. done. Qed.

Lemma frame_throw {A} (e : Error) : reads_only_frame (throw (A := A) e).
Proof. done. Qed.

Lemma frame_self {A} (m : M A) (s : OSN) :
  reads_only_frame m ->
  m s = match m s with Ok r _ => Ok r s | Throw e _ => Throw e s end.
Proof. intros Hm. by apply Hm. Qed.

Lemma frame_Ok {A} (m : M A) (s s' : OSN) (r : A) :
  reads_only_frame m -> m s = Ok r s' -> s' = s.
Proof.
  intros Hm Hrun. pose proof (frame_self m s Hm) as Hself.
  rewrite Hrun in Hself. by injection Hself.
Qed.

Lemma frame_bind {A B} (m : M A) (k : A -> M B) :
  reads_only_frame m -> (forall a, reads_only_frame (k a)) ->
  reads_only_frame (bind m k).
Proof.
  intros Hm Hk s s1 Hsr Hll. unfold bind.
  rewrite (Hm s s1 Hsr Hll), (frame_self m s Hm).
  destruct (m s) as [a s' | e s']; [| done].
  by apply Hk.
Qed.

Lemma frame_foldM {A B} (body : B -> A -> M B) (l : list A) (b : B) :
  (forall b x, reads_only_frame (body b x)) ->
  reads_only_frame (foldM body l b).
Proof.
  intros Hbody. revert b. induction l as [|x l IH]; intros b; cbn [foldM].
  - apply frame_ret.
  - apply frame_bind; [apply Hbody | intros b'; apply IH].
Qed.

Lemma layerTransform_frame file layer :
  reads_only_frame (layerTransform file layer).
Proof.
  intros s s1 Hsr Hll. unfold layerTransform. monad_unfold.
  rewrite Hsr, Hll.
  by destruct (isLocal (l_sr layer)), (isLocal (sr_ s)).
Qed.

Lemma addFeature_frame file transform polys feature :
  reads_only_frame (addFeature file transform polys feature).
Proof.
  intros s s1 _ _. unfold addFeature.
  by destruct (negb (GeometryType_eqb (f_type feature) POLYGON)).
Qed.

Lemma addLayer_frame file polys layer :
  reads_only_frame (addLayer file polys layer).
Proof.
  unfold addLayer. apply frame_bind; [apply layerTransform_frame |].
  intros t. apply frame_foldM. intros. apply addFeature_frame.
Qed.

Lemma addFile_frame polys file : reads_only_frame (addFile polys file).
Proof. unfold addFile. apply frame_foldM. intros. apply addLayer_frame. Qed.

Lemma addFiles_frame files polys : reads_only_frame (foldM addFile files polys).
Proof. apply frame_foldM. intros. apply addFile_frame. Qed.

(** the transformation into pixel space of the polygons of a layer *)
Lemma layerTransform_match (s : OSN) (file : string) (layer : Layer) :
  isLocal (l_sr layer) = isLocal (sr_ s) ->
  layerTransform file layer s
  = Ok (chain_inverse (if isLocal (sr_ s) then pixelToLL_ s
                       else chain_append (pixelToLL_ s)
                                         (T_from (l_sr layer) WGS84))) s.
Proof.
  intros Heq. unfold layerTransform. monad_unfold. rewrite Heq.
  by destruct (isLocal (sr_ s)).
Qed.

Lemma addFeatures_run (s : OSN) (file : string) (t : TransformationChain)
    (features : list Feature) (polys : list Geometry) :
  foldM (addFeature file t) features polys s
  = if forallb (fun f => GeometryType_eqb (f_type f) POLYGON) features
    then Ok (polys ++ ((fun f => transformGeometry t (f_geometry f)) <$> features)) s
    else Throw (FilterNotPolygon file) s.
Proof.
  revert polys. induction features as [|f features IH]; intros polys.
  - cbn. by rewrite app_nil_r.
  - cbn [foldM forallb]. unfold bind, addFeature at 1.
    destruct (GeometryType_eqb (f_type f) POLYGON); cbn; [| done].
    rewrite IH. destruct (forallb _ features); [| done].
    by rewrite <- app_assoc.
Qed.

Lemma forallb_polygon (features : list Feature) :
  forallb (fun f => GeometryType_eqb (f_type f) POLYGON) features = true
  <-> Forall (fun f => f_type f = POLYGON) features.
Proof.
  rewrite forallb_forall, Forall_forall. split.
  - intros Hf f Hin. apply list_elem_of_In, Hf in Hin. by destruct (f_type f).
  - intros Hf f Hin. apply list_elem_of_In, Hf in Hin. by rewrite Hin.
Qed.

Lemma addLayer_run (s : OSN) (file : string) (layer : Layer)
    (polys : list Geometry) :
  isLocal (l_sr layer) = isLocal (sr_ s) ->
  addLayer file polys layer s
  = if forallb (fun f => GeometryType_eqb (f_type f) POLYGON) (l_features layer)
    then Ok (polys ++
             ((fun f => transformGeometry
                          (chain_inverse
                             (if isLocal (sr_ s) then pixelToLL_ s
                              else pixelToLL_ s ++ [T_from (l_sr layer) WGS84]))
                          (f_geometry f)) <$> l_features layer)) s
    else Throw (FilterNotPolygon file) s.
Proof.
  intros Heq. unfold addLayer, bind. rewrite layerTransform_match by done.
  apply addFeatures_run.
Qed.

(** X9.  A layer of the image's anchoring adds its polygons to the list
    in the order of its features, each taken to pixel space by the inverse
    of the pixel-to-geographic chain, extended by the layer's transformation
    from WGS84 when the image has a coordinate reference system; a feature
    that is not a polygon stops the builder with the error that names the
    file, and nothing is added. *)
Theorem addLayer_polygons (s : OSN) (file : string) (layer : Layer)
    (polys : list Geometry) :
  isLocal (l_sr layer) = isLocal (sr_ s) ->
  let transform :=
    chain_inverse (if isLocal (sr_ s) then pixelToLL_ s
                   else pixelToLL_ s ++ [T_from (l_sr layer) WGS84]) in
  (Forall (fun f => f_type f = POLYGON) (l_features layer) ->
   addLayer file polys layer s
   = Ok (polys ++ ((fun f => transformGeometry transform (f_geometry f))
                     <$> l_features layer)) s) /\
  (~ Forall (fun f => f_type f = POLYGON) (l_features layer) ->
   addLayer file polys layer s = Throw (FilterNotPolygon file) s).
Proof.
  intros Heq transform. rewrite (addLayer_run s file layer polys Heq).
  fold transform. split.
  - intros Hf. apply forallb_polygon in Hf. by rewrite Hf.
  - intros Hf. destruct (forallb _ _) eqn:Hall; [| done].
    by destruct Hf; apply forallb_polygon.
Qed.

Lemma addLayer_Ok_iff (s : OSN) (file : string) (layer : Layer)
    (polys : list Geometry) :
  (exists r s', addLayer file polys layer s = Ok r s') <-> layer_fits s layer.
Proof.
  unfold layer_fits. split.
  - intros (r & s' & Hrun).
    assert (Heq : isLocal (l_sr layer) = isLocal (sr_ s)).
    { unfold addLayer in Hrun. apply bind_Ok_inv in Hrun as (t & s1 & Ht & _).
      by apply layerTransform_Ok in Ht. }
    split; [done |]. rewrite addLayer_run in Hrun by done.
    apply forallb_polygon. by destruct (forallb _ _).
  - intros [Heq Hf]. rewrite addLayer_run by done.
    apply forallb_polygon in Hf. rewrite Hf. eauto.
Qed.

(** a loop over a body that reads only the frame returns exactly when
    the body returns at every element *)
Lemma foldM_Ok_iff {A B} (body : B -> A -> M B) (P : A -> Prop) (s : OSN) :
  (forall b x, reads_only_frame (body b x)) ->
  (forall b x, (exists r s', body b x s = Ok r s') <-> P x) ->
  forall l b, (exists r s', foldM body l b s = Ok r s') <-> Forall P l.
Proof.
  intros Hframe Hbody. induction l as [|x l IH]; intros b; cbn [foldM].
  - split; [by intros _ | eauto].
  - rewrite Forall_cons. unfold bind.
    rewrite (frame_self _ s (Hframe b x)).
    split.
    + intros (r & s' & Hrun).
      destruct (body b x s) as [b1 s1 | e s1] eqn:Hx; [| done].
      split; [apply (Hbody b x); eauto | apply (IH b1); eauto].
    + intros [Hx Hl]. apply (Hbody b x) in Hx as (b1 & s1 & ->).
      by apply IH.
Qed.

Lemma addFile_Ok_iff (s : OSN) (file : string) (polys : list Geometry) :
  (exists r s', addFile polys file s = Ok r s')
  <-> Forall (layer_fits s) (openFeatureSet file).
Proof.
  unfold addFile. apply foldM_Ok_iff.
  - intros. apply addLayer_frame.
  - intros. apply addLayer_Ok_iff.
Qed.

Lemma addFiles_Ok_iff (s : OSN) (files : list string) (polys : list Geometry) :
  (exists r s', foldM addFile files polys s = Ok r s')
  <-> Forall (fun file => Forall (layer_fits s) (openFeatureSet file)) files.
Proof.
  apply foldM_Ok_iff.
  - intros. apply addFile_frame.
  - intros. apply addFile_Ok_iff.
Qed.


Lemma entry_fits_frame (s s1 : OSN) (entry : string * list string) :
  sr_ s1 = sr_ s -> entry_fits s1 entry <-> entry_fits s entry.
Proof.
  intros Hsr. unfold entry_fits, layer_fits. by rewrite Hsr.
Qed.

(** one entry: what is thrown and what is returned *)
Lemma applyAction_run (st : RegionFilter * bool)
    (entry : string * list string) (s : OSN) :
  applyAction st entry s =
  match foldM addFile entry.2 [] s with
  | Throw e s' => Throw e s'
  | Ok polys _ =>
      if bool_decide (entry.1 = "include") then
        Ok (rf_push (Add polys) st.1, false) s
      else if bool_decide (entry.1 = "exclude") then
        if st.2 then
          Ok (rf_push (Subtract polys)
                (rf_push (Add [rectPolygon (filterExtent s)]) st.1), false)
             (logged (LogInfo "User excluded regions first...automatically including the bounding box...") s)
        else Ok (rf_push (Subtract polys) st.1, false) s
      else Throw (UnknownFilterAction entry.1) s
  end.
Proof.
  unfold applyAction. unfold bind at 1.
  rewrite (frame_self _ s (addFiles_frame entry.2 [])).
  destruct (foldM addFile entry.2 [] s) as [polys s1 | e s1]; [| done].
  destruct (bool_decide (entry.1 = "include")); [done |].
  destruct (bool_decide (entry.1 = "exclude")); [| done].
  unfold bind at 1, get at 1. by destruct st.2.
Qed.

(** the loop over the entries, from any point of it *)
Lemma applyActions_fit (s : OSN) (defs : list (string * list string)) :
  Forall (entry_fits s) defs ->
  forall (rf : RegionFilter) (first : bool) (s1 : OSN),
    sr_ s1 = sr_ s -> pixelToLL_ s1 = pixelToLL_ s -> bbox_ s1 = bbox_ s ->
    exists rf' first' s2 ops,
      foldM applyAction defs (rf, first) s1 = Ok (rf', first') s2 /\
      rf_rect rf' = rf_rect rf /\ rf_step rf' = rf_step rf /\
      rf_ops rf' =
        rf_ops rf
        ++ match defs with
           | entry :: _ =>
               if first && bool_decide (entry.1 = "exclude")
               then [Add [rectPolygon (filterExtent s)]] else []
           | [] => []
           end
        ++ ops /\
      Forall2 (entry_op s) defs ops.
Proof.
  induction 1 as [|entry defs Hentry Hdefs IH]; intros rf first s1 Hsr Hll Hbbox.
  - exists rf, first, s1, []. cbn. rewrite app_nil_r. by repeat split.
  - destruct Hentry as [Haction Hfiles].
    apply (addFiles_Ok_iff s entry.2 []) in Hfiles as (polys & s' & Hload).
    assert (Hload' : foldM addFile entry.2 [] s = Ok polys s)
      by (by rewrite <- (frame_Ok _ _ _ _ (addFiles_frame entry.2 []) Hload) at 2).
    clear Hload.
    assert (Hload1 : foldM addFile entry.2 [] s1 = Ok polys s1)
      by (by rewrite (addFiles_frame entry.2 [] s s1 Hsr Hll), Hload').
    assert (Hextent : filterExtent s1 = filterExtent s)
      by (unfold filterExtent; by rewrite Hbbox).
    cbn [foldM]. unfold bind at 1. rewrite applyAction_run, Hload1. cbn [fst snd].
    destruct Haction as [Hinc | Hexc].
    + rewrite Hinc. rewrite bool_decide_eq_true_2 by done.
      destruct (IH (rf_push (Add polys) rf) false s1 Hsr Hll Hbbox)
        as (rf' & first' & s2 & ops & Hrun & Hrect & Hstep & Hops & Hall).
      exists rf', first', s2, (Add polys :: ops).
      split; [exact Hrun |]. split; [done |]. split; [done |]. split.
      * rewrite Hops. cbn [rf_ops rf_push].
        rewrite (bool_decide_eq_false_2 ("include" = "exclude")) by done.
        rewrite andb_false_r.
        destruct defs; cbn; by rewrite <- !app_assoc.
      * constructor; [| done]. exists polys. rewrite Hinc. eauto.
    + rewrite Hexc. rewrite bool_decide_eq_false_2 by done.
      rewrite !bool_decide_eq_true_2 by done. rewrite andb_true_r.
      destruct first.
      * destruct (IH (rf_push (Subtract polys)
                        (rf_push (Add [rectPolygon (filterExtent s1)]) rf)) false
                     (logged (LogInfo "User excluded regions first...automatically including the bounding box...") s1))
          as (rf' & first' & s2 & ops & Hrun & Hrect & Hstep & Hops & Hall);
          [done | done | done |].
        exists rf', first', s2, (Subtract polys :: ops).
        split; [exact Hrun |]. split; [done |]. split; [done |]. split.
        -- rewrite Hops, Hextent. cbn [rf_ops rf_push].
           destruct defs; cbn; by rewrite <- !app_assoc.
        -- constructor; [| done]. exists polys. rewrite Hexc. eauto.
      * destruct (IH (rf_push (Subtract polys) rf) false s1 Hsr Hll Hbbox)
          as (rf' & first' & s2 & ops & Hrun & Hrect & Hstep & Hops & Hall).
        exists rf', first', s2, (Subtract polys :: ops).
        split; [exact Hrun |]. split; [done |]. split; [done |]. split.
        -- rewrite Hops. cbn [rf_ops rf_push].
           destruct defs; cbn; by rewrite <- !app_assoc.
        -- constructor; [| done]. exists polys. rewrite Hexc. eauto.
Qed.

Lemma applyAction_Ok_fits (s s1 s2 : OSN) (st st' : RegionFilter * bool)
    (entry : string * list string) :
  sr_ s1 = sr_ s ->
  applyAction st entry s1 = Ok st' s2 ->
  entry_fits s entry /\ sr_ s2 = sr_ s /\ pixelToLL_ s2 = pixelToLL_ s1
  /\ bbox_ s2 = bbox_ s1.
Proof.
  intros Hsr Hrun.
  pose proof (preserves_Ok _ _ _ _ _ (applyAction_keeps st entry) Hrun)
    as (_ & _ & Hbbox & _ & _ & Hsr2 & Hll2 & _).
  split; [| by rewrite Hsr2].
  apply (entry_fits_frame s s1 entry Hsr).
  rewrite applyAction_run in Hrun. split.
  - destruct (foldM addFile entry.2 [] s1); [| done].
    destruct (bool_decide (entry.1 = "include")) eqn:Hi;
      [left; by apply bool_decide_eq_true_1 in Hi |].
    destruct (bool_decide (entry.1 = "exclude")) eqn:He; [| done].
    right. by apply bool_decide_eq_true_1 in He.
  - apply (addFiles_Ok_iff s1 entry.2 []).
    destruct (foldM addFile entry.2 [] s1) as [polys s'|] eqn:Hload; [eauto | done].
Qed.

Lemma applyActions_Ok_fit (s : OSN) (defs : list (string * list string)) :
  forall (st st' : RegionFilter * bool) (s1 s2 : OSN),
    sr_ s1 = sr_ s ->
    foldM applyAction defs st s1 = Ok st' s2 ->
    Forall (entry_fits s) defs.
Proof.
  induction defs as [|entry defs IH]; intros st st' s1 s2 Hsr Hrun; [done |].
  cbn [foldM] in Hrun. apply bind_Ok_inv in Hrun as (st1 & s1' & Hentry & Hrun).
  apply (applyAction_Ok_fits s) in Hentry as (Hfits & Hsr' & _); [| done].
  constructor; [done |]. by eapply IH.
Qed.

(** X10.  The builder returns a filter exactly when every entry of the
    definition has the action "include" or "exclude" and names only files
    whose layers have the image's anchoring and hold only polygons. *)
Theorem buildRegionFilter_returns_iff (s : OSN) :
  (exists rf s', buildRegionFilter s = Ok rf s')
  <-> Forall (entry_fits s) (a_filterDefinition (args_ s)).
Proof.
  unfold buildRegionFilter. unfold bind at 1, get at 1. split.
  - intros (rf & s' & Hrun).
    apply bind_Ok_inv in Hrun as (st & s1 & Hrun & _).
    by eapply (applyActions_Ok_fit s) in Hrun.
  - intros Hfit.
    destruct (applyActions_fit s _ Hfit
                {| rf_rect := filterExtent s; rf_step := primaryWindowStep_ s;
                   rf_ops := [] |} true s)
      as (rf' & first' & s2 & ops & Hrun & _); [done .. |].
    unfold bind. rewrite Hrun. eauto.
Qed.

(** X11.  A filter that is built is made for the rectangle
    [(0, 0, bbox.width, bbox.height)] and the primary window step, and
    holds one operation for each entry of the definition, in their order:
    an addition of the entry's polygons for "include", a subtraction for
    "exclude".  The only other operation is the addition of the rectangle,
    in front of them, when the first entry is "exclude". *)
Theorem buildRegionFilter_operations (s s' : OSN) (rf : RegionFilter) :
  buildRegionFilter s = Ok rf s' ->
  rf_rect rf = filterExtent s /\
  rf_step rf = primaryWindowStep_ s /\
  exists ops,
    rf_ops rf =
      match a_filterDefinition (args_ s) with
      | entry :: _ =>
          if bool_decide (entry.1 = "exclude")
          then [Add [rectPolygon (filterExtent s)]] else []
      | [] => []
      end ++ ops /\
    Forall2 (entry_op s) (a_filterDefinition (args_ s)) ops.
Proof.
  intros Hrun.
  assert (Hfit : Forall (entry_fits s) (a_filterDefinition (args_ s))).
  { unfold buildRegionFilter in Hrun.
    apply bind_Ok_inv in Hrun as (s0 & ? & [= <- <-] & Hrun). cbv zeta in Hrun.
    apply bind_Ok_inv in Hrun as (st & s1 & Hrun & _).
    by eapply (applyActions_Ok_fit s) in Hrun. }
  destruct (applyActions_fit s _ Hfit
              {| rf_rect := filterExtent s; rf_step := primaryWindowStep_ s;
                 rf_ops := [] |} true s)
    as (rf' & first' & s2 & ops & Hloop & Hrect & Hstep & Hops & Hall); [done .. |].
  unfold buildRegionFilter in Hrun. unfold bind at 1, get at 1 in Hrun.
  unfold bind in Hrun. rewrite Hloop in Hrun. injection Hrun as <- <-.
  cbn in Hrect, Hstep, Hops. split; [done |]. split; [done |].
  exists ops. split; [| done]. rewrite Hops.
  by destruct (a_filterDefinition (args_ s)).
Qed.

Lemma addLayer_Throw (s s' : OSN) (file : string) (layer : Layer)
    (polys : list Geometry) (e : Error) :
  addLayer file polys layer s = Throw e s' ->
  CrsMismatch file e \/ e = FilterNotPolygon file.
Proof.
  destruct (decide (isLocal (l_sr layer) = isLocal (sr_ s))) as [Heq | Hne].
  - rewrite addLayer_run by done. destruct (forallb _ _); [done |].
    intros [= <- _]. by right.
  - unfold addLayer, bind. rewrite layerTransform_mismatch by done.
    intros [= <- _]. left. unfold CrsMismatch.
    destruct (isLocal (l_sr layer)); eauto.
Qed.

Lemma addFile_Throw (s s' : OSN) (file : string) (polys : list Geometry)
    (e : Error) :
  addFile polys file s = Throw e s' ->
  CrsMismatch file e \/ e = FilterNotPolygon file.
Proof.
  unfold addFile. revert polys s.
  induction (openFeatureSet file) as [|layer layers IH]; intros polys s; [done |].
  cbn [foldM]. unfold bind.
  destruct (addLayer file polys layer s) as [polys1 s1 | e1 s1] eqn:Hlayer.
  - apply IH.
  - intros [= <- _]. by eapply addLayer_Throw.
Qed.

Lemma addFiles_Throw (s s' : OSN) (files : list string) (polys : list Geometry)
    (e : Error) :
  foldM addFile files polys s = Throw e s' -> file_error files e.
Proof.
  revert polys s. induction files as [|file files IH]; intros polys s; [done |].
  cbn [foldM]. unfold bind.
  destruct (addFile polys file s) as [polys1 s1 | e1 s1] eqn:Hfile.
  - intros Hrun. destruct (IH _ _ Hrun) as (f & Hin & Herr).
    exists f. split; [by apply elem_of_cons; right | done].
  - intros [= <- _]. exists file. split; [by apply elem_of_cons; left |].
    by eapply addFile_Throw.
Qed.

(** X12.  The action of an entry is looked at after its files are read:
    for the first entry of a definition, an action that is neither
    "include" nor "exclude" is reported as unknown when the files fit, and
    otherwise the builder ends with the error of one of the files, a
    spatial-reference error or the not-a-polygon error. *)
Theorem unknown_action_after_files (s : OSN) (action : string)
    (files : list string) (rest : list (string * list string)) :
  a_filterDefinition (args_ s) = (action, files) :: rest ->
  action <> "include" -> action <> "exclude" ->
  (Forall (fun file => Forall (layer_fits s) (openFeatureSet file)) files ->
   buildRegionFilter s = Throw (UnknownFilterAction action) s) /\
  (~ Forall (fun file => Forall (layer_fits s) (openFeatureSet file)) files ->
   exists e, buildRegionFilter s = Throw e s /\ file_error files e).
Proof.
  intros Hdefs Hinc Hexc.
  assert (Hrun : buildRegionFilter s =
                 match foldM addFile files [] s with
                 | Ok _ _ => Throw (UnknownFilterAction action) s
                 | Throw e s' => Throw e s'
                 end).
  { unfold buildRegionFilter. unfold bind at 1, get at 1. rewrite Hdefs.
    cbn [foldM]. unfold bind at 1 2. rewrite applyAction_run. cbn [fst snd].
    destruct (foldM addFile files [] s); [| done].
    by rewrite !bool_decide_eq_false_2 by done. }
  rewrite Hrun. split.
  - intros Hfit. apply (addFiles_Ok_iff s files []) in Hfit as (polys & s1 & Hload).
    by rewrite Hload.
  - intros Hfit.
    pose proof (frame_self _ s (addFiles_frame files [])) as Hself.
    destruct (foldM addFile files [] s) as [polys s1 | e s1] eqn:Hload.
    { destruct Hfit. apply (addFiles_Ok_iff s files []). eauto. }
    injection Hself as ->. exists e. split; [done |].
    by eapply addFiles_Throw.
Qed.

End RegionFilterLoop.

(** ** A layer of another anchoring, wherever it is in the definition *)

Section CrsMismatchReached.
Context `{World}.



End CrsMismatchReached.

(** ** The graph as a chain of stages *)

Section Shape.
Context `{World}.

Lemma dom_check (m : gmap string Node) (l : list string) :
  forallb (fun kv => bool_decide (kv.1 ∈ l)) (map_to_list m) = true ->
  dom m ⊆ list_to_set l.
Proof.
  intros Hall name Hin. apply elem_of_dom in Hin as [n Hlook].
  apply elem_of_map_to_list in Hlook.
  rewrite forallb_forall in Hall.
  apply list_elem_of_In, Hall, bool_decide_eq_true_1 in Hlook.
  by apply elem_of_list_to_set.
Qed.

Lemma initLabelFilter_shape (s : OSN) (isSegmentation : bool) :
  initLabelFilter s isSegmentation = None \/
  exists attrs,
    initLabelFilter s isSegmentation
    = Some (mkNode _ "labelFilter"
                   (if isSegmentation then PolyLabelFilter else BoxLabelFilter)
                   attrs).
Proof.
  unfold initLabelFilter.
  destruct (a_excludeLabels (args_ s)), (a_includeLabels (args_ s));
    [by left | right ..]; destruct isSegmentation; eexists; reflexivity.
Qed.

Lemma initNms_shape (s : OSN) (isSegmentation : bool) :
  initNms s isSegmentation =
  if a_nms (args_ s)
  then Some (mkNode _ "nms"
                    (if isSegmentation then PolyNonMaxSuppression
                     else BoxNonMaxSuppression)
                    {["overlapThreshold" :=
                        AFloat (fdiv (a_overlap (args_ s)) (i2f 100))]})
  else None.
Proof.
  unfold initNms. destruct (a_nms (args_ s)); [| done].
  by destruct isSegmentation.
Qed.

(** the wiring and the nodes of an assembled graph, from the nodes that
    are present *)
Lemma assemble_chain (args : Args) (md : ModelMetadata) (s3 s4 : OSN)
    (blockSource model : Node) (subsetFilter : option Node)
    (slidingWindow : Node) (wfsExtractor : option Node) (bsKind : NodeKind) :
  is_node "blockSource" bsKind blockSource ->
  is_node "detector"
          (if bool_decide (md_category md = "segmentation")
           then PolyDetector else BoxDetector) model ->
  (forall n, subsetFilter = Some n -> is_node "regionFilter" SubsetRegionFilter n) ->
  is_node "slidingWindow" SlidingWindow slidingWindow ->
  (forall n, wfsExtractor = Some n ->
             is_node "fieldExtractor" WfsFeatureFieldExtractor n) ->
  let g := assemble args md s3 s4 blockSource model subsetFilter slidingWindow
                    wfsExtractor in
  let isSegmentation := bool_decide (md_category md = "segmentation") in
  g_inputs g = list_to_map (chainEdges (stages g)) /\
  kind_of g <$> stageOrder =
    [Some bsKind;
     if haveAlpha_ s3 then Some RemoveBandByColorInterp else None;
     Some BlockCache; Some SubsetWithBorder;
     if subsetFilter is Some _ then Some SubsetRegionFilter else None;
     Some SlidingWindow;
     Some (if isSegmentation then PolyDetector else BoxDetector);
     if initLabelFilter s3 isSegmentation is Some _
     then Some (if isSegmentation then PolyLabelFilter else BoxLabelFilter)
     else None;
     if a_nms (args_ s3)
     then Some (if isSegmentation then PolyNonMaxSuppression
                else BoxNonMaxSuppression)
     else None;
     if isSegmentation then None else Some PredictionBoxToPoly;
     Some PredictionToFeature;
     if wfsExtractor is Some _ then Some WfsFeatureFieldExtractor else None;
     Some FileFeatureSink] /\
  dom (g_nodes g) ⊆ list_to_set stageOrder.
Proof.
  intros HblockSource Hmodel HsubsetFilter HslidingWindow HwfsExtractor.
  cbv zeta. unfold assemble. rewrite initNms_shape.
  set (isSegmentation := bool_decide _) in *.
  destruct (initLabelFilter_shape s3 isSegmentation) as [-> | [lfAttrs ->]];
  set (predictionToFeature := initPredictionToFeature s3);
  assert (Hp2f : exists attrs, predictionToFeature
                               = mkNode _ "predToFeature" PredictionToFeature attrs)
    by (eexists; reflexivity);
  destruct Hp2f as [p2fAttrs ->];
  set (featureSink := initFeatureSink s4);
  assert (Hsink : exists attrs, featureSink
                                = mkNode _ "featureSink" FileFeatureSink attrs)
    by (eexists; reflexivity);
  destruct Hsink as [sinkAttrs ->];
  set (border := match a_resampledSize args with
                 | Some _ => _ | None => _ end);
  assert (Hborder : exists attrs, border = mkNode _ "border" SubsetWithBorder attrs)
    by (unfold border; destruct (a_resampledSize args); eexists; reflexivity);
  destruct Hborder as [borderAttrs ->];
  destruct_node blockSource HblockSource;
  destruct_node model Hmodel;
  destruct_node slidingWindow HslidingWindow;
  (destruct subsetFilter as [subsetFilter|];
    [specialize (HsubsetFilter _ eq_refl);
     destruct_node subsetFilter HsubsetFilter | clear HsubsetFilter]);
  (destruct wfsExtractor as [wfsExtractor|];
    [specialize (HwfsExtractor _ eq_refl);
     destruct_node wfsExtractor HwfsExtractor | clear HwfsExtractor]);
  destruct (haveAlpha_ s3), (a_nms (args_ s3)), isSegmentation;
  (split; [refine (bool_decide_unpack _ _); vm_compute; exact I |]);
  (split; [vm_compute; reflexivity |]);
  apply dom_check; vm_compute; reflexivity.
Qed.


Lemma chainEdges_cons (a b : string) (rest : list string) :
  chainEdges (a :: b :: rest)
  = ((b, outputPort a), (a, outputPort a)) :: chainEdges (b :: rest).
Proof. reflexivity. Qed.

(** the keys of the edges of a chain are the stages after the first *)
Lemma chainEdges_keys (l : list string) (k : string * string) :
  k ∈ (chainEdges l).*1 -> k.1 ∈ tail l.
Proof.
  revert k. induction l as [| a l IH]; intros k; [by intros ?%elem_of_nil |].
  destruct l as [| b rest]; [by intros ?%elem_of_nil |].
  rewrite chainEdges_cons, fmap_cons.
  intros [-> | Hin]%elem_of_cons; [by left |].
  right. exact (IH _ Hin).
Qed.

Lemma chainEdges_NoDup (l : list string) : NoDup l -> NoDup (chainEdges l).*1.
Proof.
  induction l as [| a l IH]; intros Hl; [by constructor |].
  destruct l as [| b rest]; [by constructor |].
  rewrite chainEdges_cons, fmap_cons.
  apply NoDup_cons in Hl as [_ Hl]. constructor; [| by apply IH].
  intros Hin%chainEdges_keys. cbn in Hin.
  apply NoDup_cons in Hl as [Hb _]. done.
Qed.

Lemma stages_NoDup (g : Graph) : NoDup (stages g).
Proof.
  unfold stages. apply NoDup_filter.
  apply (bool_decide_unpack _). vm_compute. exact I.
Qed.

(** what a block source that opens is, and whether its image has an alpha
    band *)
Lemma openBlockSource_Ok (s s' : OSN) (node : Node) :
  openBlockSource s = Ok node s' ->
  let args := args_ s in
  is_node "blockSource"
          (if Source_gt (a_source args) LOCAL then MapServiceBlockSource
           else GdalBlockSource) node /\
  haveAlpha_ s' =
    if Source_gt (a_source args) LOCAL
    then ms_haveAlpha (connectClient (a_source args) (a_mapId args)
                                     (a_token args) (a_credentials args)
                                     (a_url args) (a_useTiles args))
    else img_haveAlpha (openImage (a_image args)).
Proof.
  unfold openBlockSource. unfold bind at 1, get at 1. cbv zeta.
  destruct (Source_gt (a_source (args_ s)) LOCAL).
  - unfold initMapServiceImage. monad_unfold. cbn.
    destruct (a_bbox (args_ s)); [| done].
    destruct (a_source (args_ s)); cbn; intros [= <- <-]; done.
  - destruct (Source_eqb (a_source (args_ s)) LOCAL); [| done].
    unfold initLocalImage. monad_unfold. cbn.
    destruct (isLocal _); cbn.
    + destruct (a_bbox (args_ s)); cbn; intros [= <- <-]; done.
    + destruct (a_bbox (args_ s)); cbn; [| intros [= <- <-]; done].
      destruct (negb _ && negb _); cbn; [| done].
      destruct (Rect_eqb _ _); cbn; intros [= <- <-]; done.
Qed.

Lemma initSubsetRegionFilter_Some (s s' : OSN) (o : option Node) :
  initSubsetRegionFilter s = Ok o s' ->
  is_Some o <-> a_filterDefinition (args_ s) <> [].
Proof.
  unfold initSubsetRegionFilter. unfold bind at 1, get at 1.
  destruct (a_filterDefinition (args_ s)) as [| d defs].
  - intros [= <- _]. split; [by intros [? ?] | done].
  - intros Hrun. apply bind_Ok_inv in Hrun as ([] & ? & _ & Hrun).
    apply bind_Ok_inv in Hrun as (? & ? & _ & Hrun).
    unfold ret in Hrun. injection Hrun as <- _. split; [done | eauto].
Qed.

(** [initWfs] step by step: the checks in the order they are made, and
    the node *)
Lemma initWfs_run (s : OSN) :
  let args := args_ s in
  let dgcs := bool_decide (is_Some (a_dgcsCatalogID args)) in
  let creds := if bool_decide (a_wfsCredentials args = "")
               then a_credentials args else a_wfsCredentials args in
  let s1 := logged (LogInfo (if dgcs
                             then "Connecting to DGCS web feature service..."
                             else "Connecting to EVWHS web feature service..."))
                   s in
  initWfs s =
  if negb (dgcs || bool_decide (is_Some (a_evwhsCatalogID args)))
  then Ok None s
  else if bool_decide (creds = "") then Throw NoWfsCredentials s1
  else if bool_decide (a_token args = "") then Throw NoWfsToken s1
  else match boost_split ":"%char creds with
       | user :: password :: _ =>
           Ok (Some (set_attr "url"
                       (AWfsUrl (if dgcs
                                 then "https://services.digitalglobe.com/catalogservice/wfsaccess"
                                 else "https://evwhs.digitalglobe.com/catalogservice/wfsaccess")
                                user password (a_token args))
                       (set_attr "defaultFields"
                          (AFields [("legacyId", FString "uncataloged")])
                          (set_attr "fieldNames" (AFieldNames ["legacyId"])
                             (set_attr "inputSpatialReference"
                                (ASpatialReference (imageSr_ s))
                                (create WfsFeatureFieldExtractor
                                        "fieldExtractor"))))))
              s1
       | _ => Throw SplitCredsOutOfRange s1
       end.
Proof.
  cbv zeta. unfold initWfs, logged. monad_unfold.
  destruct (bool_decide (is_Some (a_dgcsCatalogID (args_ s))));
  destruct (bool_decide (is_Some (a_evwhsCatalogID (args_ s)))); cbn;
    try reflexivity;
  destruct (bool_decide (a_wfsCredentials (args_ s) = "")) eqn:Hw; cbn;
  try (apply bool_decide_eq_false_1 in Hw;
       rewrite (bool_decide_eq_false_2 _ Hw));
  try (destruct (bool_decide (a_credentials (args_ s) = "")); cbn;
       [reflexivity |]);
  (destruct (bool_decide (a_token (args_ s) = "")); cbn; [reflexivity |]);
  unfold boost_split; cbn;
  match goal with
  | |- context [boost_split_pieces ?c ?x] =>
      destruct (boost_split_pieces c x) as [first [| second rest]]
  end; reflexivity.
Qed.

Lemma initWfs_Some (s s' : OSN) (o : option Node) :
  initWfs s = Ok o s' ->
  is_Some o <-> is_Some (a_dgcsCatalogID (args_ s)) \/
                is_Some (a_evwhsCatalogID (args_ s)).
Proof.
  rewrite initWfs_run. cbv zeta.
  destruct (bool_decide (is_Some (a_dgcsCatalogID (args_ s))) ||
            bool_decide (is_Some (a_evwhsCatalogID (args_ s)))) eqn:Hcat; cbn.
  - intros Hrun.
    assert (Hsome : is_Some o).
    { repeat case_match; try discriminate Hrun;
        injection Hrun as <- _; by eexists. }
    apply orb_true_iff in Hcat as [?%bool_decide_eq_true_1 | ?%bool_decide_eq_true_1];
      split; eauto.
  - intros [= <- _]. apply orb_false_iff in Hcat as [H1%bool_decide_eq_false_1
                                                      H2%bool_decide_eq_false_1].
    split; [by intros [? ?] | by intros [? | ?]].
Qed.

(** What a run of [process] that returns has gone through, with the
    conditions under which the optional nodes are made. *)
Lemma process_steps (s s' : OSN) (g : Graph) :
  process s = Ok g s' ->
  let args := args_ s in
  let md := mp_metadata (a_modelPackage args) in
  exists blockSource model subsetFilter slidingWindow wfsExtractor s3 s4,
    g = assemble args md s3 s4 blockSource model subsetFilter slidingWindow
                 wfsExtractor /\
    args_ s3 = args /\
    is_node "blockSource"
            (if Source_gt (a_source args) LOCAL then MapServiceBlockSource
             else GdalBlockSource) blockSource /\
    haveAlpha_ s3 =
      (if Source_gt (a_source args) LOCAL
       then ms_haveAlpha (connectClient (a_source args) (a_mapId args)
                                        (a_token args) (a_credentials args)
                                        (a_url args) (a_useTiles args))
       else img_haveAlpha (openImage (a_image args))) /\
    is_node "detector"
            (if bool_decide (md_category md = "segmentation")
             then PolyDetector else BoxDetector) model /\
    (forall n, subsetFilter = Some n -> is_node "regionFilter" SubsetRegionFilter n) /\
    (is_Some subsetFilter <-> a_filterDefinition args <> []) /\
    is_node "slidingWindow" SlidingWindow slidingWindow /\
    (forall n, wfsExtractor = Some n ->
               is_node "fieldExtractor" WfsFeatureFieldExtractor n) /\
    (is_Some wfsExtractor <-> is_Some (a_dgcsCatalogID args) \/
                              is_Some (a_evwhsCatalogID args)).
Proof.
  unfold process. intros Hrun. cbv zeta.
  apply bind_Ok_inv in Hrun as (blockSource & sA & HA & Hrun).
  apply bind_Ok_inv in Hrun as (s1 & ? & [= <- <-] & Hrun). cbv zeta in Hrun.
  apply bind_Ok_inv in Hrun as ([] & sB1 & [= <-] & Hrun).
  apply bind_Ok_inv in Hrun as ([] & sB & [= <-] & Hrun).
  apply bind_Ok_inv in Hrun as (model & sC & HC & Hrun).
  apply bind_Ok_inv in Hrun as ([] & sD & HD & Hrun).
  apply bind_Ok_inv in Hrun as (s2 & ? & [= <- <-] & Hrun).
  apply bind_Ok_inv in Hrun as (md & ? & Hmd & Hrun).
  apply bind_Ok_inv in Hrun as (subsetFilter & sE & HE & Hrun).
  apply bind_Ok_inv in Hrun as (slidingWindow & sF & HF & Hrun).
  apply bind_Ok_inv in Hrun as (s3 & ? & [= <- <-] & Hrun).
  apply bind_Ok_inv in Hrun as (wfsExtractor & sG & HG & Hrun).
  apply bind_Ok_inv in Hrun as (s4 & ? & [= <- <-] & Hrun).
  injection Hrun as <- <-.
  pose proof (preserves_Ok _ _ _ _ _ openBlockSource_args HA) as HargsA.
  unfold same_args in HargsA.
  pose proof (openBlockSource_Ok _ _ _ HA) as [HnodeA HalphaA].
  pose proof (initDetector_inv _ _ _ HC)
    as (HargsC & HmdC & _ & HnameC & HkindC & HalphaC & _).
  cbn in HargsC, HmdC, HkindC, HalphaC.
  pose proof (preserves_Ok _ _ _ _ _ printModel_keeps HD) as (HargsD & HD').
  destruct HD' as (_&_&_&_&_&_& HalphaD & HmdD &_).
  rewrite HmdD, HmdC in Hmd. unfold ret in Hmd. injection Hmd as <- <-.
  pose proof (preserves_Ok _ _ _ _ _ initSubsetRegionFilter_keeps HE)
    as (HargsE & HE').
  destruct HE' as (_&_&_&_&_&_& HalphaE &_).
  pose proof (preserves_Ok _ _ _ _ _ initSlidingWindow_keeps HF)
    as (HargsF & HF').
  destruct HF' as (_&_&_&_&_&_& HalphaF &_).
  pose proof (initSubsetRegionFilter_Some _ _ _ HE) as HsomeE.
  pose proof (initWfs_Some _ _ _ HG) as HsomeG.
  exists blockSource, model, subsetFilter, slidingWindow, wfsExtractor, sF, sG.
  rewrite HargsA in *.
  split; [reflexivity |].
  split; [congruence |].
  split; [exact HnodeA |].
  split; [congruence |].
  split; [split; [exact HnameC | exact HkindC] |].
  split; [exact (yields_Ok _ _ _ _ _ initSubsetRegionFilter_node HE) |].
  split; [by rewrite HsomeE, HargsD, HargsC |].
  split; [exact (yields_Ok _ _ _ _ _ initSlidingWindow_node HF) |].
  split; [exact (yields_Ok _ _ _ _ _ initWfs_node HG) |].
  rewrite HsomeG. by rewrite HargsF, HargsE, HargsD, HargsC.
Qed.

(** X15.  The graph that [process] assembles is one chain: an input port
    of the graph is assigned an output port exactly when it is the port of
    a stage that the graph has and the output port is that of the nearest
    stage before it that the graph has, in the order block source, alpha
    removal, cache, border, region filter, sliding window, detector, label
    filter, suppression, box to polygon, feature conversion, field
    extractor, sink.  A stage that is left out is passed over, and no
    other port is assigned. *)
Theorem process_chain (s s' : OSN) (g : Graph) :
  process s = Ok g s' ->
  forall dst inPort src outPort,
    wired g dst inPort src outPort <->
    ((dst, inPort), (src, outPort)) ∈ chainEdges (stages g).
Proof.
  intros Hrun dst inPort src outPort.
  apply process_steps in Hrun
    as (blockSource & model & subsetFilter & slidingWindow & wfsExtractor
        & s3 & s4 & -> & _ & HblockSource & _ & Hmodel & HsubsetFilter & _
        & HslidingWindow & HwfsExtractor & _).
  destruct (assemble_chain (args_ s) _ s3 s4 _ _ _ _ _ _ HblockSource Hmodel
              HsubsetFilter HslidingWindow HwfsExtractor) as (Hinputs & _).
  unfold wired. rewrite Hinputs. symmetry.
  apply elem_of_list_to_map, chainEdges_NoDup, stages_NoDup.
Qed.

(** X16.  The nodes of the graph that [process] assembles, from the
    configuration alone: the block source is a map-service source for a
    source above LOCAL and a GDAL source otherwise; the alpha removal is
    there exactly when the image has an alpha band, the region filter when
    the filter definition is not empty, the label filter when a label list
    is not empty, the suppression when NMS is asked for, the box-to-polygon
    conversion when the model is not a segmentation model, the field
    extractor when a catalog id is given; the detector, the label filter
    and the suppression are the polygon variants for a segmentation model
    and the box variants otherwise; and the graph has no other node. *)
Theorem process_stages (s s' : OSN) (g : Graph) :
  process s = Ok g s' ->
  let args := args_ s in
  let isSegmentation :=
    bool_decide (md_category (mp_metadata (a_modelPackage args)) = "segmentation") in
  let remote := Source_gt (a_source args) LOCAL in
  let haveAlpha :=
    if remote
    then ms_haveAlpha (connectClient (a_source args) (a_mapId args)
                                     (a_token args) (a_credentials args)
                                     (a_url args) (a_useTiles args))
    else img_haveAlpha (openImage (a_image args)) in
  kind_of g <$> stageOrder =
    [Some (if remote then MapServiceBlockSource else GdalBlockSource);
     if haveAlpha then Some RemoveBandByColorInterp else None;
     Some BlockCache;
     Some SubsetWithBorder;
     if a_filterDefinition args is [] then None else Some SubsetRegionFilter;
     Some SlidingWindow;
     Some (if isSegmentation then PolyDetector else BoxDetector);
     if (a_excludeLabels args, a_includeLabels args) is ([], [])
     then None
     else Some (if isSegmentation then PolyLabelFilter else BoxLabelFilter);
     if a_nms args
     then Some (if isSegmentation then PolyNonMaxSuppression
                else BoxNonMaxSuppression)
     else None;
     if isSegmentation then None else Some PredictionBoxToPoly;
     Some PredictionToFeature;
     if bool_decide (is_Some (a_dgcsCatalogID args)) ||
        bool_decide (is_Some (a_evwhsCatalogID args))
     then Some WfsFeatureFieldExtractor else None;
     Some FileFeatureSink] /\
  dom (g_nodes g) ⊆ list_to_set stageOrder.
Proof.
  intros Hrun. cbv zeta.
  apply process_steps in Hrun
    as (blockSource & model & subsetFilter & slidingWindow & wfsExtractor
        & s3 & s4 & -> & Hargs & HblockSource & Halpha & Hmodel
        & HsubsetFilter & HsomeFilter & HslidingWindow & HwfsExtractor
        & HsomeWfs).
  destruct (assemble_chain (args_ s) _ s3 s4 _ _ _ _ _ _ HblockSource Hmodel
              HsubsetFilter HslidingWindow HwfsExtractor) as (_ & Hkinds & Hdom).
  split; [| exact Hdom].
  rewrite Hkinds, Halpha, Hargs. unfold initLabelFilter. rewrite Hargs.
  repeat f_equal.
  - destruct subsetFilter, (a_filterDefinition (args_ s)); try done.
    + by destruct HsomeFilter as [Hx _]; destruct Hx; eauto.
    + by destruct HsomeFilter as [_ [? Hx]].
  - by destruct (a_excludeLabels (args_ s)), (a_includeLabels (args_ s)).
  - destruct wfsExtractor.
    + destruct HsomeWfs as [[Hx | Hx] _]; [eauto | |];
        [rewrite (bool_decide_eq_true_2 _ Hx) |
         rewrite (bool_decide_eq_true_2 _ Hx), orb_true_r]; done.
    + destruct (bool_decide _ || bool_decide _) eqn:Hcat; [| done].
      apply orb_true_iff in Hcat as [Hx%bool_decide_eq_true_1 | Hx%bool_decide_eq_true_1];
        destruct HsomeWfs as [_ [? Hy]]; eauto; done.
Qed.

End Shape.

(** ** What the nodes are configured with *)

Section Settings.
Context `{World}.

Lemma lookup_add_node_eq (n : Node) (g : Graph) (name : string) :
  n_name n = name -> g_nodes (add_node n g) !! name = Some n.
Proof. intros <-. cbn. apply lookup_insert_eq. Qed.

Lemma lookup_add_node_ne' (n : Node) (g : Graph) (name nm : string) :
  n_name n = nm -> nm <> name ->
  g_nodes (add_node n g) !! name = g_nodes g !! name.
Proof. intros <- Hne. by apply lookup_add_node_ne. Qed.

Lemma lookup_add_opt_ne' (o : option Node) (g : Graph) (name nm : string) :
  (forall n, o = Some n -> n_name n = nm) -> nm <> name ->
  g_nodes (add_opt o g) !! name = g_nodes g !! name.
Proof.
  intros Hname Hne. apply lookup_add_opt_ne.
  intros n Hn. by rewrite (Hname n Hn).
Qed.

End Settings.

Ltac skip_opt :=
  match goal with
  | Hn : forall n, ?o = Some n -> n_name n = ?nm
    |- context [g_nodes (add_opt ?o ?g) !! ?name] =>
      rewrite (lookup_add_opt_ne' o g name nm Hn) by done
  end.

Section Settings2.
Context `{World}.

(** the nodes of an assembled graph, by their names *)
Lemma assemble_nodes (args : Args) (md : ModelMetadata) (s3 s4 : OSN)
    (blockSource model : Node) (subsetFilter : option Node)
    (slidingWindow : Node) (wfsExtractor : option Node) (bsKind : NodeKind) :
  is_node "blockSource" bsKind blockSource ->
  is_node "detector"
          (if bool_decide (md_category md = "segmentation")
           then PolyDetector else BoxDetector) model ->
  (forall n, subsetFilter = Some n -> is_node "regionFilter" SubsetRegionFilter n) ->
  is_node "slidingWindow" SlidingWindow slidingWindow ->
  (forall n, wfsExtractor = Some n ->
             is_node "fieldExtractor" WfsFeatureFieldExtractor n) ->
  let g := assemble args md s3 s4 blockSource model subsetFilter slidingWindow
                    wfsExtractor in
  g_nodes g !! "blockCache"
  = Some (set_attr "bufferSize" (AInt (a_maxCacheSize args `quot` 2))
                   (create BlockCache "blockCache")) /\
  g_nodes g !! "border"
  = Some (match a_resampledSize args with
          | Some _ => set_attr "paddedSize" (ASize (md_modelSize md))
                               (create SubsetWithBorder "border")
          | None => create SubsetWithBorder "border"
          end) /\
  g_nodes g !! "regionFilter" = subsetFilter /\
  g_nodes g !! "slidingWindow" = Some slidingWindow /\
  g_nodes g !! "predToFeature" = Some (initPredictionToFeature s3) /\
  g_nodes g !! "fieldExtractor" = wfsExtractor /\
  g_nodes g !! "featureSink" = Some (initFeatureSink s4).
Proof.
  intros HblockSource Hmodel HsubsetFilter HslidingWindow HwfsExtractor.
  cbv zeta. unfold assemble. rewrite wire_nodes.
  set (isSegmentation := bool_decide _) in *.
  set (removeAlpha := if haveAlpha_ s3 then _ else None).
  set (border := match a_resampledSize args with Some _ => _ | None => _ end).
  set (g0 := connectAttrs _ _ Graph_empty).
  set (g1 := match removeAlpha with Some _ => _ | None => _ end).
  assert (Hg1 : forall name, g_nodes g1 !! name = None)
    by (intros name; unfold g1; by destruct removeAlpha).
  clearbody g1. clear g0.
  assert (Hborder : n_name border = "border")
    by (unfold border; by destruct (a_resampledSize args)).
  clearbody border.
  assert (HremoveAlpha : forall n, removeAlpha = Some n -> n_name n = "removeAlpha")
    by (unfold removeAlpha; intros n Hn; destruct (haveAlpha_ s3); [| done];
        by injection Hn as <-).
  clearbody removeAlpha.
  assert (HlabelFilter : forall n, initLabelFilter s3 isSegmentation = Some n ->
                                   n_name n = "labelFilter")
    by (intros n Hn;
        destruct (initLabelFilter_shape s3 isSegmentation) as [Hx | [? Hx]];
        rewrite Hx in Hn; [done | by injection Hn as <-]).
  assert (Hnms : forall n, initNms s3 isSegmentation = Some n -> n_name n = "nms")
    by (intros n Hn; rewrite initNms_shape in Hn;
        destruct (a_nms (args_ s3)); [| done]; by injection Hn as <-).
  assert (HsubsetFilter' : forall n, subsetFilter = Some n -> n_name n = "regionFilter")
    by (intros n Hn; by destruct (HsubsetFilter n Hn)).
  assert (HwfsExtractor' : forall n, wfsExtractor = Some n -> n_name n = "fieldExtractor")
    by (intros n Hn; by destruct (HwfsExtractor n Hn)).
  destruct HblockSource as [HblockSource _], Hmodel as [Hmodel _],
    HslidingWindow as [HslidingWindow _].
  set (labelFilter := initLabelFilter s3 isSegmentation) in *.
  set (nmsNode := initNms s3 isSegmentation) in *.
  clearbody labelFilter nmsNode.
  assert (Hpoly : forall (m : gmap string Node) (name : string),
             name <> "predictionToPoly" ->
             (if isSegmentation then m
              else <["predictionToPoly" := create PredictionBoxToPoly "predictionToPoly"]> m)
             !! name = m !! name)
    by (intros m name Hne; destruct isSegmentation; [done |];
        by rewrite lookup_insert_ne).
  destruct border as [? borderKind borderAttrs], blockSource as [? ? bsAttrs],
    model as [? ? modelAttrs], slidingWindow as [? ? swAttrs].
  cbn in Hborder, HblockSource, Hmodel, HslidingWindow. subst.
  repeat split; rewrite Hpoly by done;
    repeat first
      [ rewrite lookup_add_node_eq by done
      | rewrite lookup_add_node_ne by done
      | skip_opt ];
    try reflexivity.
  all: (rewrite lookup_add_opt_eq; [reflexivity | assumption |]);
    repeat first
      [ rewrite lookup_add_node_ne by done
      | skip_opt ];
    apply Hg1.
Qed.


(** the sliding-window node, by the object it is made from *)
Lemma initSlidingWindow_Ok (s s' : OSN) (node : Node) (md : ModelMetadata) :
  initSlidingWindow s = Ok node s' -> metadata_ s = Some md ->
  exists windowSizes,
    node =
    set_attr "bufferSize" (AInt (a_maxCacheSize (args_ s) `quot` 2))
      (set_attr "aoi" (ARect (bbox_ s))
         (set_attr "resampledSize"
            (ASize match a_resampledSize (args_ s) with
                   | Some r => mkSize r (roundMul (modelAspectRatio_ s) r)
                   | None => md_modelSize md
                   end)
            (set_attr "windowSizes" (ASizeSteps windowSizes)
               (create SlidingWindow "slidingWindow")))).
Proof.
  unfold initSlidingWindow. intros Hrun Hmd.
  apply bind_Ok_inv in Hrun as (? & ? & [= <- <-] & Hrun).
  apply bind_Ok_inv in Hrun as (resampledSize & s1 & Hsize & Hrun).
  apply bind_Ok_inv in Hrun as (windowSizes & s2 & _ & Hrun).
  unfold ret in Hrun. injection Hrun as <- _.
  exists windowSizes. do 3 f_equal. rewrite Hmd in Hsize.
  destruct (a_resampledSize (args_ s)); unfold ret in Hsize;
    by injection Hsize as <- _.
Qed.

(** the references and the image flags that the block source leaves *)
Lemma openBlockSource_sr (s s' : OSN) (node : Node) :
  openBlockSource s = Ok node s' ->
  sr_ s' =
    if Source_gt (a_source (args_ s)) LOCAL then WGS84
    else if isLocal (img_sr (openImage (a_image (args_ s)))) then sr_ s
         else WGS84.
Proof.
  unfold openBlockSource. unfold bind at 1, get at 1. cbv zeta.
  destruct (Source_gt (a_source (args_ s)) LOCAL).
  - unfold initMapServiceImage. monad_unfold. cbn.
    destruct (a_bbox (args_ s)); [| done].
    destruct (a_source (args_ s)); cbn; intros [= <- <-]; done.
  - destruct (Source_eqb (a_source (args_ s)) LOCAL); [| done].
    unfold initLocalImage. monad_unfold. cbn.
    destruct (isLocal _); cbn.
    + destruct (a_bbox (args_ s)); cbn; intros [= <- <-]; done.
    + destruct (a_bbox (args_ s)); cbn; [| intros [= <- <-]; done].
      destruct (negb _ && negb _); cbn; [| done].
      destruct (Rect_eqb _ _); cbn; intros [= <- <-]; done.
Qed.

(** What a run of [process] that returns has gone through, with the
    object that each node is made from. *)
Lemma process_run (s s' : OSN) (g : Graph) :
  process s = Ok g s' ->
  let args := args_ s in
  let model := a_modelPackage args in
  let md := mp_metadata model in
  exists blockSource sA det subsetFilter slidingWindow wfsExtractor s3 windowSizes,
    openBlockSource s = Ok blockSource sA /\
    g = assemble args md s3 s' blockSource det subsetFilter slidingWindow
                 wfsExtractor /\
    same_but_log s3 s' /\
    args_ s3 = args /\
    sr_ s3 = sr_ sA /\
    slidingWindow =
      set_attr "bufferSize" (AInt (a_maxCacheSize args `quot` 2))
        (set_attr "aoi" (ARect (bbox_ s3))
           (set_attr "resampledSize"
              (ASize match a_resampledSize args with
                     | Some r => mkSize r (roundMul (aspectRatio model) r)
                     | None => md_modelSize md
                     end)
              (set_attr "windowSizes" (ASizeSteps windowSizes)
                 (create SlidingWindow "slidingWindow")))) /\
    (forall r, a_resampledSize args = Some r -> r <= sz_width (md_modelSize md)) /\
    is_node "blockSource"
            (if Source_gt (a_source args) LOCAL then MapServiceBlockSource
             else GdalBlockSource) blockSource /\
    is_node "detector"
            (if bool_decide (md_category md = "segmentation")
             then PolyDetector else BoxDetector) det /\
    (forall n, subsetFilter = Some n -> is_node "regionFilter" SubsetRegionFilter n) /\
    (forall n, wfsExtractor = Some n ->
               is_node "fieldExtractor" WfsFeatureFieldExtractor n /\
               n_attrs n !! "inputSpatialReference"
               = Some (ASpatialReference (imageSr_ s3))) /\
    (is_Some wfsExtractor <-> is_Some (a_dgcsCatalogID args) \/
                              is_Some (a_evwhsCatalogID args)).
Proof.
  unfold process. intros Hrun. cbv zeta.
  apply bind_Ok_inv in Hrun as (blockSource & sA & HA & Hrun).
  apply bind_Ok_inv in Hrun as (s1 & ? & [= <- <-] & Hrun). cbv zeta in Hrun.
  apply bind_Ok_inv in Hrun as ([] & sB1 & [= <-] & Hrun).
  apply bind_Ok_inv in Hrun as ([] & sB & [= <-] & Hrun).
  apply bind_Ok_inv in Hrun as (model & sC & HC & Hrun).
  apply bind_Ok_inv in Hrun as ([] & sD & HD & Hrun).
  apply bind_Ok_inv in Hrun as (s2 & ? & [= <- <-] & Hrun).
  apply bind_Ok_inv in Hrun as (md & ? & Hmd & Hrun).
  apply bind_Ok_inv in Hrun as (subsetFilter & sE & HE & Hrun).
  apply bind_Ok_inv in Hrun as (slidingWindow & sF & HF & Hrun).
  apply bind_Ok_inv in Hrun as (s3 & ? & [= <- <-] & Hrun).
  apply bind_Ok_inv in Hrun as (wfsExtractor & sG & HG & Hrun).
  apply bind_Ok_inv in Hrun as (s4 & ? & [= <- <-] & Hrun).
  injection Hrun as <- <-.
  pose proof (preserves_Ok _ _ _ _ _ openBlockSource_args HA) as HargsA.
  unfold same_args in HargsA.
  pose proof (openBlockSource_Ok _ _ _ HA) as [HnodeA _].
  pose proof (initDetector_inv _ _ _ HC)
    as (HargsC & HmdC & HratioC & HnameC & HkindC & _ & _ & HsrC & _).
  pose proof (initDetector_Ok_state _ _ _ HC) as (_ & _ & _ & _ & _ & HresC).
  cbn in HargsC, HmdC, HkindC, HratioC, HsrC, HresC.
  pose proof (preserves_Ok _ _ _ _ _ printModel_keeps HD) as HD'.
  destruct HD' as (HargsD &_&_&_&_& HsrD &_&_& HmdD & HratioD &_).
  rewrite HmdD, HmdC in Hmd. unfold ret in Hmd. injection Hmd as <- <-.
  pose proof (preserves_Ok _ _ _ _ _ initSubsetRegionFilter_keeps HE) as HE'.
  destruct HE' as (HargsE &_& HbboxE &_&_& HsrE &_&_& HmdE & HratioE &_).
  pose proof (preserves_Ok _ _ _ _ _ initSlidingWindow_keeps HF) as HF'.
  destruct HF' as (HargsF &_& HbboxF &_&_& HsrF &_).
  assert (HmdE' : metadata_ sE = Some (mp_metadata (a_modelPackage (args_ sA))))
    by congruence.
  destruct (initSlidingWindow_Ok _ _ _ _ HF HmdE') as [windowSizes HnodeF].
  exists blockSource, sA, model, subsetFilter, slidingWindow, wfsExtractor, sF,
    windowSizes.
  rewrite HargsA in *.
  split; [exact HA |].
  split; [reflexivity |].
  split; [exact (preserves_Ok _ _ _ _ _ initWfs_keeps HG) |].
  split; [congruence |].
  split; [congruence |].
  split.
  { rewrite HnodeF. rewrite HargsE, HargsD, HargsC, HbboxF.
    rewrite HratioE, HratioD, HratioC. reflexivity. }
  split; [exact HresC |].
  split; [exact HnodeA |].
  split; [split; [exact HnameC | exact HkindC] |].
  split; [exact (yields_Ok _ _ _ _ _ initSubsetRegionFilter_node HE) |].
  split; [| rewrite (initWfs_Some _ _ _ HG);
            by rewrite HargsF, HargsE, HargsD, HargsC].
  intros n Hn. split; [exact (yields_Ok _ _ _ _ _ initWfs_node HG n Hn) |].
  rewrite initWfs_run in HG. cbv zeta in HG.
  repeat case_match; try discriminate HG;
    injection HG as HG _; rewrite <- HG in Hn;
    first [discriminate Hn | injection Hn as <-];
    cbn; by rewrite !lookup_insert_ne, lookup_insert_eq by done.
Qed.

(** X17.  Half of the cache budget goes to the cache node and the same
    half to the sliding window: both have the buffer size [maxCacheSize / 2],
    with the division of C++, whatever else the run is configured with. *)
Theorem process_cache_budget (s s' : OSN) (g : Graph) :
  process s = Ok g s' ->
  let half := AInt (a_maxCacheSize (args_ s) `quot` 2) in
  attr_of g "blockCache" "bufferSize" = Some half /\
  attr_of g "slidingWindow" "bufferSize" = Some half.
Proof.
  intros Hrun. cbv zeta.
  apply process_run in Hrun
    as (blockSource & sA & det & subsetFilter & slidingWindow & wfsExtractor
        & s3 & windowSizes & _ & -> & _ & _ & _ & HslidingWindow & _
        & HblockSource & Hdet & HsubsetFilter & HwfsExtractor & _).
  destruct (assemble_nodes (args_ s) (mp_metadata (a_modelPackage (args_ s)))
              s3 s' blockSource det subsetFilter slidingWindow wfsExtractor _
              HblockSource Hdet HsubsetFilter
              ltac:(by rewrite HslidingWindow)
              (fun n Hn => proj1 (HwfsExtractor n Hn)))
    as (Hcache & _ & _ & Hsw & _).
  unfold attr_of. rewrite Hcache, Hsw, HslidingWindow. cbn.
  by rewrite !lookup_insert_eq.
Qed.

(** X18.  With a resample size [r], which a run that gets this far has
    checked against the model's width, the border node pads to the model's
    size and the sliding window resamples to [r] by the height that the
    model's aspect ratio gives; without one the border node is given no
    padded size and the sliding window resamples to the model's size. *)
Theorem process_resample (s s' : OSN) (g : Graph) :
  process s = Ok g s' ->
  let model := a_modelPackage (args_ s) in
  let modelSize := md_modelSize (mp_metadata model) in
  match a_resampledSize (args_ s) with
  | Some r =>
      r <= sz_width modelSize /\
      attr_of g "border" "paddedSize" = Some (ASize modelSize) /\
      attr_of g "slidingWindow" "resampledSize"
      = Some (ASize (mkSize r (roundMul (aspectRatio model) r)))
  | None =>
      attr_of g "border" "paddedSize" = None /\
      attr_of g "slidingWindow" "resampledSize" = Some (ASize modelSize)
  end.
Proof.
  intros Hrun. cbv zeta.
  apply process_run in Hrun
    as (blockSource & sA & det & subsetFilter & slidingWindow & wfsExtractor
        & s3 & windowSizes & _ & -> & _ & _ & _ & HslidingWindow & Hres
        & HblockSource & Hdet & HsubsetFilter & HwfsExtractor & _).
  destruct (assemble_nodes (args_ s) (mp_metadata (a_modelPackage (args_ s)))
              s3 s' blockSource det subsetFilter slidingWindow wfsExtractor _
              HblockSource Hdet HsubsetFilter
              ltac:(by rewrite HslidingWindow)
              (fun n Hn => proj1 (HwfsExtractor n Hn)))
    as (_ & Hborder & _ & Hsw & _).
  unfold attr_of. rewrite Hborder, Hsw, HslidingWindow.
  destruct (a_resampledSize (args_ s)) as [r|]; cbn.
  - split; [by apply Hres |].
    rewrite lookup_insert_eq.
    by rewrite !lookup_insert_ne, lookup_insert_eq by done.
  - rewrite lookup_empty.
    by rewrite !lookup_insert_ne, lookup_insert_eq by done.
Qed.

(** X19.  The nodes are made from the one object that the image step and
    the detector step have left: the sliding window scans its bounding box,
    the feature conversion maps pixels by its pixel-to-projection
    transformation, the sink and the field extractor read features in the
    image's reference, and the sink writes them in the output reference,
    which is WGS84 unless the source is a local image without a coordinate
    reference system; then it is the one the object started with. *)
Theorem process_image_settings (s s' : OSN) (g : Graph) :
  process s = Ok g s' ->
  attr_of g "slidingWindow" "aoi" = Some (ARect (bbox_ s')) /\
  attr_of g "predToFeature" "pixelToProj"
  = Some (ATransformation (pixelToProj_ s')) /\
  attr_of g "featureSink" "spatialReference"
  = Some (ASpatialReference (imageSr_ s')) /\
  attr_of g "featureSink" "outputSpatialReference"
  = Some (ASpatialReference (sr_ s')) /\
  (is_Some (g_nodes g !! "fieldExtractor") ->
   attr_of g "fieldExtractor" "inputSpatialReference"
   = Some (ASpatialReference (imageSr_ s'))) /\
  sr_ s' =
    if Source_gt (a_source (args_ s)) LOCAL then WGS84
    else if isLocal (img_sr (openImage (a_image (args_ s)))) then sr_ s
         else WGS84.
Proof.
  intros Hrun.
  apply process_run in Hrun
    as (blockSource & sA & det & subsetFilter & slidingWindow & wfsExtractor
        & s3 & windowSizes & HA & -> & Hsame & _ & Hsr & HslidingWindow & _
        & HblockSource & Hdet & HsubsetFilter & HwfsExtractor & _).
  destruct (assemble_nodes (args_ s) (mp_metadata (a_modelPackage (args_ s)))
              s3 s' blockSource det subsetFilter slidingWindow wfsExtractor _
              HblockSource Hdet HsubsetFilter
              ltac:(by rewrite HslidingWindow)
              (fun n Hn => proj1 (HwfsExtractor n Hn)))
    as (_ & _ & _ & Hsw & Hp2f & Hwfs & Hsink).
  destruct Hsame as (_&_& Hbbox' & Hp2p' & HimageSr' & Hsr' &_).
  unfold attr_of. rewrite Hsw, Hp2f, Hwfs, Hsink, HslidingWindow.
  unfold initPredictionToFeature, initFeatureSink.
  split; [cbn; rewrite ?lookup_insert_ne by done; rewrite lookup_insert_eq;
          congruence |].
  split; [cbn; rewrite ?lookup_insert_ne by done; rewrite lookup_insert_eq;
          congruence |].
  split; [cbn; rewrite ?lookup_insert_ne by done; rewrite lookup_insert_eq;
          congruence |].
  split; [cbn; rewrite ?lookup_insert_ne by done; rewrite lookup_insert_eq;
          congruence |].
  split.
  - intros [n Hn]. rewrite Hn. cbn. destruct (HwfsExtractor n Hn) as [_ ->].
    congruence.
  - rewrite Hsr', Hsr. exact (openBlockSource_sr _ _ _ HA).
Qed.

End Settings2.

(** ** Catalog lookup, fields and the progress display *)

Section Wfs.
Context `{World}.

(** X13.  Without a catalog id [initWfs] makes no node and checks nothing.
    With one, it needs credentials, those of the WFS or else those of the
    map service, and the token; the credentials are checked before the
    token, and the token is needed also when WFS credentials are given.
    The credentials are then split at every ':': the node is made when
    there are at least two pieces, and its URL is the DGCS one whenever a
    DGCS catalog id is given, the EVWHS one otherwise, with the first
    piece as the user and the second as the password; credentials without
    ':' are read past the end of the pieces, and the run ends there. *)
Theorem initWfs_checks (s : OSN) :
  let args := args_ s in
  let wanted := is_Some (a_dgcsCatalogID args) \/ is_Some (a_evwhsCatalogID args) in
  let haveCreds := a_wfsCredentials args <> "" \/ a_credentials args <> "" in
  let creds := if bool_decide (a_wfsCredentials args = "")
               then a_credentials args else a_wfsCredentials args in
  (~ wanted -> initWfs s = Ok None s) /\
  (wanted -> ~ haveCreds -> exists s', initWfs s = Throw NoWfsCredentials s') /\
  (wanted -> haveCreds -> a_token args = "" ->
   exists s', initWfs s = Throw NoWfsToken s') /\
  (wanted -> haveCreds -> a_token args <> "" ->
   forall user password rest,
     boost_split ":"%char creds = user :: password :: rest ->
     exists node s',
       initWfs s = Ok (Some node) s' /\
       n_attrs node !! "url"
       = Some (AWfsUrl
                 (if bool_decide (is_Some (a_dgcsCatalogID args))
                  then "https://services.digitalglobe.com/catalogservice/wfsaccess"
                  else "https://evwhs.digitalglobe.com/catalogservice/wfsaccess")
                 user password (a_token args))) /\
  (wanted -> haveCreds -> a_token args <> "" ->
   (length (boost_split ":"%char creds) < 2)%nat ->
   exists s', initWfs s = Throw SplitCredsOutOfRange s') /\
  (forall node s',
     initWfs s = Ok (Some node) s' ->
     (2 <= length (boost_split ":"%char creds))%nat).
Proof.
  cbv zeta. rewrite initWfs_run. cbv zeta.
  set (creds := if bool_decide (a_wfsCredentials (args_ s) = "")
                then a_credentials (args_ s) else a_wfsCredentials (args_ s)).
  assert (Hwanted : is_Some (a_dgcsCatalogID (args_ s)) \/
                    is_Some (a_evwhsCatalogID (args_ s))
                    <-> bool_decide (is_Some (a_dgcsCatalogID (args_ s)))
                        || bool_decide (is_Some (a_evwhsCatalogID (args_ s)))
                        = true)
    by (by rewrite orb_true_iff, !bool_decide_eq_true).
  assert (Hcreds : a_wfsCredentials (args_ s) <> "" \/ a_credentials (args_ s) <> ""
                   <-> bool_decide (creds = "") = false).
  { rewrite bool_decide_eq_false. unfold creds.
    destruct (bool_decide (a_wfsCredentials (args_ s) = "")) eqn:Hw.
    - apply bool_decide_eq_true_1 in Hw. split; [by intros [? | ?] | by right].
    - apply bool_decide_eq_false_1 in Hw. split; [done | by left]. }
  rewrite Hwanted, Hcreds. clear Hwanted Hcreds.
  set (s1 := logged _ s). clearbody s1.
  set (pieces := boost_split ":"%char creds). clearbody pieces.
  destruct (_ || _); cbn.
  - split; [by intros [] |].
    destruct (bool_decide (creds = "")); cbn.
    + split; [eauto |]. split; [by intros _ [=] |]. split; [by intros _ [=] |].
      split; [by intros _ [=] |]. by intros node s' [=].
    + split; [by intros _ [] |].
      destruct (bool_decide (a_token (args_ s) = "")) eqn:Ht; cbn.
      * apply bool_decide_eq_true_1 in Ht.
        split; [eauto |]. split; [by intros _ _ [] |].
        split; [by intros _ _ [] |]. by intros node s' [=].
      * apply bool_decide_eq_false_1 in Ht.
        split; [done |].
        split.
        { intros _ _ _ user password rest ->. do 2 eexists.
          split; [reflexivity |]. cbn. apply lookup_insert_eq. }
        split.
        { intros _ _ _ Hlen.
          destruct pieces as [| user [| password rest]];
            cbn in Hlen; [eauto | eauto | lia]. }
        intros node s' Hrun.
        destruct pieces as [| user [| password rest]];
          [discriminate Hrun | discriminate Hrun | cbn; lia].
  - split; [done |]. split; [by intros [=] |]. split; [by intros [=] |].
    split; [by intros [=] |]. split; [by intros [=] |]. by intros node s' [=].
Qed.

End Wfs.

Section Fields.
Context `{World}.

Lemma emplace_keys (key : string) (fields : list (string * FieldValue)) :
  existsb (fun kv => bool_decide (kv.1 = key)) fields = true <-> key ∈ fields.*1.
Proof.
  rewrite existsb_exists. split.
  - intros ([k v'] & Hin & Hk). apply bool_decide_eq_true_1 in Hk. cbn in Hk.
    subst k. apply list_elem_of_In in Hin.
    apply list_elem_of_fmap. by exists (key, v').
  - intros ([k v'] & -> & Hin)%list_elem_of_fmap. exists (k, v'). split.
    + by apply list_elem_of_In.
    + by apply bool_decide_eq_true_2.
Qed.

(** [emplace] on the list is [emplace] on the map it stands for *)
Lemma emplace_map (key : string) (v : FieldValue)
    (fields : list (string * FieldValue)) :
  NoDup fields.*1 ->
  NoDup (emplace key v fields).*1 /\
  (list_to_map (emplace key v fields) : gmap string FieldValue)
  = list_to_map (fields ++ [(key, v)]).
Proof.
  intros Hnd. unfold emplace.
  destruct (existsb _ fields) eqn:Hex.
  - split; [done |]. apply emplace_keys in Hex.
    rewrite list_to_map_app. cbn. rewrite insert_empty.
    apply map_eq. intros k. rewrite lookup_union.
    destruct (decide (k = key)) as [-> |].
    + apply list_elem_of_fmap in Hex as ([k' v'] & -> & Hin).
      rewrite (elem_of_list_to_map_1 _ _ _ Hnd Hin).
      rewrite lookup_singleton_eq. done.
    + rewrite lookup_singleton_ne by done.
      by destruct (list_to_map fields !! k).
  - split; [| done].
    rewrite fmap_app. apply NoDup_app. split; [done |].
    split; [| cbn; apply NoDup_singleton].
    intros k Hk [-> | ?%elem_of_nil]%elem_of_cons; [| done].
    apply emplace_keys in Hk. cbn in Hk. congruence.
Qed.

Lemma emplace_all (pairs fields : list (string * FieldValue)) :
  NoDup fields.*1 ->
  let fields' := fold_left (fun fs kv => emplace kv.1 kv.2 fs) pairs fields in
  NoDup fields'.*1 /\
  (list_to_map fields' : gmap string FieldValue) = list_to_map (fields ++ pairs).
Proof.
  revert fields. induction pairs as [| [k v] pairs IH]; intros fields Hnd; cbn.
  - by rewrite app_nil_r.
  - destruct (emplace_map k v fields Hnd) as [Hnd' Hmap].
    destruct (IH _ Hnd') as [IH1 IH2]. split; [exact IH1 |].
    cbn in IH2. rewrite IH2.
    rewrite !list_to_map_app. rewrite Hmap. rewrite list_to_map_app.
    cbn. rewrite insert_empty.
    rewrite <- (assoc_L (∪)). f_equal.
    by rewrite <- insert_union_singleton_l.
Qed.

(** the fields that [initPredictionToFeature] gives the node *)
Lemma initPredictionToFeature_fields (s : OSN) :
  let args := args_ s in
  exists fields,
    n_attrs (initPredictionToFeature s) !! "extraFields" = Some (AFields fields) /\
    NoDup fields.*1 /\
    (list_to_map fields : gmap string FieldValue)
    = list_to_map (builtinFields (a_producerInfo args)
                   ++ userFields (a_extraFields args)).
Proof.
  cbv zeta. unfold initPredictionToFeature. cbv zeta.
  eexists. split; [cbn; apply lookup_insert_eq |].
  set (builtin := if a_producerInfo (args_ s) then _ else _).
  assert (Hbuiltin : builtin = builtinFields (a_producerInfo (args_ s)))
    by (unfold builtin; by destruct (a_producerInfo (args_ s))).
  assert (Hnd : NoDup builtin.*1).
  { rewrite Hbuiltin. destruct (a_producerInfo (args_ s));
      apply (bool_decide_unpack _); vm_compute; exact I. }
  clearbody builtin. subst builtin. unfold userFields.
  set (pairs := extraFieldPairs _). clearbody pairs.
  assert (Hfold : forall fields,
             fold_left (fun fs kv => emplace kv.1 (FString kv.2) fs) pairs fields
             = fold_left (fun fs kv => emplace kv.1 kv.2 fs)
                         ((fun kv => (kv.1, FString kv.2)) <$> pairs) fields).
  { induction pairs as [| kv pairs IH]; intros fields; [done |]. cbn. apply IH. }
  rewrite Hfold. apply emplace_all, Hnd.
Qed.

(** X14.  The fields of the feature conversion are a map: no name twice.
    The date, and with producer information the user name, the
    application and its version, are there whatever extra fields the user
    names; of several values given for a name, the first is kept.  The
    attribute of the node just created is taken to hold no field. *)
Theorem extra_fields_first_wins (s : OSN) :
  let args := args_ s in
  Nat.Even (length (a_extraFields args)) ->
  exists fields,
    n_attrs (initPredictionToFeature s) !! "extraFields" = Some (AFields fields) /\
    NoDup fields.*1 /\
    (forall k v,
       (k, v) ∈ fields <->
       (list_to_map (builtinFields (a_producerInfo args)
                     ++ userFields (a_extraFields args))
        : gmap string FieldValue) !! k = Some v) /\
    (forall k v, (k, v) ∈ builtinFields (a_producerInfo args) -> (k, v) ∈ fields).
Proof.
  cbv zeta. intros _.
  destruct (initPredictionToFeature_fields s) as (fields & Hattr & Hnd & Hmap).
  exists fields. split; [exact Hattr |]. split; [exact Hnd |].
  assert (Hiff : forall k v,
             (k, v) ∈ fields <->
             (list_to_map (builtinFields (a_producerInfo (args_ s))
                           ++ userFields (a_extraFields (args_ s)))
              : gmap string FieldValue) !! k = Some v).
  { intros k v. rewrite <- Hmap. by apply elem_of_list_to_map. }
  split; [exact Hiff |].
  intros k v Hin. apply Hiff. rewrite list_to_map_app.
  apply lookup_union_Some_l. apply elem_of_list_to_map; [| done].
  destruct (a_producerInfo (args_ s));
    apply (bool_decide_unpack _); vm_compute; exact I.
Qed.


Lemma extraFieldPairs_names (l : list string) (k : string) :
  k ∈ (extraFieldPairs l).*1 -> k ∈ extraFieldNames l.
Proof.
  assert (Hboth : (k ∈ (extraFieldPairs l).*1 -> k ∈ extraFieldNames l) /\
                  forall x, k ∈ (extraFieldPairs (x :: l)).*1 ->
                            k ∈ extraFieldNames (x :: l)); [| by destruct Hboth].
  induction l as [| y l [IH1 IH2]].
  - split; [by intros ?%elem_of_nil | by intros x ?%elem_of_nil].
  - split; [apply IH2 |].
    intros x. cbn [extraFieldPairs extraFieldNames fmap list_fmap fst].
    intros [-> | Hin]%elem_of_cons; [by left | right; by apply IH1].
Qed.

(** X20.  In the graph that [process] assembles, every field that the
    feature conversion attaches to a feature has a definition of its name
    in the sink, and the sink has a definition named "catalog_id" exactly
    when the graph has the field extractor or the user names an extra
    field so.  The attribute of the conversion node just created is taken
    to hold no field. *)
Theorem process_fields_defined (s s' : OSN) (g : Graph) :
  process s = Ok g s' ->
  Nat.Even (length (a_extraFields (args_ s))) ->
  exists fields names,
    attr_of g "predToFeature" "extraFields" = Some (AFields fields) /\
    attr_of g "featureSink" "fieldDefinitions" = Some (AFieldNames names) /\
    (forall k, k ∈ fields.*1 -> k ∈ names) /\
    ("catalog_id" ∈ names <->
     is_Some (g_nodes g !! "fieldExtractor") \/
     "catalog_id" ∈ extraFieldNames (a_extraFields (args_ s))).
Proof.
  intros Hrun _.
  apply process_run in Hrun
    as (blockSource & sA & det & subsetFilter & slidingWindow & wfsExtractor
        & s3 & windowSizes & _ & -> & Hsame & Hargs3 & _ & HslidingWindow & _
        & HblockSource & Hdet & HsubsetFilter & HwfsExtractor & HsomeWfs).
  destruct (assemble_nodes (args_ s) (mp_metadata (a_modelPackage (args_ s)))
              s3 s' blockSource det subsetFilter slidingWindow wfsExtractor _
              HblockSource Hdet HsubsetFilter
              ltac:(by rewrite HslidingWindow)
              (fun n Hn => proj1 (HwfsExtractor n Hn)))
    as (_ & _ & _ & _ & Hp2f & Hwfs & Hsink).
  destruct Hsame as (Hargs' & _).
  destruct (initPredictionToFeature_fields s3) as (fields & Hattr & Hnd & Hmap).
  cbv zeta in Hmap. rewrite Hargs3 in Hmap.
  eexists fields, _. unfold attr_of. rewrite Hp2f, Hsink, Hwfs. cbn [mbind option_bind].
  split; [exact Hattr |].
  split; [unfold initFeatureSink; cbn; apply lookup_insert_eq |].
  rewrite Hargs', Hargs3.
  set (catalog := bool_decide _ || bool_decide _).
  assert (Hcatalog : catalog = true <-> is_Some wfsExtractor).
  { rewrite HsomeWfs. unfold catalog.
    rewrite orb_true_iff, !bool_decide_eq_true. done. }
  clearbody catalog.
  split.
  - intros k Hk.
    assert (Hin : k ∈ (builtinFields (a_producerInfo (args_ s))
                       ++ userFields (a_extraFields (args_ s))).*1).
    { apply list_elem_of_fmap in Hk as ([k' v] & -> & Hk).
      apply (elem_of_list_to_map_1 _ _ _ Hnd) in Hk. rewrite Hmap in Hk.
      apply elem_of_list_to_map_2 in Hk.
      apply list_elem_of_fmap. by exists (k', v). }
    rewrite fmap_app in Hin. apply elem_of_app in Hin as [Hin | Hin].
    + apply elem_of_app. left.
      destruct (a_producerInfo (args_ s)), catalog; cbn in Hin |- *;
        repeat (apply elem_of_cons in Hin as [-> | Hin];
                [apply (bool_decide_unpack _); vm_compute; exact I |]);
        by apply elem_of_nil in Hin.
    + apply elem_of_app. right. apply extraFieldPairs_names.
      unfold userFields in Hin. rewrite <- list_fmap_compose in Hin.
      exact Hin.
  - rewrite <- Hcatalog. rewrite elem_of_app.
    destruct (a_producerInfo (args_ s)), catalog; cbn;
      (split; intros [Hx | Hx]; [| by right | |by right]);
      first [ by left
            | left; apply (bool_decide_unpack _); vm_compute; exact I
            | discriminate Hx
            | exfalso; revert Hx; apply (bool_decide_unpack _); vm_compute;
              exact I ].
Qed.

End Fields.

Section MonitorTrace.

Lemma callback_while_running (m : Monitor) (e : MonitorEvent) :
  pd_running m = true -> isMetric e = true ->
  let m' := monitorStep true m e in
  pd_running m' = true /\ pd_updates m' = pd_updates m ++ updatesOf e /\
  sink_cancels m' = sink_cancels m.
Proof.
  intros Hrunning He.
  destruct e; try discriminate He; cbn;
    unfold subsetsRequested, subsetsRead, subsetsProcessed;
    rewrite Hrunning; cbn; rewrite <- ?app_assoc; done.
Qed.

Lemma monitor_running (m : Monitor) (events : list MonitorEvent) :
  pd_running m = true -> Forall (fun e => isMetric e = true) events ->
  let m' := monitorRun true m events in
  pd_running m' = true /\
  pd_updates m' = pd_updates m ++ (events ≫= updatesOf) /\
  sink_cancels m' = sink_cancels m.
Proof.
  intros Hrunning Hall. revert m Hrunning. unfold monitorRun.
  induction Hall as [| e events He _ IH]; intros m Hrunning; cbn [fold_left].
  - cbn. by rewrite app_nil_r.
  - destruct (callback_while_running m e Hrunning He) as (H1 & H2 & H3).
    destruct (IH _ H1) as (IH1 & IH2 & IH3).
    rewrite IH1, IH2, IH3, H2, H3. cbn. by rewrite <- app_assoc.
Qed.

Lemma monitor_stopped (m : Monitor) (events : list MonitorEvent) :
  pd_running m = false ->
  let m' := monitorRun true m events in
  pd_updates m' = pd_updates m /\
  sink_cancels m' = (sink_cancels m + length (filter isMetric events))%nat.
Proof.
  intros Hstopped. revert m Hstopped. unfold monitorRun.
  induction events as [| e events IH]; intros m Hstopped; cbn [fold_left].
  - cbn. split; [done | lia].
  - destruct (callback_after_stop m e Hstopped) as (H1 & H2 & H3).
    destruct (IH _ H1) as (IH1 & IH2).
    rewrite IH1, IH2, H2, H3. split; [done |].
    destruct (isMetric e) eqn:He.
    + rewrite filter_cons_True by (by rewrite He). cbn. lia.
    + rewrite filter_cons_False by (rewrite He; exact id). done.
Qed.

(** X22.  A whole interactive run: as long as the display runs no
    cancellation is requested and every callback sends its updates, the
    maximum of "Reading" and then of "Detecting" for a new total, the
    current value of "Reading" for a forwarded subset and of "Detecting"
    for a processed one; when the display is stopped after the events
    [before], the updates end with those of [before] and the sink is asked
    to cancel once for every later callback. *)
Theorem monitor_trace (before after : list MonitorEvent) :
  Forall (fun e => isMetric e = true) before ->
  let running := monitorRun true monitorStart before in
  let final := monitorRun true monitorStart (before ++ DisplayStop :: after) in
  pd_running running = true /\
  sink_cancels running = 0%nat /\
  pd_updates running = before ≫= updatesOf /\
  pd_updates final = before ≫= updatesOf /\
  sink_cancels final = length (filter isMetric after).
Proof.
  intros Hbefore. cbv zeta.
  destruct (monitor_running monitorStart before eq_refl Hbefore)
    as (Hrun & Hupd & Hcancel).
  cbn in Hupd, Hcancel.
  split; [exact Hrun |]. split; [exact Hcancel |]. split; [exact Hupd |].
  unfold monitorRun in *. rewrite fold_left_app. cbn [fold_left].
  set (m := fold_left (monitorStep true) before monitorStart) in *.
  destruct (monitor_stopped (monitorStep true m DisplayStop) after eq_refl)
    as (Hupd' & Hcancel').
  unfold monitorRun in Hupd', Hcancel'. rewrite Hupd', Hcancel'. cbn.
  rewrite Hupd, Hcancel. done.
Qed.

(** X23.  The callbacks only ever update the categories that
    [setProgressDisplay] has given the display: whatever the events of a
    run, in either mode and whether or not the display is stopped on the
    way, every update sent is for "Reading" or "Detecting" when those
    sent before are. *)
Theorem updates_in_categories (interactive : bool) (m : Monitor)
    (events : list MonitorEvent) :
  Forall (fun u => updateCategory u ∈ setProgressDisplay.*1) (pd_updates m) ->
  Forall (fun u => updateCategory u ∈ setProgressDisplay.*1)
         (pd_updates (monitorRun interactive m events)).
Proof.
  revert m. unfold monitorRun.
  induction events as [| e events IH]; intros m Hm; [exact Hm |].
  cbn [fold_left]. apply IH.
  assert (Hreading : "Reading" ∈ setProgressDisplay.*1) by (by left).
  assert (Hdetecting : "Detecting" ∈ setProgressDisplay.*1) by (right; by left).
  destruct e, interactive; cbn; try exact Hm;
    unfold subsetsRequested, subsetsRead, subsetsProcessed;
    destruct (pd_running m); cbn; try exact Hm;
    repeat (apply Forall_app; split); try exact Hm;
    by apply Forall_singleton.
Qed.

End MonitorTrace.

(** ** What an error tells of *)

Section Causes.
Context `{World}.

Lemma bind_Throw_inv {A B} (m : M A) (k : A -> M B) (s s' : OSN) (e : Error) :
  bind m k s = Throw e s' ->
  m s = Throw e s' \/ exists a s1, m s = Ok a s1 /\ k a s1 = Throw e s'.
Proof.
  unfold bind. destruct (m s) as [a s1 | e1 s1]; [eauto |].
  intros [= <- <-]. by left.
Qed.

Lemma foldM_Throw {A B} (body : B -> A -> M B) (P : A -> Error -> Prop) :
  (forall b x s e s', body b x s = Throw e s' -> P x e) ->
  forall l b s e s',
    foldM body l b s = Throw e s' -> exists x, x ∈ l /\ P x e.
Proof.
  intros Hbody l. induction l as [| x l IH]; intros b s e s'; [done |].
  cbn [foldM]. intros [Hx | (b1 & s1 & _ & Hrest)]%bind_Throw_inv.
  - exists x. split; [by left | by eapply Hbody].
  - destruct (IH _ _ _ _ Hrest) as (y & Hin & Hy).
    exists y. split; [by right | done].
Qed.

Lemma openBlockSource_Throw (s s' : OSN) (e : Error) :
  openBlockSource s = Throw e s' -> cause (args_ s) e.
Proof.
  unfold openBlockSource. unfold bind at 1, get at 1.
  destruct (Source_gt (a_source (args_ s)) LOCAL) eqn:Hgt.
  - unfold initMapServiceImage. monad_unfold. cbn.
    destruct (a_bbox (args_ s)) eqn:Hbbox.
    + destruct (a_source (args_ s)); cbn; discriminate.
    + intros [= <- _]. by split.
  - destruct (Source_eqb (a_source (args_ s)) LOCAL) eqn:Heq.
    + assert (Hlocal : a_source (args_ s) = LOCAL)
        by (by destruct (a_source (args_ s))).
      unfold initLocalImage. monad_unfold. cbn.
      destruct (isLocal _) eqn:Hsr; cbn.
      * by destruct (a_bbox (args_ s)).
      * destruct (a_bbox (args_ s)) as [argsBbox|] eqn:Hbbox; cbn; [| done].
        destruct (negb _ && negb _) eqn:Hcheck; cbn.
        { by destruct (Rect_eqb _ _). }
        intros [= <- _]. split; [done |]. split; [done |].
        exists argsBbox. split; [done |]. cbv zeta.
        apply andb_false_iff in Hcheck
          as [Hc%negb_false_iff%Z.eqb_eq | Hc%negb_false_iff%Z.eqb_eq]; eauto.
    + intros [= <- _]. cbn. by destruct (a_source (args_ s)).
Qed.

Lemma initDetector_Throw (s s' : OSN) (e : Error) :
  initDetector s = Throw e s' -> cause (args_ s) e.
Proof.
  rewrite initDetector_run. cbv zeta.
  destruct (a_resampledSize (args_ s)) as [r|] eqn:Hres.
  - destruct (r <=? _) eqn:Hr; cbn.
    + destruct (bool_decide _) eqn:Hcat; cbn; [| done].
      destruct (mp_isSegmentation _) eqn:Hseg; cbn; [done |].
      intros [= <- _]. split; [by apply bool_decide_eq_true_1 in Hcat | done].
    + intros [= <- _]. exists r. split; [done |]. apply Z.leb_gt in Hr. done.
  - cbn. destruct (forallb _ _) eqn:Hall; cbn.
    + destruct (bool_decide _) eqn:Hcat; cbn; [| done].
      destruct (mp_isSegmentation _) eqn:Hseg; cbn; [done |].
      intros [= <- _]. split; [by apply bool_decide_eq_true_1 in Hcat | done].
    + intros [= <- _]. split; [done |].
      apply Exists_exists.
      assert (Hnot : ~ Forall (fun c => c <= sz_width (md_modelSize (mp_metadata
                                 (a_modelPackage (args_ s))))) (a_windowSize (args_ s))).
      { intros HF. rewrite Forall_forall in HF.
        assert (Ht : forallb (fun c => c <=? sz_width (md_modelSize (mp_metadata
                                 (a_modelPackage (args_ s))))) (a_windowSize (args_ s)) = true).
        { apply forallb_forall. intros c Hc. apply Z.leb_le, HF.
          by apply list_elem_of_In. }
        congruence. }
      apply not_Forall_Exists in Hnot; [| intros c; apply _].
      apply Exists_exists in Hnot as (c & Hin & Hc). exists c. split; [done |]. by apply Z.nle_gt.
Qed.

Lemma initSlidingWindow_Throw (s s' : OSN) (e : Error) :
  is_Some (metadata_ s) ->
  initSlidingWindow s = Throw e s' -> cause (args_ s) e.
Proof.
  intros [md Hmd]. unfold initSlidingWindow.
  unfold bind at 1, get at 1. rewrite Hmd.
  intros [Hsize | (size & s1 & Hsize & Hrun)]%bind_Throw_inv.
  { by destruct (a_resampledSize (args_ s)). }
  assert (s1 = s) as ->
    by (destruct (a_resampledSize (args_ s)); unfold ret in Hsize; congruence).
  apply bind_Throw_inv in Hrun as [Hplan | (? & ? & _ & Hret)]; [| done].
  revert Hplan. unfold calcWindows. monad_unfold.
  destruct (_ || _ || _) eqn:Hcheck; cbn.
  - repeat match goal with
           | |- context [if ?c then _ else _] => destruct c
           end; done.
  - intros [= <- _]. cbn.
    apply orb_false_iff in Hcheck as [Hcheck Hne].
    apply orb_false_iff in Hcheck as [Hsizes Hsteps].
    apply Nat.ltb_ge in Hsizes, Hsteps. apply Nat.eqb_neq in Hne.
    split; [lia |]. split; [lia | done].
Qed.

Lemma initWfs_Throw (s s' : OSN) (e : Error) :
  initWfs s = Throw e s' -> cause (args_ s) e.
Proof.
  rewrite initWfs_run. cbv zeta.
  set (creds := if bool_decide (a_wfsCredentials (args_ s) = "")
                then a_credentials (args_ s) else a_wfsCredentials (args_ s)).
  assert (Hcreds : creds = "" ->
                   a_wfsCredentials (args_ s) = "" /\ a_credentials (args_ s) = "").
  { unfold creds. destruct (bool_decide (a_wfsCredentials (args_ s) = "")) eqn:Hw.
    - apply bool_decide_eq_true_1 in Hw. done.
    - apply bool_decide_eq_false_1 in Hw. done. }
  assert (Hcause : is_Some (a_dgcsCatalogID (args_ s)) \/
                   is_Some (a_evwhsCatalogID (args_ s)) ->
                   a_token (args_ s) <> "" ->
                   (length (boost_split ":"%char creds) < 2)%nat ->
                   cause (args_ s) SplitCredsOutOfRange) by (by cbn).
  set (pieces := boost_split ":"%char creds) in *. clearbody pieces.
  destruct (_ || _) eqn:Hcat; cbn; [| done].
  assert (Hcatalog : is_Some (a_dgcsCatalogID (args_ s)) \/
                     is_Some (a_evwhsCatalogID (args_ s)))
    by (apply orb_true_iff in Hcat
          as [?%bool_decide_eq_true_1 | ?%bool_decide_eq_true_1]; eauto).
  destruct (bool_decide (creds = "")) eqn:Hc; cbn.
  { intros [= <- _]. apply bool_decide_eq_true_1 in Hc. cbn.
    split; [done |]. by apply Hcreds. }
  destruct (bool_decide (a_token (args_ s) = "")) eqn:Ht; cbn.
  { intros [= <- _]. apply bool_decide_eq_true_1 in Ht. cbn. done. }
  apply bool_decide_eq_false_1 in Ht.
  destruct pieces as [| user [| password rest]]; intros Hrun;
    [injection Hrun as <- _; apply Hcause; cbn; done || lia ..
    | discriminate Hrun].
Qed.

Lemma addLayer_cause (s s' : OSN) (file : string) (layer : Layer)
    (polys : list Geometry) (e : Error) :
  addLayer file polys layer s = Throw e s' -> layer_cause file layer e.
Proof.
  destruct (decide (isLocal (l_sr layer) = isLocal (sr_ s))) as [Heq | Hne].
  - rewrite addLayer_run by done.
    destruct (forallb _ _) eqn:Hall; [done |].
    intros [= <- _]. right. right. split; [done |].
    assert (Hnot : ~ Forall (fun f => f_type f = POLYGON) (l_features layer))
      by (rewrite <- forallb_polygon; congruence).
    apply not_Forall_Exists in Hnot;
      [| intros f; unfold Decision; destruct (f_type f); (by left) || (by right)].
    by apply Exists_exists in Hnot.
  - unfold addLayer, bind. rewrite layerTransform_mismatch by done.
    intros [= <- _]. unfold layer_cause.
    destruct (isLocal (l_sr layer)); eauto.
Qed.

Lemma applyAction_cause (s s' : OSN) (st : RegionFilter * bool)
    (entry : string * list string) (e : Error) :
  applyAction st entry s = Throw e s' ->
  (e = UnknownFilterAction entry.1 /\
   entry.1 <> "include" /\ entry.1 <> "exclude") \/
  exists file layer,
    file ∈ entry.2 /\ layer ∈ openFeatureSet file /\ layer_cause file layer e.
Proof.
  rewrite applyAction_run.
  destruct (foldM addFile entry.2 [] s) as [polys s1 | e1 s1] eqn:Hfiles.
  - destruct (bool_decide (entry.1 = "include")) eqn:Hinc; [done |].
    destruct (bool_decide (entry.1 = "exclude")) eqn:Hexc;
      [by destruct st.2 |].
    intros [= <- _]. left.
    apply bool_decide_eq_false_1 in Hinc, Hexc. done.
  - intros [= <- _]. right.
    apply (foldM_Throw addFile
             (fun file e => exists layer,
                  layer ∈ openFeatureSet file /\ layer_cause file layer e))
      in Hfiles as (file & Hin & layer & Hlayer & Hcause).
    + by exists file, layer.
    + intros polys file s0 e0 s0' Hfile. unfold addFile in Hfile.
      apply (foldM_Throw (addLayer file) (fun layer e => layer_cause file layer e))
        in Hfile as (layer & Hin & Hcause); [by exists layer |].
      intros polys' layer s2 e2 s2'. apply addLayer_cause.
Qed.

Lemma initSubsetRegionFilter_Throw (s s' : OSN) (e : Error) :
  initSubsetRegionFilter s = Throw e s' -> cause (args_ s) e.
Proof.
  unfold initSubsetRegionFilter. unfold bind at 1, get at 1.
  destruct (a_filterDefinition (args_ s)) as [| d defs] eqn:Hdefs; [done |].
  intros [Hemit | ([] & s1 & Hemit & Hrun)]%bind_Throw_inv; [done |].
  assert (Hargs : args_ s1 = args_ s) by (by injection Hemit as <-).
  apply bind_Throw_inv in Hrun as [Hbuild | (? & ? & _ & Hret)]; [| done].
  unfold buildRegionFilter in Hbuild. unfold bind at 1, get at 1 in Hbuild.
  apply bind_Throw_inv in Hbuild as [Hloop | (? & ? & _ & Hret)]; [| done].
  rewrite Hargs, Hdefs in Hloop.
  apply (foldM_Throw applyAction
           (fun entry e =>
              (e = UnknownFilterAction entry.1 /\
               entry.1 <> "include" /\ entry.1 <> "exclude") \/
              exists file layer,
                file ∈ entry.2 /\ layer ∈ openFeatureSet file /\
                layer_cause file layer e))
    in Hloop as ([action files] & Hin & Hcause).
  - cbn [fst snd] in Hcause.
    destruct Hcause as [(-> & Hinc & Hexc) | (file & layer & Hfile & Hlayer & Hcause)].
    + cbn. rewrite Hdefs. eauto.
    + assert (Hdef : in_definition (args_ s) file)
        by (exists action, files; by rewrite Hdefs).
      destruct Hcause as [[-> Hsr] | [[-> Hsr] | [-> (feature & Hf & Hty)]]];
        cbn; eauto 6.
  - intros st entry s0 e0 s0'. apply applyAction_cause.
Qed.

(** X21.  Every error that [process] can end with tells of its cause in
    the arguments, the image and the filter files: no source; a map
    service without a bounding box; a local image with a coordinate
    reference system and a box that misses it; a resample size, or without
    one a window size, above the model's width; category "segmentation" on
    a model that is not a segmentation model; window sizes and steps both
    several and not as many; an action that is neither "include" nor
    "exclude"; a layer or a feature of a file of the definition; a catalog
    id without credentials, without a token, or with credentials that
    hold no ':'.  The error whose text says
    that the filter has no spatial reference is the one for a layer that
    has one, and the other way round; the metadata are never missing.
    Without a source the run ends at once, nothing logged and the object
    untouched. *)
Theorem process_error_causes (s : OSN) :
  (forall e s', process s = Throw e s' -> cause (args_ s) e) /\
  (a_source (args_ s) = UNKNOWN -> process s = Throw InputSourceNotSpecified s).
Proof.
  split; [| intros Hsrc; unfold process, openBlockSource;
            unfold bind at 1 2, get at 1; by rewrite Hsrc].
  unfold process. intros e s' Hrun.
  apply bind_Throw_inv in Hrun as [HA | (blockSource & sA & HA & Hrun)];
    [by eapply openBlockSource_Throw |].
  pose proof (preserves_Ok _ _ _ _ _ openBlockSource_args HA) as HargsA.
  unfold same_args in HargsA.
  apply bind_Throw_inv in Hrun as [Hx | (s1 & ? & [= <- <-] & Hrun)]; [done |].
  cbv zeta in Hrun.
  apply bind_Throw_inv in Hrun as [Hx | ([] & sB1 & [= <-] & Hrun)]; [done |].
  apply bind_Throw_inv in Hrun as [Hx | ([] & sB & [= <-] & Hrun)]; [done |].
  apply bind_Throw_inv in Hrun as [HC | (model & sC & HC & Hrun)].
  { apply initDetector_Throw in HC. cbn in HC. by rewrite HargsA in HC. }
  pose proof (initDetector_inv _ _ _ HC) as (HargsC & HmdC & _).
  cbn in HargsC, HmdC.
  apply bind_Throw_inv in Hrun as [HD | ([] & sD & HD & Hrun)].
  { revert HD. unfold printModel. unfold bind at 1, get at 1.
    rewrite HmdC. done. }
  pose proof (preserves_Ok _ _ _ _ _ printModel_keeps HD) as HD'.
  destruct HD' as (HargsD &_&_&_&_&_&_&_& HmdD &_).
  apply bind_Throw_inv in Hrun as [Hx | (s2 & ? & [= <- <-] & Hrun)]; [done |].
  apply bind_Throw_inv in Hrun as [Hmd | (md & ? & Hmd & Hrun)].
  { rewrite HmdD, HmdC in Hmd. done. }
  rewrite HmdD, HmdC in Hmd. unfold ret in Hmd. injection Hmd as <- <-.
  apply bind_Throw_inv in Hrun as [HE | (subsetFilter & sE & HE & Hrun)].
  { apply initSubsetRegionFilter_Throw in HE. by rewrite HargsD, HargsC, HargsA in HE. }
  pose proof (preserves_Ok _ _ _ _ _ initSubsetRegionFilter_keeps HE) as HE'.
  destruct HE' as (HargsE &_&_&_&_&_&_&_& HmdE &_).
  apply bind_Throw_inv in Hrun as [HF | (slidingWindow & sF & HF & Hrun)].
  { apply initSlidingWindow_Throw in HF.
    - by rewrite HargsE, HargsD, HargsC, HargsA in HF.
    - rewrite HmdE, HmdD, HmdC. eauto. }
  pose proof (preserves_Ok _ _ _ _ _ initSlidingWindow_keeps HF) as HF'.
  destruct HF' as (HargsF &_).
  apply bind_Throw_inv in Hrun as [Hx | (s3 & ? & [= <- <-] & Hrun)]; [done |].
  apply bind_Throw_inv in Hrun as [HG | (wfsExtractor & sG & HG & Hrun)].
  { apply initWfs_Throw in HG.
    by rewrite HargsF, HargsE, HargsD, HargsC, HargsA in HG. }
  apply bind_Throw_inv in Hrun as [Hx | (s4 & ? & [= <- <-] & Hrun)]; done.
Qed.

End Causes.

(** ** The theorems at the concrete world *)

Import Concrete.

Lemma isOk_Ok `{External} {A} (o : Outcome A) : isOk o = true -> exists a s, o = Ok a s.
Proof. destruct o as [a s | e s]; [eauto | discriminate]. Qed.

Lemma process_prediction_wiring_witness :
  (exists g s',
     process (OpenSpaceNet_new segmentationArgs) = Ok g s' /\
     kind_of g "nms" = Some PolyNonMaxSuppression /\
     wired g "nms" "predictions" "detector" "predictions" /\
     ~ has_kind PredictionBoxToPoly g) /\
  (exists g s',
     process (OpenSpaceNet_new detectionArgs) = Ok g s' /\
     wired g "labelFilter" "predictions" "detector" "predictions" /\
     wired g "predictionToPoly" "predictions" "labelFilter" "predictions" /\
     wired g "predToFeature" "predictions" "predictionToPoly" "predictions" /\
     ~ has_kind PolyNonMaxSuppression g /\ ~ has_kind BoxNonMaxSuppression g).
Proof.
  split.
  - destruct (isOk_Ok (process (OpenSpaceNet_new segmentationArgs)))
      as (g & s' & Hrun); [vm_compute; reflexivity |].
    exists g, s'. split; [exact Hrun |].
    destruct (process_prediction_wiring _ _ _ Hrun) as [Hseg _].
    destruct Hseg as (_ & Hnms & Hwire & _ & _ & Hno); try reflexivity.
    repeat split; assumption.
  - destruct (isOk_Ok (process (OpenSpaceNet_new detectionArgs)))
      as (g & s' & Hrun); [vm_compute; reflexivity |].
    exists g, s'. split; [exact Hrun |].
    destruct (process_prediction_wiring _ _ _ Hrun) as [_ Hdet].
    destruct Hdet as (_ & _ & _ & _ & H1 & H2 & H3 & H4 & H5);
      [reflexivity | reflexivity | left; discriminate |].
    repeat split; assumption.
Defined.

(** the image is 100 x 100: a box that straddles its corner lets the run
    go on with the 10 x 10 overlap, and the overlap taken back is logged; a
    box beside the image ends the run *)
Lemma initLocalImage_bbox_witness :
  (exists node s',
     initLocalImage (OpenSpaceNet_new detectionArgs) = Ok node s' /\
     bbox_ s' = mkRect 90 90 10 10 /\
     sr_ s' = WGS84 /\
     pixelToLL_ s' =
       [T_inverse (T_inverse (T_pixelToProj "anchored.tif"));
        T_inverse (T_fromLatLon (SR_Crs "EPSG:32633"))] /\
     log_ s' = [LogBboxAdjusted (mkRect 1090 2090 10 10)]) /\
  (exists s',
     initLocalImage (OpenSpaceNet_new outsideArgs) = Throw NoIntersection s' /\
     log_ s' = []).
Proof.
  split.
  - exact (initLocalImage_bbox (OpenSpaceNet_new detectionArgs)
                               (mkRect 1090 2090 30 30) eq_refl eq_refl).
  - exact (initLocalImage_bbox (OpenSpaceNet_new outsideArgs)
                               (mkRect 1200 2200 10 10) eq_refl eq_refl).
Defined.

Lemma initLocalImage_local_witness :
  exists node s',
    initLocalImage (OpenSpaceNet_new localArgs) = Ok node s' /\
    sr_ s' = SR_Local /\
    bbox_ s' = mkRect 0 0 100 100 /\
    log_ s' =
      [LogWarning "Image has geometric metadata which cannot be converted to WGS84.  Output will be in native space, and some output formats will fail.";
       LogWarning "Supplying the --bbox option implicitly requests a conversion from WGS84 to pixel space however there is no conversion from WGS84 to pixel space.";
       LogWarning "Ignoring user-supplied bounding box"].
Proof.
  exact (initLocalImage_local (OpenSpaceNet_new localArgs) eq_refl).
Defined.

Lemma calcWindows_pairs_witness :
  exists s,
    calcWindows s
    = Ok [(mkSize 20 30, mkPoint 10 15); (mkSize 30 45, mkPoint 15 23)] s.
Proof.
  destruct (isOk_Ok (initDetector (OpenSpaceNet_new detectionArgs)))
    as (det & s & Hinit); [vm_compute; reflexivity |].
  exists s.
  destruct (calcWindows_pairs _ _ _ Hinit) as (plan & Hrun & _ & Hplan & _);
    [reflexivity | discriminate |].
  rewrite Hrun, Hplan. reflexivity.
Defined.

Lemma calcWindows_mismatch_iff_witness :
  calcWindows (OpenSpaceNet_new
                 (args LOCAL "anchored.tif" None boxModel [20; 30; 40] [10; 15]
                       false [] [] []))
  = Throw WindowStepCountMismatch
          (OpenSpaceNet_new
             (args LOCAL "anchored.tif" None boxModel [20; 30; 40] [10; 15]
                   false [] [] [])).
Proof.
  apply (calcWindows_mismatch_iff _). cbn. repeat split; [lia | lia | done].
Defined.

Lemma bbox_required_for_map_service_witness :
  exists s',
    process (OpenSpaceNet_new remoteArgs) = Throw BoundingBoxMustBeSpecified s' /\
    log_ s' = [LogInfo "Opening map service image..."].
Proof.
  destruct (bbox_required_for_map_service (OpenSpaceNet_new remoteArgs) eq_refl)
    as [Hremote _].
  destruct Hremote as (s' & Hrun & Hlog & _).
  { cbn. set_solver. }
  exists s'. split; [exact Hrun | exact Hlog].
Defined.

Lemma exclude_first_adds_extent_witness :
  (exists rf s',
     buildRegionFilter (afterInit originArgs) = Ok rf s' /\
     bbox_ (afterInit originArgs) = mkRect 0 0 40 40 /\
     rf_ops rf = [Add [mkRect 0 0 40 40]; Subtract [mkRect 30 30 20 20]]) /\
  (exists rf s',
     buildRegionFilter (afterInit includeExcludeArgs) = Ok rf s' /\
     rf_ops rf = [Add [mkRect 0 0 60 60]; Subtract [mkRect 30 30 20 20]]).
Proof.
  split.
  - destruct (exclude_first_adds_extent (afterInit originArgs))
      as (_ & Hexclude & _).
    destruct (Hexclude ["a.shp"] [mkRect 30 30 20 20] (afterInit originArgs))
      as (rf & s' & Hrun & Hops & _);
      [reflexivity | reflexivity | reflexivity | vm_compute; reflexivity |].
    exists rf, s'. split; [exact Hrun |]. split; [reflexivity | exact Hops].
  - destruct (exclude_first_adds_extent (afterInit includeExcludeArgs))
      as (_ & _ & Hboth & _).
    destruct (Hboth ["big.shp"] ["a.shp"] [mkRect 0 0 60 60] [mkRect 30 30 20 20]
                    (afterInit includeExcludeArgs) (afterInit includeExcludeArgs))
      as (rf & s' & Hrun & Hops & _);
      [reflexivity | vm_compute; reflexivity | vm_compute; reflexivity |].
    exists rf, s'. split; [exact Hrun | exact Hops].
Defined.

(** The image is 100 x 100 and the bounding box covers its pixels
    [0..39] x [0..39]; the polygon excluded covers [30..49] x [30..49].
    The pixel (50, 50) is in the rectangle of the whole image and not in the
    polygon, yet not in the filter: the rectangle added is the bounding
    box, (0, 0, 40, 40). *)
Lemma exclude_first_counterexample :
  let s := afterInit originArgs in
  let polyA := [mkRect 30 30 20 20] in
  let p := (50, 50) in
  a_filterDefinition (args_ s) = [("exclude", ["a.shp"])] /\
  imageSize_ s = mkSize 100 100 /\
  bbox_ s = mkRect 0 0 40 40 /\
  foldM addFile ["a.shp"] [] s = Ok polyA s /\
  exists rf s',
    buildRegionFilter s = Ok rf s' /\
    RegionFilter_contains rf p
    <> geometryContains (rectPolygon (Rect_ofSize (imageSize_ s))) p
       && negb (anyContains polyA p).
Proof.
  intros s polyA p.
  split; [reflexivity |]. split; [reflexivity |]. split; [reflexivity |].
  split; [vm_compute; reflexivity |].
  destruct (isOk_Ok (buildRegionFilter s)) as (rf & s' & Hrun);
    [vm_compute; reflexivity |].
  exists rf, s'. split; [exact Hrun |].
  assert (Hin : RegionFilter_contains rf p = false).
  { change rf with (match Ok rf s' with Ok r _ => r | Throw _ _ => rf end).
    rewrite <- Hrun. vm_compute. reflexivity. }
  rewrite Hin. vm_compute. discriminate.
Qed.

Lemma callbacks_after_stop_witness :
  let stopped := monitorRun true monitorStart [MetricTotal 10; DisplayStop] in
  let m' := monitorRun true stopped
                       [MetricForwarded 1; MetricProcessed 1; MetricTotal 12] in
  pd_updates m' = [UpdateMaximum "Reading" 10; UpdateMaximum "Detecting" 10] /\
  sink_cancels m' = 3%nat.
Proof.
  intros stopped m'.
  destruct (callbacks_after_stop
              stopped [MetricForwarded 1; MetricProcessed 1; MetricTotal 12]
              eq_refl) as (_ & Hupd & Hcancels & _).
  split; [exact Hupd | exact Hcancels].
Defined.

(** the display is stopped and two callbacks follow: two requests *)
Lemma one_cancellation_counterexample :
  ~ (forall events,
       observedStopped events ->
       sink_cancels (monitorRun true monitorStart events) = 1%nat).
Proof.
  intros Hclaim.
  specialize (Hclaim [MetricTotal 10; DisplayStop; MetricForwarded 1;
                      MetricProcessed 1]).
  assert (Hobs : observedStopped [MetricTotal 10; DisplayStop; MetricForwarded 1;
                                  MetricProcessed 1]).
  { exists [MetricTotal 10; DisplayStop], (MetricForwarded 1), [MetricProcessed 1].
    repeat split. }
  specialize (Hclaim Hobs). vm_compute in Hclaim. discriminate Hclaim.
Qed.

Lemma label_filter_exclude_wins_witness :
  initLabelFilter (OpenSpaceNet_new detectionArgs) false
  = Some (mkNode _ "labelFilter" BoxLabelFilter
                 (<["labelFilterType" := ALabelFilterType EXCLUDE]>
                    (<["labels" := AStrings ["car"]]> ∅))) /\
  match process (OpenSpaceNet_new detectionArgs),
        process (with_includeLabels ["ship"; "plane"] (OpenSpaceNet_new detectionArgs))
  with
  | Ok g _, Ok g' _ => g' = g
  | Throw e _, Throw e' _ => e' = e
  | _, _ => False
  end.
Proof.
  destruct (label_filter_exclude_wins (OpenSpaceNet_new detectionArgs))
    as (Hnode & Hgraph & _).
  split.
  - apply Hnode; discriminate.
  - apply Hgraph. discriminate.
Defined.

(** ** The further properties at the concrete world *)

Lemma error_of_Throw {A} (o : Outcome A) (e : Error) :
  error_of o = Some e -> exists s, o = Throw e s.
Proof. destruct o as [a s | e' s]; [discriminate | intros [= <-]; eauto]. Qed.

Lemma value_of_Ok {A} (o : Outcome A) (a : A) :
  value_of o = Some a -> exists s, o = Ok a s.
Proof. destruct o as [a' s | e s]; [intros [= <-]; eauto | discriminate]. Qed.

(** a box of 40 x 40 pixels at (20, 20) of the image of 100 x 100 *)
Lemma initLocalImage_bbox_unchanged_witness :
  exists node s',
    initLocalImage (OpenSpaceNet_new clippedArgs) = Ok node s' /\
    bbox_ s' = mkRect 20 20 40 40 /\
    log_ s' = log_ (OpenSpaceNet_new clippedArgs).
Proof.
  destruct (initLocalImage_bbox_unchanged (OpenSpaceNet_new clippedArgs)
              (mkRect 1020 2020 40 40))
    as (node & s' & Hrun & Hbbox & Hlog);
    [first [reflexivity | vm_compute; congruence] .. |].
  exists node, s'. split; [exact Hrun |]. split; [exact Hbbox | exact Hlog].
Defined.

Lemma initLocalImage_bbox_within_witness :
  exists node s',
    initLocalImage (OpenSpaceNet_new detectionArgs) = Ok node s' /\
    imageSize_ s' = mkSize 100 100 /\
    (forall p, Rect_contains (bbox_ s') p = true ->
               Rect_contains (Rect_ofSize (imageSize_ s')) p = true) /\
    0 < r_width (bbox_ s') /\ 0 < r_height (bbox_ s').
Proof.
  destruct (isOk_Ok (initLocalImage (OpenSpaceNet_new detectionArgs)))
    as (node & s' & Hrun); [vm_compute; reflexivity |].
  exists node, s'. split; [exact Hrun |].
  destruct (initLocalImage_bbox_within _ _ _ Hrun) as (Hsize & Hin & Hpos & _).
  split; [exact Hsize |]. split; [exact Hin |].
  apply Hpos; [reflexivity | by eexists].
Defined.

(** the client of DGCS is given the WMTS settings *)
Lemma initMapServiceImage_bbox_witness :
  exists node s',
    initMapServiceImage (OpenSpaceNet_new serviceArgs) = Ok node s' /\
    is_node "blockSource" MapServiceBlockSource node /\
    sr_ s' = WGS84 /\
    bbox_ s' = mkRect 10 10 30 30.
Proof.
  destruct (initMapServiceImage_bbox (OpenSpaceNet_new serviceArgs)
              (mkRect 1010 2010 30 30) eq_refl)
    as (node & s' & Hrun & Hnode & Hsr & _ & Hbbox & _).
  exists node, s'. repeat split; try assumption; apply Hnode.
Defined.

(** a resample size of 80 for a model of width 64 *)
Lemma initDetector_checks_witness :
  exists s, initDetector (OpenSpaceNet_new wideArgs) = Throw ResampleSizeTooLarge s.
Proof.
  destruct (initDetector_checks (OpenSpaceNet_new wideArgs)) as (Hresample & _).
  apply Hresample. intros Hfits. specialize (Hfits 80 eq_refl).
  vm_compute in Hfits. by apply Hfits.
Defined.

(** sizes 20 and 30 for a model of 50 x 75, and the default step of the
    first size *)
Lemma calcWindows_broadcast_witness :
  exists det s,
    initDetector (OpenSpaceNet_new broadcastArgs) = Ok det s /\
    calcWindows s
    = Ok [(mkSize 20 30, mkPoint 20 30); (mkSize 30 45, mkPoint 20 30)] s.
Proof.
  destruct (isOk_Ok (initDetector (OpenSpaceNet_new broadcastArgs)))
    as (det & s & Hrun); [vm_compute; reflexivity |].
  exists det, s. split; [exact Hrun |].
  destruct (calcWindows_broadcast _ _ _ Hrun) as [Hsizes _].
  destruct (Hsizes 20 30 [] eq_refl) as [Hnone _].
  exact (Hnone eq_refl).
Defined.

Lemma calcWindows_single_witness :
  exists det s,
    initDetector (OpenSpaceNet_new segmentationArgs) = Ok det s /\
    calcWindows s = Ok [(mkSize 64 64, mkPoint 64 64)] s.
Proof.
  destruct (isOk_Ok (initDetector (OpenSpaceNet_new segmentationArgs)))
    as (det & s & Hrun); [vm_compute; reflexivity |].
  exists det, s. split; [exact Hrun |].
  destruct (calcWindows_single _ _ _ Hrun) as [_ Hmodel];
    [cbn; lia | cbn; lia |].
  exact (Hmodel eq_refl eq_refl eq_refl).
Defined.

(** two sizes and two steps: two entries *)
Lemma calcWindows_length_witness :
  exists plan s',
    calcWindows (afterInit detectionArgs) = Ok plan s' /\ length plan = 2%nat.
Proof.
  destruct (isOk_Ok (calcWindows (afterInit detectionArgs)))
    as (plan & s' & Hrun); [vm_compute; reflexivity |].
  exists plan, s'. split; [exact Hrun |].
  rewrite (calcWindows_length _ _ _ Hrun). vm_compute. reflexivity.
Defined.

Lemma calcWindows_widths_witness :
  exists det s plan s',
    initDetector (OpenSpaceNet_new detectionArgs) = Ok det s /\
    calcWindows s = Ok plan s' /\
    Forall (fun spec => sz_width spec.1 <= 50) plan.
Proof.
  destruct (isOk_Ok (bind initDetector (fun _ => calcWindows)
                          (OpenSpaceNet_new detectionArgs)))
    as (plan & s' & Hrun); [vm_compute; reflexivity |].
  apply bind_Ok_inv in Hrun as (det & s & Hdet & Hplan).
  exists det, s, plan, s'. split; [exact Hdet |]. split; [exact Hplan |].
  exact (calcWindows_widths _ _ _ _ _ Hdet eq_refl Hplan).
Defined.

(** a layer and an object without coordinate reference system *)
Lemma addLayer_polygons_witness :
  addLayer "local.shp" [] (polygonLayer SR_Local) (OpenSpaceNet_new localArgs)
  = Ok [mkRect 1030 2030 20 20] (OpenSpaceNet_new localArgs).
Proof.
  destruct (addLayer_polygons (OpenSpaceNet_new localArgs) "local.shp"
              (polygonLayer SR_Local) [] eq_refl) as [Hok _].
  apply Hok. repeat constructor.
Defined.

Lemma buildRegionFilter_returns_iff_witness :
  Forall (entry_fits (afterInit includeExcludeArgs))
         (a_filterDefinition (args_ (afterInit includeExcludeArgs))).
Proof.
  apply (proj1 (buildRegionFilter_returns_iff (afterInit includeExcludeArgs))).
  destruct (isOk_Ok (buildRegionFilter (afterInit includeExcludeArgs)))
    as (rf & s' & Hrun); [vm_compute; reflexivity |].
  by exists rf, s'.
Defined.

(** an exclusion first: the rectangle of the box of 40 x 40 is added *)
Lemma buildRegionFilter_operations_witness :
  exists rf s' ops,
    buildRegionFilter (afterInit clippedArgs) = Ok rf s' /\
    rf_rect rf = mkRect 0 0 40 40 /\
    rf_ops rf = [Add [mkRect 0 0 40 40]] ++ ops /\
    Forall2 (entry_op (afterInit clippedArgs)) [("exclude", ["a.shp"])] ops.
Proof.
  destruct (isOk_Ok (buildRegionFilter (afterInit clippedArgs)))
    as (rf & s' & Hrun); [vm_compute; reflexivity |].
  destruct (buildRegionFilter_operations _ _ _ Hrun)
    as (Hrect & _ & ops & Hops & Hall).
  exists rf, s', ops. split; [exact Hrun |].
  split; [exact Hrect |]. split; [exact Hops | exact Hall].
Defined.

Lemma unknown_action_after_files_witness :
  buildRegionFilter (afterInit unknownActionArgs)
  = Throw (UnknownFilterAction "mask") (afterInit unknownActionArgs).
Proof.
  destruct (unknown_action_after_files (afterInit unknownActionArgs) "mask"
              ["a.shp"] [] eq_refl) as [Hunknown _]; [done | done |].
  apply Hunknown. repeat constructor.
Defined.

(** a catalog id and credentials, but no token; credentials "user:password";
    credentials without ':' *)
Lemma initWfs_checks_witness :
  (exists s', initWfs (OpenSpaceNet_new tokenlessArgs) = Throw NoWfsToken s') /\
  (exists node s',
     initWfs (OpenSpaceNet_new catalogArgs) = Ok (Some node) s' /\
     n_attrs node !! "url"
     = Some (AWfsUrl "https://services.digitalglobe.com/catalogservice/wfsaccess"
                     "user" "password" "token")) /\
  (exists s', initWfs (OpenSpaceNet_new colonlessArgs)
              = Throw SplitCredsOutOfRange s').
Proof.
  split; [| split].
  - destruct (initWfs_checks (OpenSpaceNet_new tokenlessArgs))
      as (_ & _ & Htoken & _).
    apply Htoken; [left; by eexists | right; done | reflexivity].
  - destruct (initWfs_checks (OpenSpaceNet_new catalogArgs))
      as (_ & _ & _ & Hnode & _).
    apply (Hnode ltac:(left; by eexists) ltac:(right; done) ltac:(done)
                 "user" "password" []).
    reflexivity.
  - destruct (initWfs_checks (OpenSpaceNet_new colonlessArgs))
      as (_ & _ & _ & _ & Hsplit & _).
    apply Hsplit; [left; by eexists | left; done | done | vm_compute; lia].
Defined.



(** the user's "date" does not replace the date, and of the two notes the
    first is kept *)
Lemma extra_fields_first_wins_witness :
  exists fields,
    n_attrs (initPredictionToFeature (OpenSpaceNet_new catalogArgs))
      !! "extraFields" = Some (AFields fields) /\
    NoDup fields.*1 /\
    (("date", FDateNow) ∈ fields) /\
    (("note", FString "first") ∈ fields) /\
    ~ (("note", FString "second") ∈ fields).
Proof.
  destruct (extra_fields_first_wins (OpenSpaceNet_new catalogArgs))
    as (fields & Hattr & Hnd & Hiff & Hbuiltin); [exists 3%nat; reflexivity |].
  exists fields. split; [exact Hattr |]. split; [exact Hnd |].
  split; [apply Hbuiltin; by left |].
  split; [apply Hiff; vm_compute; reflexivity |].
  intros Hin. apply Hiff in Hin. vm_compute in Hin. discriminate Hin.
Defined.

(** detection with a label filter and a region filter, without NMS: the
    sliding window reads from the region filter and the box-to-polygon
    node from the label filter *)
Lemma process_chain_witness :
  exists g s',
    process (OpenSpaceNet_new detectionArgs) = Ok g s' /\
    stages g = ["blockSource"; "blockCache"; "border"; "regionFilter";
                "slidingWindow"; "detector"; "labelFilter";
                "predictionToPoly"; "predToFeature"; "featureSink"] /\
    wired g "slidingWindow" "subsets" "regionFilter" "subsets" /\
    wired g "predictionToPoly" "predictions" "labelFilter" "predictions" /\
    ~ wired g "slidingWindow" "subsets" "border" "subsets".
Proof.
  destruct (isOk_Ok (process (OpenSpaceNet_new detectionArgs)))
    as (g & s' & Hrun); [vm_compute; reflexivity |].
  exists g, s'. split; [exact Hrun |].
  assert (Hstages : stages <$> value_of (process (OpenSpaceNet_new detectionArgs))
                    = Some ["blockSource"; "blockCache"; "border"; "regionFilter";
                            "slidingWindow"; "detector"; "labelFilter";
                            "predictionToPoly"; "predToFeature"; "featureSink"])
    by (vm_compute; reflexivity).
  rewrite Hrun in Hstages. cbn [value_of fmap option_fmap option_map] in Hstages.
  injection Hstages as Hstages.
  pose proof (process_chain _ _ _ Hrun) as Hchain.
  rewrite Hstages in Hchain.
  split; [exact Hstages |].
  split; [apply Hchain, (bool_decide_unpack _); vm_compute; exact I |].
  split; [apply Hchain, (bool_decide_unpack _); vm_compute; exact I |].
  intros Hwired. apply Hchain in Hwired. revert Hwired.
  apply (bool_decide_unpack _). vm_compute. exact I.
Defined.

(** a local image with an alpha band, NMS and a catalog id *)
Lemma process_stages_witness :
  exists g s',
    process (OpenSpaceNet_new catalogArgs) = Ok g s' /\
    kind_of g <$> stageOrder =
      [Some GdalBlockSource; Some RemoveBandByColorInterp; Some BlockCache;
       Some SubsetWithBorder; None; Some SlidingWindow; Some BoxDetector;
       None; Some BoxNonMaxSuppression; Some PredictionBoxToPoly;
       Some PredictionToFeature; Some WfsFeatureFieldExtractor;
       Some FileFeatureSink].
Proof.
  destruct (isOk_Ok (process (OpenSpaceNet_new catalogArgs)))
    as (g & s' & Hrun); [vm_compute; reflexivity |].
  exists g, s'. split; [exact Hrun |].
  destruct (process_stages _ _ _ Hrun) as [Hkinds _].
  rewrite Hkinds. vm_compute. reflexivity.
Defined.

(** a cache of 1024: 512 for the cache node and 512 for the sliding
    window *)
Lemma process_cache_budget_witness :
  exists g s',
    process (OpenSpaceNet_new detectionArgs) = Ok g s' /\
    attr_of g "blockCache" "bufferSize" = Some (AInt 512) /\
    attr_of g "slidingWindow" "bufferSize" = Some (AInt 512).
Proof.
  destruct (isOk_Ok (process (OpenSpaceNet_new detectionArgs)))
    as (g & s' & Hrun); [vm_compute; reflexivity |].
  exists g, s'. split; [exact Hrun |].
  exact (process_cache_budget _ _ _ Hrun).
Defined.

(** a resample size of 40 for a model of 50 x 75 *)
Lemma process_resample_witness :
  exists g s',
    process (OpenSpaceNet_new catalogArgs) = Ok g s' /\
    attr_of g "border" "paddedSize" = Some (ASize (mkSize 50 75)) /\
    attr_of g "slidingWindow" "resampledSize" = Some (ASize (mkSize 40 60)).
Proof.
  destruct (isOk_Ok (process (OpenSpaceNet_new catalogArgs)))
    as (g & s' & Hrun); [vm_compute; reflexivity |].
  exists g, s'. split; [exact Hrun |].
  pose proof (process_resample _ _ _ Hrun) as Hresample.
  cbn in Hresample. destruct Hresample as (_ & Hborder & Hwindow).
  split; [exact Hborder | exact Hwindow].
Defined.

(** an image with a coordinate reference system: the output is in WGS84 *)
Lemma process_image_settings_witness :
  exists g s',
    process (OpenSpaceNet_new detectionArgs) = Ok g s' /\
    attr_of g "slidingWindow" "aoi" = Some (ARect (bbox_ s')) /\
    attr_of g "featureSink" "outputSpatialReference"
    = Some (ASpatialReference (sr_ s')) /\
    sr_ s' = WGS84.
Proof.
  destruct (isOk_Ok (process (OpenSpaceNet_new detectionArgs)))
    as (g & s' & Hrun); [vm_compute; reflexivity |].
  exists g, s'. split; [exact Hrun |].
  destruct (process_image_settings _ _ _ Hrun) as (Haoi & _ & _ & Hout & _ & Hsr).
  split; [exact Haoi |]. split; [exact Hout | exact Hsr].
Defined.

Lemma process_fields_defined_witness :
  exists g s' fields names,
    process (OpenSpaceNet_new catalogArgs) = Ok g s' /\
    attr_of g "predToFeature" "extraFields" = Some (AFields fields) /\
    attr_of g "featureSink" "fieldDefinitions" = Some (AFieldNames names) /\
    (forall k, k ∈ fields.*1 -> k ∈ names).
Proof.
  destruct (isOk_Ok (process (OpenSpaceNet_new catalogArgs)))
    as (g & s' & Hrun); [vm_compute; reflexivity |].
  destruct (process_fields_defined _ _ _ Hrun)
    as (fields & names & Hfields & Hnames & Hin & _);
    [exists 3%nat; reflexivity |].
  exists g, s', fields, names.
  split; [exact Hrun |]. split; [exact Hfields |].
  split; [exact Hnames | exact Hin].
Defined.

(** a resample size of 80 for a model of width 64; and no source *)
Lemma process_error_causes_witness :
  (exists s', process (OpenSpaceNet_new wideArgs) = Throw ResampleSizeTooLarge s' /\
              exists r, a_resampledSize wideArgs = Some r /\ 64 < r) /\
  process (OpenSpaceNet_new noSourceArgs)
  = Throw InputSourceNotSpecified (OpenSpaceNet_new noSourceArgs).
Proof.
  split.
  - destruct (error_of_Throw (process (OpenSpaceNet_new wideArgs))
                ResampleSizeTooLarge) as [s' Hrun]; [vm_compute; reflexivity |].
    exists s'. split; [exact Hrun |].
    exact (proj1 (process_error_causes (OpenSpaceNet_new wideArgs)) _ _ Hrun).
  - exact (proj2 (process_error_causes (OpenSpaceNet_new noSourceArgs)) eq_refl).
Defined.

(** three callbacks while the display runs, two after it is stopped *)
Lemma monitor_trace_witness :
  let before := [MetricTotal 4; MetricForwarded 1; MetricProcessed 1] in
  let after := [MetricForwarded 2; DisplayStop; MetricProcessed 2] in
  let final := monitorRun true monitorStart (before ++ DisplayStop :: after) in
  pd_updates final
  = [UpdateMaximum "Reading" 4; UpdateMaximum "Detecting" 4;
     UpdateCurrent "Reading" 1; UpdateCurrent "Detecting" 1] /\
  sink_cancels final = 2%nat.
Proof.
  cbv zeta.
  destruct (monitor_trace [MetricTotal 4; MetricForwarded 1; MetricProcessed 1]
              [MetricForwarded 2; DisplayStop; MetricProcessed 2])
    as (_ & _ & _ & Hupdates & Hcancels); [repeat constructor |].
  split; [exact Hupdates | exact Hcancels].
Defined.

Lemma updates_in_categories_witness :
  Forall (fun u => updateCategory u ∈ setProgressDisplay.*1)
         (pd_updates (monitorRun true monitorStart
                        [MetricTotal 4; MetricForwarded 1; DisplayStop;
                         MetricProcessed 1])).
Proof. apply (updates_in_categories true monitorStart). constructor. Defined.
